(** * Guard: the Azure RBAC check-access client

    A shallow embedding of the [rbac] package of guard
    (authz/providers/azure/rbac): the helpers that shape a check-access
    request (action names, scopes, cache keys, request bodies), the decoder
    of the check-access response, and the [AccessInfo] client with its token
    state and its decision cache.

    Go strings are byte strings: they are modelled by [string], whose
    characters are the bytes.  Functions of Go's standard library and of
    third-party packages that the code calls are modelled in the modules
    [GoStrings], [GoPath], [GoStrconv] and [UUID]; interfaces of the program
    ([authz.Store], [graph.TokenProvider]) and the libraries that talk to
    the outside world (encoding/json, net/http) are type classes. *)

From Stdlib Require Import ZArith Lia Bool List Ascii String.
From stdpp Require Import base option list strings gmap.

Open Scope string_scope.
Open Scope Z_scope.

(** ** Go standard library: strings *)

Module GoStrings.

Definition is_upper (c : ascii) : bool :=
  let n := nat_of_ascii c in ((65 <=? n) && (n <=? 90))%nat.

(** [unicode.ToLower] on one byte of the ASCII range; other bytes are kept. *)
Definition lower_byte (c : ascii) : ascii :=
  if is_upper c then ascii_of_nat (nat_of_ascii c + 32) else c.

(** [strings.ToLower], as it acts on ASCII letters.  Bytes above 0x7f are
    left alone here; Go maps the runes they encode by the Unicode tables.
    It stands for [strings.ToLower] where the result is compared with an
    ASCII constant, and the two comparisons of that kind come out as in
    Go: the only runes outside ASCII that lower into ASCII are U+0130 and
    U+212A, to i and k, which "allowed" does not have; and nine bytes
    that lower to the nine bytes of "urn:uuid:" are nine ASCII runes.
    Where two lowered strings are compared with each other, [ToLower_full]
    below is used. *)
Fixpoint ToLower (s : string) : string :=
  match s with
  | EmptyString => EmptyString
  | String c s' => String (lower_byte c) (ToLower s')
  end.

(** [strings.Join] *)
Definition Join (elems : list string) (sep : string) : string :=
  String.concat sep elems.

(** The same byte, or an upper-case ASCII letter and its lower-case form. *)
Definition same_letter (c d : ascii) : bool :=
  Ascii.eqb c d
  || (is_upper c && (nat_of_ascii d =? nat_of_ascii c + 32)%nat)
  || (is_upper d && (nat_of_ascii c =? nat_of_ascii d + 32)%nat).

(** Case-insensitive equality of two strings, byte by byte. *)
Fixpoint equal_fold (s t : string) : bool :=
  match s, t with
  | EmptyString, EmptyString => true
  | String c s', String d t' => same_letter c d && equal_fold s' t'
  | _, _ => false
  end.

(** Whether every byte of [s] is below [utf8.RuneSelf]. *)
Fixpoint isASCII (s : string) : bool :=
  match s with
  | EmptyString => true
  | String c s' => (nat_of_ascii c <? 128)%nat && isASCII s'
  end.

(** Package unicode: [strings.Map(unicode.ToLower, s)], the runes of [s]
    lowered by the tables of the Unicode standard. *)
Class Unicode := {
  Map_ToLower : string -> string
}.

(** [strings.ToLower] on any string, where two lowered strings are
    compared with each other: a string of ASCII bytes is lowered byte by
    byte, any other string rune by rune. *)
Definition ToLower_full `{Unicode} (s : string) : string :=
  if isASCII s then ToLower s else Map_ToLower s.

End GoStrings.

(** ** Go standard library: path *)

Module GoPath.

Definition slash : ascii := "/"%char.

(** The elements of a path, separated by slashes: [concat "/"] is its
    inverse.  The empty string has one, empty, element. *)
Fixpoint elements (s : string) : list string :=
  match s with
  | EmptyString => [EmptyString]
  | String c s' =>
      if Ascii.eqb c slash then EmptyString :: elements s'
      else match elements s' with
           | [] => [String c EmptyString]
           | e :: es => String c e :: es
           end
  end.

Definition rooted (s : string) : bool :=
  match s with
  | String c _ => Ascii.eqb c slash
  | EmptyString => false
  end.

(** The loop of [path.Clean] over the elements of the path: [out] holds
    the elements written so far, last one first.  Empty and "." elements
    are skipped; ".." removes the element before it when there is one
    that is not itself "..", is kept at the head of a path that is not
    rooted, and is dropped at the head of a rooted one. *)
Fixpoint clean_loop (is_rooted : bool) (out : list string) (elems : list string)
  : list string :=
  match elems with
  | [] => rev out
  | e :: rest =>
      if String.eqb e "" || String.eqb e "." then clean_loop is_rooted out rest
      else if String.eqb e ".." then
        match out with
        | top :: out' =>
            if String.eqb top ".." then clean_loop is_rooted (e :: out) rest
            else clean_loop is_rooted out' rest
        | [] =>
            if is_rooted then clean_loop is_rooted out rest
            else clean_loop is_rooted (e :: out) rest
        end
      else clean_loop is_rooted (e :: out) rest
  end.

(** [path.Clean]: the shortest path equivalent to [p]; "." for an empty
    result. *)
Definition Clean (p : string) : string :=
  let out := clean_loop (rooted p) [] (elements p) in
  if rooted p then String slash (String.concat "/" out)
  else match out with
       | [] => "."
       | _ => String.concat "/" out
       end.

(** [path.Clean] once more, as Go writes it: one pass over the bytes of the
    path with a write buffer, here [buf] with its last byte first, and the
    index [dotdot] below which ".." may not remove anything.  [copying]
    holds while the bytes of an element are being copied.  It is the same
    function as [Clean]. *)
Definition dot : ascii := "."%char.

Definition at_end_or_slash (s : string) : bool :=
  match s with
  | EmptyString => true
  | String c _ => Ascii.eqb c slash
  end.

(** [out.w--; for out.w > dotdot && out.index(out.w) != '/' { out.w-- }] *)
Fixpoint backtrack (dotdot : nat) (buf : list ascii) : list ascii :=
  match buf with
  | [] => []
  | b :: rest =>
      if (dotdot <? length rest)%nat && negb (Ascii.eqb b slash)
      then backtrack dotdot rest else rest
  end.

Fixpoint bytes_loop (is_rooted copying : bool) (buf : list ascii) (dotdot : nat)
    (s : string) : list ascii :=
  match s with
  | EmptyString => buf
  | String c s' =>
      let element :=
        let buf1 :=
          if (is_rooted && negb (length buf =? 1)%nat)
             || (negb is_rooted && negb (length buf =? 0)%nat)
          then slash :: buf else buf in
        bytes_loop is_rooted true (c :: buf1) dotdot s' in
      if copying then
        if Ascii.eqb c slash then bytes_loop is_rooted false buf dotdot s'
        else bytes_loop is_rooted true (c :: buf) dotdot s'
      else if Ascii.eqb c slash then bytes_loop is_rooted false buf dotdot s'
      else if Ascii.eqb c dot && at_end_or_slash s' then
        bytes_loop is_rooted false buf dotdot s'
      else if Ascii.eqb c dot then
        match s' with
        | String c2 s'' =>
            if Ascii.eqb c2 dot && at_end_or_slash s'' then
              if (dotdot <? length buf)%nat then
                bytes_loop is_rooted false (backtrack dotdot buf) dotdot s''
              else if negb is_rooted then
                let buf1 := if (0 <? length buf)%nat then slash :: buf else buf in
                let buf2 := dot :: dot :: buf1 in
                bytes_loop is_rooted false buf2 (length buf2) s''
              else bytes_loop is_rooted false buf dotdot s''
            else element
        | EmptyString => element
        end
      else element
  end.

Definition Clean_bytes (p : string) : string :=
  match p with
  | EmptyString => "."
  | String c p' =>
      let out :=
        if Ascii.eqb c slash then bytes_loop true false [slash] 1 p'
        else bytes_loop false false [] 0 p in
      match out with
      | [] => "."
      | _ => string_of_list_ascii (rev out)
      end
  end.

(** [path.Join] (Go 1.12): leading empty elements are ignored, the rest is
    joined by slashes and cleaned; the empty string when all are empty. *)
Fixpoint Join (elem : list string) : string :=
  match elem with
  | [] => ""
  | e :: rest =>
      if String.eqb e "" then Join rest
      else Clean (GoStrings.Join elem "/")
  end.

End GoPath.

(** ** Go standard library: strconv *)

Module GoStrconv.

Definition is_digit (c : ascii) : bool :=
  let n := nat_of_ascii c in ((48 <=? n) && (n <=? 57))%nat.

Definition digit_val (c : ascii) : Z := Z.of_nat (nat_of_ascii c) - 48.

(** The value of a run of decimal digits, [None] at any other byte. *)
Fixpoint digits (acc : Z) (s : string) : option Z :=
  match s with
  | EmptyString => Some acc
  | String c s' =>
      if is_digit c then digits (10 * acc + digit_val c) s' else None
  end.

Definition maxInt : Z := 2 ^ 63 - 1.
Definition minInt : Z := - 2 ^ 63.

Definition unsigned (s : string) : option Z :=
  match s with
  | EmptyString => None
  | _ => digits 0 s
  end.

(** [strconv.Atoi] with its error dropped, as [count, _ := strconv.Atoi(s)]
    reads it: 0 on a syntax error; the nearest bound of a 64-bit int when
    the number is out of range. *)
Definition Atoi (s : string) : Z :=
  let clamp (z : Z) := Z.max minInt (Z.min maxInt z) in
  match s with
  | String "-" s' => match unsigned s' with Some n => clamp (- n) | None => 0 end
  | String "+" s' => match unsigned s' with Some n => clamp n | None => 0 end
  | _ => match unsigned s with Some n => clamp n | None => 0 end
  end.

End GoStrconv.

(** ** github.com/google/uuid v1.1.1 *)

Module UUID.

Definition is_hex (c : ascii) : bool :=
  let n := nat_of_ascii c in
  (((48 <=? n) && (n <=? 57)) || ((65 <=? n) && (n <=? 70))
   || ((97 <=? n) && (n <=? 102)))%nat.

(** [s[i]]; the callers below only read inside the string. *)
Definition at_ (s : string) (i : nat) : ascii :=
  match String.get i s with Some c => c | None => zero end.

(** The success flag of [xtob]: both bytes are hexadecimal digits. *)
Definition xtob_ok (x1 x2 : ascii) : bool := is_hex x1 && is_hex x2.

Definition dash : ascii := "-"%char.

(** The common tail of [Parse]: [s] has at least 36 bytes and must read
    xxxxxxxx-xxxx-xxxx-xxxx-xxxxxxxxxxxx. *)
Definition hyphenated_ok (s : string) : bool :=
  Ascii.eqb (at_ s 8) dash && Ascii.eqb (at_ s 13) dash
  && Ascii.eqb (at_ s 18) dash && Ascii.eqb (at_ s 23) dash
  && forallb (fun x => xtob_ok (at_ s x) (at_ s (x + 1)))
       [0; 2; 4; 6; 9; 11; 14; 16; 19; 21; 24; 26; 28; 30; 32; 34]%nat.

(** [s[n:]] *)
Definition from (n : nat) (s : string) : string :=
  substring n (String.length s - n) s.

(** Whether [uuid.Parse] returns a nil error.  It switches on the length:
    36 is the plain form, 45 the form with a "urn:uuid:" prefix, 38 the
    form in braces (the first byte is dropped, neither brace is looked
    at), 32 the form of 32 hexadecimal digits. *)
Definition Parse_ok (s : string) : bool :=
  let n := String.length s in
  if (n =? 36)%nat then hyphenated_ok s
  else if (n =? 36 + 9)%nat then
    if negb (String.eqb (GoStrings.ToLower (substring 0 9 s)) "urn:uuid:") then false
    else hyphenated_ok (from 9 s)
  else if (n =? 36 + 2)%nat then hyphenated_ok (from 1 s)
  else if (n =? 32)%nat then
    forallb (fun i => xtob_ok (at_ s (i * 2)) (at_ s (i * 2 + 1))) (seq 0 16)
  else false.

End UUID.

(** ** k8s.io/api/authorization/v1 *)

Record ResourceAttributes := {
  ra_Namespace : string;
  ra_Verb : string;
  ra_Group : string;
  ra_Version : string;
  ra_Resource : string;
  ra_Subresource : string;
  ra_Name : string
}.

Record NonResourceAttributes := {
  nra_Path : string;
  nra_Verb : string
}.

(** [ExtraValue] is a []string. *)
Definition ExtraValue := list string.

Record SubjectAccessReviewSpec := {
  sar_ResourceAttributes : option ResourceAttributes;
  sar_NonResourceAttributes : option NonResourceAttributes;
  sar_User : string;
  sar_Groups : list string;
  sar_Extra : gmap string ExtraValue;
  sar_UID : string
}.

Record SubjectAccessReviewStatus := {
  Allowed : bool;
  Denied : bool;
  Reason : string;
  EvaluationError : string
}.

(** ** Package rbac: the helpers of a check-access request *)

Definition AccessAllowedVerdict : string := "Access allowed".
Definition AllowedDecision : string := "allowed".
Definition AccessNotAllowedVerdict : string :=
  "User does not have access to the resource in Azure. Update role assignment to allow access.".
Definition namespaces : string := "namespaces".

Definition getScope (resourceId : string) (attr : option ResourceAttributes) : string :=
  match attr with
  | Some a =>
      if negb (String.eqb (ra_Namespace a) "")
      then GoPath.Join [resourceId; namespaces; ra_Namespace a]
      else resourceId
  | None => resourceId
  end.

Definition getActionName (verb : string) : string :=
  if String.eqb verb "get" then "read"
  else if String.eqb verb "list" then "read"
  else if String.eqb verb "watch" then "read"
  else if String.eqb verb "bind" then "bind/action"
  else if String.eqb verb "escalate" then "escalate/action"
  else if String.eqb verb "use" then "use/action"
  else if String.eqb verb "impersonate" then "impersonate/action"
  else if String.eqb verb "create" then "write"
  else if String.eqb verb "patch" then "write"
  else if String.eqb verb "update" then "write"
  else if String.eqb verb "delete" then "delete"
  else if String.eqb verb "deletecollection" then "delete"
  else "".

Definition getResultCacheKey (subRevReq : SubjectAccessReviewSpec) : string :=
  let cacheKey := sar_User subRevReq in
  match sar_ResourceAttributes subRevReq with
  | Some ra =>
      let cacheKey :=
        if negb (String.eqb (ra_Namespace ra) "")
        then GoPath.Join [cacheKey; ra_Namespace ra] else cacheKey in
      let cacheKey :=
        if negb (String.eqb (ra_Group ra) "")
        then GoPath.Join [cacheKey; ra_Group ra] else cacheKey in
      GoPath.Join [cacheKey; ra_Resource ra; getActionName (ra_Verb ra)]
  | None =>
      match sar_NonResourceAttributes subRevReq with
      | Some nra =>
          GoPath.Join [cacheKey; nra_Path nra; getActionName (nra_Verb nra)]
      | None => cacheKey
      end
  end.

Definition getNameSpaceScope (req : SubjectAccessReviewSpec) : bool * string :=
  match sar_ResourceAttributes req with
  | Some ra =>
      if negb (String.eqb (ra_Namespace ra) "")
      then (true, GoPath.Join [namespaces; ra_Namespace ra])
      else (false, "")
  | None => (false, "")
  end.


(** [ExtraValue.String]: [fmt.Sprintf("%v", []string(t))], the elements
    separated by one space, in square brackets. *)
Definition ExtraValue_String (t : ExtraValue) : string :=
  "[" +:+ GoStrings.Join t " " +:+ "]".

(** ** Errors and results *)

(** Error values: [errors.New], [errors.Wrap], the formatted error of a
    failed check-access call, and the errors that libraries return. *)
Inductive error :=
| errors_New (msg : string)
| errors_Wrap (cause : error) (msg : string)
| StatusError (path : string) (code : Z) (response : string)
| LibError (descr : string).

(** What a call comes to: a value, a returned error, or a run-time panic. *)
Inductive result (A : Type) :=
| Ok (a : A)
| Err (e : error)
| Panic.
Arguments Ok {A} a.
Arguments Err {A} e.
Arguments Panic {A}.

(** ** Package rbac: the helpers of a check-access request, continued *)

Record SubjectInfoAttributes := {
  ObjectId : string;
  sia_Groups : list string;
  RetrieveGroupMemberships : bool
}.

Record SubjectInfo := { Attributes : SubjectInfoAttributes }.

Record AuthorizationEntity := { Id : string }.

Record AuthorizationActionInfo := {
  aai_AuthorizationEntity : AuthorizationEntity;
  IsDataAction : bool
}.

Record CheckAccessRequest := {
  Subject : SubjectInfo;
  Actions : list AuthorizationActionInfo;
  Resource : AuthorizationEntity
}.

(** One decision of a check-access response.  Its role and deny assignments
    are decoded by the program and never read; they are left out. *)
Record AuthorizationDecision := {
  Decision : string;
  ActionId : string;
  ad_IsDataAction : bool;
  TimeToLiveInMs : Z
}.

Definition isValidUUID (u : string) : bool := UUID.Parse_ok u.

Definition getValidSecurityGroups (groups : list string) : list string :=
  fold_left (fun finalGroups element =>
               if isValidUUID element then (finalGroups ++ [element])%list
               else finalGroups)
            groups [].

Definition getDataAction (subRevReq : SubjectAccessReviewSpec) (clusterType : string)
  : AuthorizationActionInfo :=
  let id := clusterType in
  let id :=
    match sar_ResourceAttributes subRevReq with
    | Some ra =>
        let id := if negb (String.eqb (ra_Group ra) "")
                  then GoPath.Join [id; ra_Group ra] else id in
        GoPath.Join [id; ra_Resource ra; getActionName (ra_Verb ra)]
    | None =>
        match sar_NonResourceAttributes subRevReq with
        | Some nra => GoPath.Join [id; nra_Path nra; getActionName (nra_Verb nra)]
        | None => id
        end
    end in
  {| aai_AuthorizationEntity := {| Id := id |}; IsDataAction := true |}.

Definition prepareCheckAccessRequestBody (req : SubjectAccessReviewSpec)
    (clusterType resourceId : string) (retrieveGroupMemberships : bool)
  : error + CheckAccessRequest :=
  match sar_Extra req !! "oid" with
  | None => inl (errors_New "oid info not sent from authentication module")
  | Some oid =>
      let val := ExtraValue_String oid in
      let userOid := substring 1 (String.length val - 1 - 1) val in
      if isValidUUID userOid then
        let groups :=
          if negb retrieveGroupMemberships
          then getValidSecurityGroups (sar_Groups req) else [] in
        inr {| Subject := {| Attributes :=
                 {| ObjectId := userOid;
                    sia_Groups := groups;
                    RetrieveGroupMemberships := retrieveGroupMemberships |} |};
               Actions := [getDataAction req clusterType];
               Resource := {| Id := getScope resourceId (sar_ResourceAttributes req) |} |}
      else inl (errors_New "oid info sent from authentication module is not valid")
  end.

(** encoding/json, as far as this package uses it: the encoder of a
    check-access request and the decoder of a response body into a
    []AuthorizationDecision.  A body may decode without error to an empty
    list (the JSON texts [[]] and [null] do). *)
Class JSON := {
  json_Encode : CheckAccessRequest -> error + string;
  json_Unmarshal : string -> error + list AuthorizationDecision
}.

Definition ConvertCheckAccessResponse `{JSON} (body : string)
  : result SubjectAccessReviewStatus :=
  match json_Unmarshal body with
  | inl err =>
      Err (errors_Wrap err "Error in unmarshalling check access response.")
  | inr response =>
      match response with
      | [] => Panic
      | first :: _ =>
          if String.eqb (GoStrings.ToLower (Decision first)) AllowedDecision
          then Ok {| Allowed := true; Denied := false;
                     Reason := AccessAllowedVerdict; EvaluationError := "" |}
          else Ok {| Allowed := false; Denied := true;
                     Reason := AccessNotAllowedVerdict; EvaluationError := "" |}
      end
  end.

(** ** net/url and net/http, as far as the client uses them *)

Record URL := {
  url_Scheme : string;
  url_Host : string;
  url_Path : string;
  url_RawQuery : string
}.

Definition URL_with_Path (u : URL) (p : string) : URL :=
  {| url_Scheme := url_Scheme u; url_Host := url_Host u;
     url_Path := p; url_RawQuery := url_RawQuery u |}.

Definition URL_with_RawQuery (u : URL) (q : string) : URL :=
  {| url_Scheme := url_Scheme u; url_Host := url_Host u;
     url_Path := url_Path u; url_RawQuery := q |}.

(** [http.Header], under keys in canonical form. *)
Abbreviation Header := (gmap string (list string)).

(** [Header.Set]: the values of the key are replaced by the one value. *)
Definition Header_Set (h : Header) (key value : string) : Header :=
  <[key := [value]]> h.

Record Request := {
  req_Method : string;
  req_URL : URL;
  req_Body : string;
  req_Header : Header
}.

Definition Request_with_Header (r : Request) (h : Header) : Request :=
  {| req_Method := req_Method r; req_URL := req_URL r;
     req_Body := req_Body r; req_Header := h |}.

(** A response: its status code, what [Header.Get] reads from its headers,
    and what [ioutil.ReadAll] makes of its body. *)
Record Response := {
  StatusCode : Z;
  resp_Header_Get : string -> string;
  resp_Body_ReadAll : error + string
}.

(** The remote side, seen from the client: [http.NewRequest] and
    [Client.Do].  [http_NewRequest method u body] stands for
    [http.NewRequest(method, u.String(), body)]: the URL is rendered as a
    text and parsed again, and the URL of the request is what the parser
    makes of the text. *)
Class HTTP := {
  http_NewRequest : string -> URL -> string -> error + Request;
  client_Do : Request -> error + Response
}.

Definition StatusOK : Z := 200.
Definition StatusTooManyRequests : Z := 429.
Definition MethodPost : string := "POST".

(** ** The interfaces of the program *)

(** Modelled from the spec: the interface [authz.Store] of package authz,
    which this development does not embed; the spec gives it
    [Get(key) (found, value)] and [Set(key, value) error].  The client calls
    [Get(key, &result)], which reports whether the key was found and may
    write the decision it holds into [result]. *)
Class Store := {
  store : Type;
  store_Get : string -> store -> (bool * option bool * option error) * store;
  store_Set : string -> bool -> store -> option error * store
}.

(** Modelled from the spec: [graph.AuthResponse] and [graph.TokenProvider]
    of package auth/providers/azure/graph, which this development does not
    embed; the spec gives a provider [Acquire(scope) -> (token,
    expirySeconds, error)] and [Name() string]. *)
Record AuthResponse := {
  TokenType : string;
  Expires : Z;
  Token : string
}.

Class TokenProvider := {
  provider_Name : string;
  provider_Acquire : string -> error + AuthResponse
}.

(** ** Package rbac: the client *)

Definition managedClusters : string := "Microsoft.ContainerService/managedClusters".
Definition connectedClusters : string := "Microsoft.Kubernetes/connectedClusters".
Definition checkAccessPath : string := "/providers/Microsoft.Authorization/checkaccess".
Definition checkAccessAPIVersion : string := "2018-09-01-preview".
Definition remaingSubReadARMHeader : string := "x-ms-ratelimit-remaining-subscription-reads".

(** Instants and durations are counted in nanoseconds.  A [time.Duration]
    is an int64; a [time.Time] is an instant of one time line, an integer
    that counts from the zero [Time]. *)
Definition wrap64 (z : Z) : Z := (z + 2 ^ 63) mod 2 ^ 64 - 2 ^ 63.
Definition Second : Z := 1000000000.
Definition expiryDelta : Z := 60 * Second.
Definition Duration_mul (d1 d2 : Z) : Z := wrap64 (d1 * d2).
Definition Duration_sub (d1 d2 : Z) : Z := wrap64 (d1 - d2).
Definition Time_Add (t d : Z) : Z := t + d.
Definition Time_Before (t u : Z) : bool := t <? u.

(** The fields of [AccessInfo] that hold data; its [client], [tokenProvider]
    and [dataStore] are the instances of [HTTP], [TokenProvider] and
    [Store]. *)
Record AccessInfo := {
  headers : Header;
  expiresAt : Z;
  apiURL : URL;
  clusterType : string;
  azureResourceId : string;
  armCallLimit : Z;
  skipCheck : gset string;
  retrieveGroupMemberships : bool;
  skipAuthzForNonAADUsers : bool
}.

Definition newAccessInfo `{GoStrings.Unicode}
    (rbacURL : URL) (clsuterType resourceId : string)
    (armCallLimit : Z) (skipList : list string)
    (retrieveGroupMemberships skipAuthzForNonAADUsers : bool) : AccessInfo :=
  let ct := if String.eqb clsuterType "arc" then connectedClusters else "" in
  let ct := if String.eqb clsuterType "aks" then managedClusters else ct in
  {| headers := {[ "Content-Type" := ["application/json"] ]};
     expiresAt := 0;
     apiURL := rbacURL;
     clusterType := ct;
     azureResourceId := resourceId;
     armCallLimit := armCallLimit;
     skipCheck := list_to_set (map GoStrings.ToLower_full skipList);
     retrieveGroupMemberships := retrieveGroupMemberships;
     skipAuthzForNonAADUsers := skipAuthzForNonAADUsers |}.

Definition AccessInfo_with_token (a : AccessInfo) (h : Header) (exp : Z) : AccessInfo :=
  {| headers := h;
     expiresAt := exp;
     apiURL := apiURL a;
     clusterType := clusterType a;
     azureResourceId := azureResourceId a;
     armCallLimit := armCallLimit a;
     skipCheck := skipCheck a;
     retrieveGroupMemberships := retrieveGroupMemberships a;
     skipAuthzForNonAADUsers := skipAuthzForNonAADUsers a |}.

(** [RefreshToken] at the instant [now]: the error it returns, if any, and
    the [AccessInfo] it leaves. *)
Definition RefreshToken `{TokenProvider} (now : Z) (a : AccessInfo)
  : option error * AccessInfo :=
  match provider_Acquire "" with
  | inl err => (Some (errors_Wrap err "failed to refresh rbac token"), a)
  | inr resp =>
      let h := Header_Set (headers a) "Authorization" ("Bearer " +:+ Token resp) in
      let expIn := Duration_mul (Expires resp) Second in
      (None, AccessInfo_with_token a h (Time_Add now (Duration_sub expIn expiryDelta)))
  end.

Definition IsTokenExpired (now : Z) (a : AccessInfo) : bool :=
  if Time_Before (expiresAt a) now then true else false.

Definition ShouldSkipAuthzCheckForNonAADUsers (a : AccessInfo) : bool :=
  skipAuthzForNonAADUsers a.

Definition SkipAuthzCheck `{GoStrings.Unicode}
    (a : AccessInfo) (request : SubjectAccessReviewSpec) : bool :=
  if String.eqb (clusterType a) connectedClusters
  then bool_decide (GoStrings.ToLower_full (sar_User request) ∈ skipCheck a)
  else false.

(** What a call leaves behind outside the [AccessInfo]: the shared decision
    cache, and the calls made on the HTTP client, latest first. *)
Inductive event :=
| EvDo (req : Request)
| EvCloseIdleConnections
| EvBodyClose.

Record World `{Store} := {
  w_store : store;
  w_events : list event
}.

Section Effects.
Context `{Store}.

(** Computations that read and change the world and may stop with an
    error or a panic. *)
Definition M (A : Type) : Type := World -> result A * World.

Definition ret {A} (a : A) : M A := fun w => (Ok a, w).
Definition fail {A} (e : error) : M A := fun w => (Err e, w).
Definition panic {A} : M A := fun w => (Panic, w).

Definition bind {A B} (c : M A) (k : A -> M B) : M B :=
  fun w =>
    match c w with
    | (Ok a, w') => k a w'
    | (Err e, w') => (Err e, w')
    | (Panic, w') => (Panic, w')
    end.

(** [v, err := f(); if err != nil { return nil, errors.Wrap(err, msg) }] *)
Definition try {A} (r : error + A) (msg : string) : M A :=
  match r with
  | inl err => fail (errors_Wrap err msg)
  | inr v => ret v
  end.

Definition log (e : event) : M unit :=
  fun w => (Ok tt, {| w_store := w_store w; w_events := e :: w_events w |}).

Definition when (b : bool) (c : M unit) : M unit :=
  if b then c else ret tt.

(** [defer f()]: [f] runs when the rest of the function is left, however
    it is left. *)
Definition defer {A} (e : event) (rest : M A) : M A :=
  fun w =>
    let '(r, w') := rest w in
    (r, {| w_store := w_store w'; w_events := e :: w_events w' |}).

End Effects.

Notation "x <- c ;; k" := (bind c (fun x => k))
  (at level 200, c at level 99, k at level 200, right associativity).
Notation "c ;;; k" := (bind c (fun _ => k))
  (at level 200, k at level 200, right associativity).

Section Client.
Context `{JSON} `{HTTP} `{Store}.

Definition GetResultFromCache (a : AccessInfo) (request : SubjectAccessReviewSpec)
  : M (bool * bool) :=
  fun w =>
    let key := getResultCacheKey request in
    let '(found, written, _, st) := store_Get key (w_store w) in
    let result := match written with Some b => b | None => false end in
    (Ok (found, result), {| w_store := st; w_events := w_events w |}).

Definition SetResultInCache (a : AccessInfo) (request : SubjectAccessReviewSpec)
    (result : bool) : M (option error) :=
  fun w =>
    let key := getResultCacheKey request in
    let '(err, st) := store_Set key result (w_store w) in
    (Ok err, {| w_store := st; w_events := w_events w |}).

(** [a.client.Do(req)] *)
Definition Do (req : Request) (msg : string) : M Response :=
  log (EvDo req) ;;; try (client_Do req) msg.

Definition CloseIdleConnections : M unit := log EvCloseIdleConnections.

Definition CheckAccess (a : AccessInfo) (request : SubjectAccessReviewSpec)
  : M SubjectAccessReviewStatus :=
  checkAccessBody <-
    try (prepareCheckAccessRequestBody request (clusterType a)
           (azureResourceId a) (retrieveGroupMemberships a))
        "error in preparing check access request" ;;
  let checkAccessURL := apiURL a in
  let checkAccessURL :=
    URL_with_Path checkAccessURL
      (GoPath.Join [url_Path checkAccessURL; azureResourceId a]) in
  let '(exist_, nameSpaceString) := getNameSpaceScope request in
  let checkAccessURL :=
    if exist_
    then URL_with_Path checkAccessURL
           (GoPath.Join [url_Path checkAccessURL; nameSpaceString])
    else checkAccessURL in
  let checkAccessURL :=
    URL_with_Path checkAccessURL
      (GoPath.Join [url_Path checkAccessURL; checkAccessPath]) in
  let checkAccessURL :=
    URL_with_RawQuery checkAccessURL ("api-version=" +:+ checkAccessAPIVersion) in
  buf <- try (json_Encode checkAccessBody) "error encoding check access request" ;;
  req <- try (http_NewRequest MethodPost checkAccessURL buf)
           "error creating check access request" ;;
  let req := Request_with_Header req (headers a) in
  resp <- Do req "error in check access request execution" ;;
  data <- try (resp_Body_ReadAll resp) "error in reading response body" ;;
  defer EvBodyClose (
    (if negb (StatusCode resp =? StatusOK) then
       when (StatusCode resp =? StatusTooManyRequests) CloseIdleConnections ;;;
       fail (StatusError (url_Path (req_URL req)) (StatusCode resp) data)
     else
       let remaining := resp_Header_Get resp remaingSubReadARMHeader in
       let count := GoStrconv.Atoi remaining in
       when (count <? armCallLimit a) CloseIdleConnections) ;;;
    fun w =>
      match ConvertCheckAccessResponse data with
      | Ok response =>
          (SetResultInCache a request (Allowed response) ;;; ret response) w
      | Err err =>
          (SetResultInCache a request false ;;; fail err) w
      | Panic => panic w
      end).

End Client.

(** ** The words of the specification *)

(** The verbs of the action table. *)
Definition table_verbs : list string :=
  ["get"; "list"; "watch"; "create"; "patch"; "update"; "delete";
   "deletecollection"; "bind"; "escalate"; "use"; "impersonate"].

(** Two requests that agree on every field a cache key is made of, their
    verbs being compared by [same_verb]. *)
Definition same_resource (same_verb : string -> string -> Prop)
    (r1 r2 : option ResourceAttributes) : Prop :=
  match r1, r2 with
  | Some a1, Some a2 =>
      ra_Namespace a1 = ra_Namespace a2 /\ ra_Group a1 = ra_Group a2
      /\ ra_Resource a1 = ra_Resource a2 /\ same_verb (ra_Verb a1) (ra_Verb a2)
  | None, None => True
  | _, _ => False
  end.

Definition same_non_resource (same_verb : string -> string -> Prop)
    (r1 r2 : option NonResourceAttributes) : Prop :=
  match r1, r2 with
  | Some a1, Some a2 =>
      nra_Path a1 = nra_Path a2 /\ same_verb (nra_Verb a1) (nra_Verb a2)
  | None, None => True
  | _, _ => False
  end.

Definition same_key_fields (same_verb : string -> string -> Prop)
    (r1 r2 : SubjectAccessReviewSpec) : Prop :=
  sar_User r1 = sar_User r2
  /\ same_resource same_verb (sar_ResourceAttributes r1) (sar_ResourceAttributes r2)
  /\ same_non_resource same_verb
       (sar_NonResourceAttributes r1) (sar_NonResourceAttributes r2).

Definition same_action (v1 v2 : string) : Prop :=
  getActionName v1 = getActionName v2.

(** A request for a resource, with the fields of the examples. *)
Definition resource_request (user ns group resource verb name : string)
    (extra : gmap string ExtraValue) : SubjectAccessReviewSpec :=
  {| sar_ResourceAttributes :=
       Some {| ra_Namespace := ns; ra_Verb := verb; ra_Group := group;
               ra_Version := "v1"; ra_Resource := resource;
               ra_Subresource := "status"; ra_Name := name |};
     sar_NonResourceAttributes := None;
     sar_User := user;
     sar_Groups := [];
     sar_Extra := extra;
     sar_UID := "" |}.

Definition namespace_only (ns : string) : ResourceAttributes :=
  {| ra_Namespace := ns; ra_Verb := ""; ra_Group := ""; ra_Version := "";
     ra_Resource := ""; ra_Subresource := ""; ra_Name := "" |}.

Fixpoint no_slash (s : string) : bool :=
  match s with
  | EmptyString => true
  | String c s' => negb (Ascii.eqb c GoPath.slash) && no_slash s'
  end.

(** A path element that [path.Clean] keeps as it is: not empty, not "." and
    not "..", without a slash. *)
Definition plain_element (e : string) : bool :=
  negb (String.eqb e "") && negb (String.eqb e ".") && negb (String.eqb e "..")
  && no_slash e.

(** A path made of plain elements separated by single slashes, at least one,
    with or without a slash in front and with none at the end. *)
Definition plain_path (p : string) : bool :=
  match GoPath.elements p with
  | EmptyString :: (_ :: _) as es => forallb plain_element es
  | es => forallb plain_element es
  end.

(** The text of an object identifier among the extra claims: the strings of
    the value, separated by single spaces. *)
Definition oid_text (v : ExtraValue) : string := GoStrings.Join v " ".

(** The bytes of a string. *)
Definition bytes_of (s : string) : list ascii := list_ascii_of_string s.

(** What the byte loop does with one element of the path. *)
Definition step_bytes (r : bool) (st : list ascii * nat) (e : string)
  : list ascii * nat :=
  let '(buf, dd) := st in
  if String.eqb e "" || String.eqb e "." then st
  else if String.eqb e ".." then
    if (dd <? length buf)%nat then (GoPath.backtrack dd buf, dd)
    else if negb r then
      let buf1 := if (0 <? length buf)%nat then GoPath.slash :: buf else buf in
      let buf2 := GoPath.dot :: GoPath.dot :: buf1 in (buf2, length buf2)
    else st
  else
    let buf1 :=
      if (r && negb (length buf =? 1)%nat) || (negb r && negb (length buf =? 0)%nat)
      then GoPath.slash :: buf else buf in
    ((rev (bytes_of e) ++ buf1)%list, dd).

(** What the element loop does with one element of the path. *)
Definition step_elements (r : bool) (out : list string) (e : string) : list string :=
  if String.eqb e "" || String.eqb e "." then out
  else if String.eqb e ".." then
    match out with
    | top :: out' => if String.eqb top ".." then e :: out else out'
    | [] => if r then out else e :: out
    end
  else e :: out.

(** The buffer that holds the elements [out], last element first, of a path
    that is rooted or not: its bytes, last byte first. *)
Definition written (r : bool) (out : list string) : string :=
  (if r then "/" else "") +:+ String.concat "/" (rev out).

Definition buffer (r : bool) (out : list string) : list ascii :=
  rev (bytes_of (written r out)).

(** The elements written so far: plain ones, [real], above the ".."
    elements that a path without a root starts with, [dds]. *)
Definition stack_ok (r : bool) (real dds : list string) : Prop :=
  forallb plain_element real = true
  /\ Forall (fun e => e = "..") dds
  /\ (r = true -> dds = []).

(** The errors of a request that does not identify its subject. *)
Definition credential_error (e : error) : Prop :=
  e = errors_New "oid info not sent from authentication module"
  \/ e = errors_New "oid info sent from authentication module is not valid".

(** The URL that [CheckAccess] builds and renders for [http.NewRequest]. *)
Definition checkAccessURL_of (a : AccessInfo) (request : SubjectAccessReviewSpec) : URL :=
  let u := URL_with_Path (apiURL a)
             (GoPath.Join [url_Path (apiURL a); azureResourceId a]) in
  let u := if (getNameSpaceScope request).1
           then URL_with_Path u (GoPath.Join [url_Path u; (getNameSpaceScope request).2])
           else u in
  let u := URL_with_Path u (GoPath.Join [url_Path u; checkAccessPath]) in
  URL_with_RawQuery u ("api-version=" +:+ checkAccessAPIVersion).

Section Reaches.
Context `{JSON} `{HTTP} `{Store}.

(** The invocation gets as far as the remote call: the request body is
    prepared and encoded and the HTTP request [req] is made and sent. *)
Definition reaches_remote_call (a : AccessInfo) (request : SubjectAccessReviewSpec)
    (req : Request) : Prop :=
  exists body buf req0,
    prepareCheckAccessRequestBody request (clusterType a) (azureResourceId a)
      (retrieveGroupMemberships a) = inr body
    /\ json_Encode body = inr buf
    /\ http_NewRequest MethodPost (checkAccessURL_of a request) buf = inr req0
    /\ req = Request_with_Header req0 (headers a).

(** The cache after a write of [value] under the key of [request]. *)
Definition cache_after_Set (request : SubjectAccessReviewSpec) (value : bool)
    (w : World) : store :=
  (store_Set (getResultCacheKey request) value (w_store w)).2.
End Reaches.

(** The claim that every invocation that reaches the remote call writes a
    cache entry for the key of the request. *)
Definition every_remote_call_is_cached : Prop :=
  forall (J : JSON) (T : HTTP) (S : Store) a request req w,
    reaches_remote_call a request req ->
    exists value, w_store (CheckAccess a request w).2 = cache_after_Set request value w.

(** The text forms of a UUID, "well-formed" in the words of the
    specification, read as widely as the UUID library documents them:
    xxxxxxxx-xxxx-xxxx-xxxx-xxxxxxxxxxxx in hexadecimal digits, that form
    behind "urn:uuid:", that form in braces, and 32 hexadecimal digits. *)
Definition hyphenated_UUID (s : string) : bool :=
  (String.length s =? 36)%nat && UUID.hyphenated_ok s.

Definition urn_UUID (s : string) : bool :=
  (String.length s =? 45)%nat
  && String.eqb (GoStrings.ToLower (substring 0 9 s)) "urn:uuid:"
  && UUID.hyphenated_ok (UUID.from 9 s).

Definition braced_UUID (s : string) : bool :=
  (String.length s =? 38)%nat
  && UUID.hyphenated_ok (UUID.from 1 s)
  && Ascii.eqb (UUID.at_ s 0) "{" && Ascii.eqb (UUID.at_ s 37) "}".

Definition hex_UUID (s : string) : bool :=
  (String.length s =? 32)%nat
  && forallb (fun i => UUID.xtob_ok (UUID.at_ s (i * 2)) (UUID.at_ s (i * 2 + 1)))
       (seq 0 16).

Definition well_formed_UUID (s : string) : bool :=
  hyphenated_UUID s || urn_UUID s || braced_UUID s || hex_UUID s.

(** A text of 38 bytes whose bytes 1 to 36 are the hyphenated form of a
    UUID, whatever its first and its last byte. *)
Definition wrapped_UUID (s : string) : bool :=
  (String.length s =? 38)%nat && UUID.hyphenated_ok (UUID.from 1 s).

(** The claim that a request whose object identifier is not a well-formed
    UUID fails before any remote call: an error is returned, and no call was
    made and nothing written. *)
Definition malformed_oid_is_rejected : Prop :=
  forall (J : JSON) (T : HTTP) (S : Store) a request w oid,
    sar_Extra request !! "oid" = Some oid ->
    well_formed_UUID (oid_text oid) = false ->
    exists e, CheckAccess a request w = (Err e, w).

(** All the bytes. *)
Definition all_bytes : list ascii := map ascii_of_nat (seq 0 256).

(** ** Package google: the options of the Google authenticator *)

Module Google.

(** k8s.io/api/core/v1 and apps/v1, as far as [Apply] reads and writes
    them. *)
Record VolumeMount := {
  vm_Name : string;
  MountPath : string
}.

Record Container := {
  c_Name : string;
  Args : list string;
  VolumeMounts : list VolumeMount
}.

Record SecretVolumeSource := {
  SecretName : string;
  DefaultMode : option Z
}.

Record Volume := {
  v_Name : string;
  v_Secret : option SecretVolumeSource
}.

Record Deployment := {
  d_Namespace : string;
  d_Labels : gmap string string;
  Containers : list Container;
  Volumes : list Volume
}.

Record Secret := {
  s_Name : string;
  s_Namespace : string;
  s_Labels : gmap string string;
  Data : gmap string string
}.

(** [ioutil.ReadFile] on the files of the machine. *)
Class Files := {
  ReadFile : string -> error + string
}.

(** The fields of [Options] that are set from the command line; its
    [jwtConfig] is written by [Configure] only. *)
Record Options := {
  ServiceAccountJsonFile : string;
  AdminEmail : string
}.

Definition NewOptions : Options :=
  {| ServiceAccountJsonFile := ""; AdminEmail := "" |}.

Definition Validate (o : Options) : list error :=
  let errs := [] in
  let errs :=
    if String.eqb (ServiceAccountJsonFile o) ""
    then (errs ++ [errors_New "google.sa-json-file must be non-empty"])%list
    else errs in
  let errs :=
    if String.eqb (AdminEmail o) ""
    then (errs ++ [errors_New "google.admin-email must be non-empty"])%list
    else errs in
  errs.

Definition with_VolumeMounts (c : Container) (ms : list VolumeMount) : Container :=
  {| c_Name := c_Name c; Args := Args c; VolumeMounts := ms |}.

Definition with_Args (c : Container) (args : list string) : Container :=
  {| c_Name := c_Name c; Args := args; VolumeMounts := VolumeMounts c |}.

Definition with_Volumes (d : Deployment) (vs : list Volume) : Deployment :=
  {| d_Namespace := d_Namespace d; d_Labels := d_Labels d;
     Containers := Containers d; Volumes := vs |}.

Definition with_Containers (d : Deployment) (cs : list Container) : Deployment :=
  {| d_Namespace := d_Namespace d; d_Labels := d_Labels d;
     Containers := cs; Volumes := Volumes d |}.

(** [Apply] on the deployment [d]: what it returns, the objects or the
    error or a panic, and the deployment it leaves. *)
Definition Apply `{Files} (o : Options) (d : Deployment)
  : result (list Secret) * Deployment :=
  match Containers d with
  | [] => (Panic, d)
  | container :: others =>
      match ReadFile (ServiceAccountJsonFile o) with
      | inl err => (Err err, d)
      | inr sa =>
          let authSecret :=
            {| s_Name := "guard-google-auth";
               s_Namespace := d_Namespace d;
               s_Labels := d_Labels d;
               Data := {[ "sa.json" := sa ]} |} in
          let extraObjs := [authSecret] in
          let volMount :=
            {| vm_Name := s_Name authSecret;
               MountPath := "/etc/guard/auth/google" |} in
          let container :=
            with_VolumeMounts container (VolumeMounts container ++ [volMount]) in
          let vol :=
            {| v_Name := s_Name authSecret;
               v_Secret := Some {| SecretName := s_Name authSecret;
                                   DefaultMode := Some 365 |} |} in
          let d := with_Volumes d (Volumes d ++ [vol]) in
          let args := Args container in
          let args :=
            if negb (String.eqb (ServiceAccountJsonFile o) "")
            then (args ++ ["--google.sa-json-file=/etc/guard/auth/google/sa.json"])%list
            else args in
          let args :=
            if negb (String.eqb (AdminEmail o) "")
            then (args ++ ["--google.admin-email=" +:+ AdminEmail o])%list
            else args in
          let container := with_Args container args in
          let d := with_Containers d (<[0%nat := container]> (Containers d)) in
          (Ok extraObjs, d)
      end
  end.

End Google.

(** ** Words for further properties *)

(** What [path.Clean] returns for the elements [l] it keeps. *)
Definition render (r : bool) (l : list string) : string :=
  if r then String GoPath.slash (String.concat "/" l)
  else match l with
       | [] => "."
       | _ => String.concat "/" l
       end.

(** An element that the loop of [path.Clean] may keep. *)
Definition kept (e : string) : Prop :=
  e <> "" /\ e <> "." /\ no_slash e = true.

(** What [path.Clean] makes of the path whose elements are [es]. *)
Definition cleaned (r : bool) (es : list string) : string :=
  render r (rev (fold_left (step_elements r) es [])).

(** The list without the empty strings it starts with. *)
Fixpoint drop_empty (es : list string) : list string :=
  match es with
  | [] => []
  | e :: rest => if String.eqb e "" then drop_empty rest else es
  end.

(** A path that [path.Join] leaves as it is when it stands behind other
    arguments: plain elements separated by single slashes, no slash in
    front or at the end. *)
Definition plain_relative (p : string) : bool :=
  forallb plain_element (GoPath.elements p).

(** The fields that a cache key or an action is made of. *)
Definition optional (s : string) : list string :=
  if String.eqb s "" then [] else [s].

(** A request for a path that is not a resource. *)
Definition non_resource_request (user path verb : string)
    (extra : gmap string ExtraValue) : SubjectAccessReviewSpec :=
  {| sar_ResourceAttributes := None;
     sar_NonResourceAttributes := Some {| nra_Path := path; nra_Verb := verb |};
     sar_User := user;
     sar_Groups := [];
     sar_Extra := extra;
     sar_UID := "" |}.

(** The path of the URL of a check-access call, from its parts. *)
Definition checkAccessURL_parts (a : AccessInfo) (request : SubjectAccessReviewSpec)
  : list string :=
  [url_Path (apiURL a); azureResourceId a]
  ++ match sar_ResourceAttributes request with
     | Some ra => if String.eqb (ra_Namespace ra) "" then []
                  else [namespaces; ra_Namespace ra]
     | None => []
     end
  ++ [checkAccessPath].

(** What [http.NewRequest] is called with: the URL of the API with the path
    of the check-access call and the API version as its query. *)
Definition checkAccessURL_flat (a : AccessInfo) (request : SubjectAccessReviewSpec)
  : URL :=
  {| url_Scheme := url_Scheme (apiURL a);
     url_Host := url_Host (apiURL a);
     url_Path := GoPath.Join (checkAccessURL_parts a request);
     url_RawQuery := "api-version=2018-09-01-preview" |}.

Section Calls.
Context `{JSON} `{HTTP} `{Store}.

(** Whether a call that got the response [resp] closes the idle
    connections of the client. *)
Definition closes_idle (a : AccessInfo) (resp : Response) : bool :=
  if negb (StatusCode resp =? StatusOK)
  then StatusCode resp =? StatusTooManyRequests
  else GoStrconv.Atoi (resp_Header_Get resp remaingSubReadARMHeader) <? armCallLimit a.

(** The calls made on the client by an invocation that sent [req], latest
    first. *)
Definition calls_made (a : AccessInfo) (req : Request) : list event :=
  match client_Do req with
  | inl _ => [EvDo req]
  | inr resp =>
      match resp_Body_ReadAll resp with
      | inl _ => [EvDo req]
      | inr _ =>
          EvBodyClose
          :: (if closes_idle a resp then [EvCloseIdleConnections] else [])
          ++ [EvDo req]
      end
  end.

(** A store in which a key that was set without error is found with the
    decision that was set. *)
Definition Get_after_Set : Prop :=
  forall key value st,
    (store_Set key value st).1 = None ->
    (store_Get key (store_Set key value st).2).1 = (true, Some value, None).

End Calls.

(** Rewriting with an equation between lists written with [++]. *)
Ltac rewrite_lists H :=
  let E := fresh "E" in
  pose proof H as E; cbn [app] in E; rewrite E; clear E.

(** ** Instances for the examples

    A decision cache, a JSON codec and a remote side to run the client on
    concrete requests.  The theorems below hold for all instances. *)

(** Modelled from the spec: the Decision Cache of package
    authz/providers/azure/data, which this development does not embed.
    This one is the spec's key-to-decision store without its bounds: no
    entry is too large, none is evicted, none expires. *)
#[local] Instance MapStore : Store := {|
  store := gmap string bool;
  store_Get key m := ((bool_decide (is_Some (m !! key)), m !! key, None), m);
  store_Set key value m := (None, <[key := value]> m)
|}.

Module Fixture.

Definition dq : ascii := ascii_of_nat 34.
Definition backslash : ascii := ascii_of_nat 92.

(** [s] in double quotes. *)
Definition quoted (s : string) : string := String dq (s +:+ String dq "").

Inductive token :=
| TLBracket | TRBracket | TLBrace | TRBrace | TColon | TComma
| TString (s : string)
| TWord (s : string).

Definition punct (c : ascii) : option token :=
  if Ascii.eqb c "[" then Some TLBracket
  else if Ascii.eqb c "]" then Some TRBracket
  else if Ascii.eqb c "{" then Some TLBrace
  else if Ascii.eqb c "}" then Some TRBrace
  else if Ascii.eqb c ":" then Some TColon
  else if Ascii.eqb c "," then Some TComma
  else None.

Definition is_space (c : ascii) : bool :=
  let n := nat_of_ascii c in
  ((n =? 32) || (n =? 9) || (n =? 10) || (n =? 13))%nat.

Inductive lex_state :=
| LOut
| LString (acc : string)
| LWord (acc : string).

Definition snoc (s : string) (c : ascii) : string := s +:+ String c "".

Definition emit (t : token) (r : option (list token)) : option (list token) :=
  match r with Some ts => Some (t :: ts) | None => None end.

(** The tokens of a JSON text whose strings have no escapes. *)
Fixpoint lex (st : lex_state) (s : string) : option (list token) :=
  match s with
  | EmptyString =>
      match st with
      | LOut => Some []
      | LString _ => None
      | LWord acc => Some [TWord acc]
      end
  | String c s' =>
      match st with
      | LString acc =>
          if Ascii.eqb c dq then emit (TString acc) (lex LOut s')
          else if Ascii.eqb c backslash then None
          else lex (LString (snoc acc c)) s'
      | LOut =>
          if Ascii.eqb c dq then lex (LString "") s'
          else if is_space c then lex LOut s'
          else match punct c with
               | Some t => emit t (lex LOut s')
               | None => lex (LWord (String c "")) s'
               end
      | LWord acc =>
          if Ascii.eqb c dq then None
          else if is_space c then emit (TWord acc) (lex LOut s')
          else match punct c with
               | Some t => emit (TWord acc) (emit t (lex LOut s'))
               | None => lex (LWord (snoc acc c)) s'
               end
      end
  end.

Definition member : Type := string * token.

Inductive parse_state :=
| PStart
| PArray (objs : list (list member))
| PObject (objs : list (list member)) (ms : list member)
| PColon (objs : list (list member)) (ms : list member) (key : string)
| PValue (objs : list (list member)) (ms : list member) (key : string)
| PAfterValue (objs : list (list member)) (ms : list member)
| PKey (objs : list (list member)) (ms : list member)
| PAfterObject (objs : list (list member))
| PNextObject (objs : list (list member))
| PEnd (objs : list (list member)).

Definition step (st : parse_state) (t : token) : option parse_state :=
  match st, t with
  | PStart, TLBracket => Some (PArray [])
  | PStart, TWord "null" => Some (PEnd [])
  | PArray objs, TLBrace => Some (PObject objs [])
  | PArray objs, TRBracket => Some (PEnd objs)
  | PObject objs ms, TString k => Some (PColon objs ms k)
  | PObject objs ms, TRBrace => Some (PAfterObject (objs ++ [ms])%list)
  | PColon objs ms k, TColon => Some (PValue objs ms k)
  | PValue objs ms k, TString v => Some (PAfterValue objs (ms ++ [(k, t)])%list)
  | PValue objs ms k, TWord v => Some (PAfterValue objs (ms ++ [(k, t)])%list)
  | PAfterValue objs ms, TComma => Some (PKey objs ms)
  | PAfterValue objs ms, TRBrace => Some (PAfterObject (objs ++ [ms])%list)
  | PKey objs ms, TString k => Some (PColon objs ms k)
  | PAfterObject objs, TComma => Some (PNextObject objs)
  | PAfterObject objs, TRBracket => Some (PEnd objs)
  | PNextObject objs, TLBrace => Some (PObject objs [])
  | _, _ => None
  end.

(** An array of flat objects, or [null]. *)
Fixpoint parse (st : parse_state) (ts : list token) : option (list (list member)) :=
  match ts with
  | [] => match st with PEnd objs => Some objs | _ => None end
  | t :: ts' =>
      match step st t with
      | Some st' => parse st' ts'
      | None => None
      end
  end.

Definition set_member (d : AuthorizationDecision) (m : member)
  : option AuthorizationDecision :=
  let '(k, v) := m in
  let is_null := match v with TWord "null" => true | _ => false end in
  if is_null then Some d
  else if GoStrings.equal_fold k "accessDecision" then
    match v with
    | TString x => Some {| Decision := x; ActionId := ActionId d;
                           ad_IsDataAction := ad_IsDataAction d;
                           TimeToLiveInMs := TimeToLiveInMs d |}
    | _ => None
    end
  else if GoStrings.equal_fold k "actionId" then
    match v with
    | TString x => Some {| Decision := Decision d; ActionId := x;
                           ad_IsDataAction := ad_IsDataAction d;
                           TimeToLiveInMs := TimeToLiveInMs d |}
    | _ => None
    end
  else if GoStrings.equal_fold k "isDataAction" then
    match v with
    | TWord "true" => Some {| Decision := Decision d; ActionId := ActionId d;
                              ad_IsDataAction := true;
                              TimeToLiveInMs := TimeToLiveInMs d |}
    | TWord "false" => Some {| Decision := Decision d; ActionId := ActionId d;
                               ad_IsDataAction := false;
                               TimeToLiveInMs := TimeToLiveInMs d |}
    | _ => None
    end
  else if GoStrings.equal_fold k "timeToLiveInMs" then
    match v with
    | TWord x =>
        match GoStrconv.unsigned x with
        | Some n =>
            if n <=? GoStrconv.maxInt
            then Some {| Decision := Decision d; ActionId := ActionId d;
                         ad_IsDataAction := ad_IsDataAction d;
                         TimeToLiveInMs := n |}
            else None
        | None => None
        end
    | _ => None
    end
  else if GoStrings.equal_fold k "roleAssignment"
          || GoStrings.equal_fold k "denyAssignment" then None
  else Some d.

Definition zero_decision : AuthorizationDecision :=
  {| Decision := ""; ActionId := ""; ad_IsDataAction := false; TimeToLiveInMs := 0 |}.

Fixpoint decode_object (d : AuthorizationDecision) (ms : list member)
  : option AuthorizationDecision :=
  match ms with
  | [] => Some d
  | m :: ms' =>
      match set_member d m with
      | Some d' => decode_object d' ms'
      | None => None
      end
  end.

Fixpoint decode_all (objs : list (list member)) : option (list AuthorizationDecision) :=
  match objs with
  | [] => Some []
  | o :: objs' =>
      match decode_object zero_decision o, decode_all objs' with
      | Some d, Some ds => Some (d :: ds)
      | _, _ => None
      end
  end.

(** A decoder for the response bodies of the examples: a JSON array of
    flat objects whose members are strings without escapes, [true],
    [false], [null] or unsigned integers within the range of an int, or
    the text [null].  Member
    names match the fields without regard to case, as in encoding/json.
    Every other text is answered by an error, whatever encoding/json makes
    of it. *)
Definition unmarshal (body : string) : error + list AuthorizationDecision :=
  match lex LOut body with
  | Some ts =>
      match parse PStart ts with
      | Some objs =>
          match decode_all objs with
          | Some ds => inr ds
          | None => inl (LibError "json: cannot unmarshal")
          end
      | None => inl (LibError "json: text outside the decoder of the examples")
      end
  | None => inl (LibError "json: text outside the decoder of the examples")
  end.

(** An encoder for the examples: the object identifier, the action and the
    scope of the request, one per line. *)
Definition encode (r : CheckAccessRequest) : error + string :=
  let nl := String (ascii_of_nat 10) "" in
  inr (ObjectId (Attributes (Subject r)) +:+ nl
       +:+ GoStrings.Join (map (fun x => Id (aai_AuthorizationEntity x)) (Actions r)) ","
       +:+ nl +:+ Id (Resource r) +:+ nl).

#[local] Instance json : JSON := {|
  json_Encode := encode;
  json_Unmarshal := unmarshal
|}.

(** The URL that [http.NewRequest] reads back from [URL.String()], for
    URLs of the examples: a scheme, a host, and a path and a query without
    bytes that are escaped.  A path without root behind a host gets a slash
    in front. *)
Definition reparsed (u : URL) : URL :=
  if negb (String.eqb (url_Host u) "") && negb (String.eqb (url_Path u) "")
     && negb (GoPath.rooted (url_Path u))
  then URL_with_Path u (String GoPath.slash (url_Path u))
  else u.

(** A remote side that answers every request in the same way. *)
Definition remote (answer : error + Response) : HTTP := {|
  http_NewRequest method url body :=
    inr {| req_Method := method; req_URL := reparsed url; req_Body := body;
           req_Header := ∅ |};
  client_Do req := answer
|}.

Definition reply (code : Z) (remaining body : string) : error + Response :=
  inr {| StatusCode := code;
         resp_Header_Get key :=
           if String.eqb key remaingSubReadARMHeader then remaining else "";
         resp_Body_ReadAll := inr body |}.

(** A token provider with a fixed answer. *)
Definition provider (answer : error + AuthResponse) : TokenProvider := {|
  provider_Name := "ClientCredentialTokenProvider";
  provider_Acquire scope := answer
|}.

(** The lowering of the runes of Basic Latin and of the Latin-1 Supplement
    in UTF-8: the letters A to Z, and the two-byte runes U+00C0 to U+00DE
    without the multiplication sign U+00D7.  Other bytes are kept. *)
Fixpoint lower_latin1 (s : string) : string :=
  match s with
  | EmptyString => EmptyString
  | String c rest =>
      match rest with
      | String d s' =>
          let n := nat_of_ascii d in
          if ((nat_of_ascii c =? 195) && (128 <=? n) && (n <=? 158)
              && negb (n =? 151))%nat
          then String c (String (ascii_of_nat (n + 32)) (lower_latin1 s'))
          else String (GoStrings.lower_byte c) (lower_latin1 rest)
      | EmptyString => String (GoStrings.lower_byte c) EmptyString
      end
  end.

(** The tables of package unicode, as far as the examples go. *)
Definition unicode : GoStrings.Unicode := {|
  GoStrings.Map_ToLower := lower_latin1
|}.

End Fixture.

(** A body with one decision of the given disposition. *)
Definition decision_body (disposition : string) : string :=
  "[{" +:+ Fixture.quoted "accessDecision" +:+ ":"
  +:+ Fixture.quoted disposition +:+ "}]".

(** A provider whose token expires in 8459 seconds, and one that fails. *)
Definition token_8459 : TokenProvider :=
  Fixture.provider (inr {| TokenType := "Bearer"; Expires := 8459; Token := "t0k3n" |}).

Definition token_unavailable : TokenProvider :=
  Fixture.provider (inl (LibError "request failed with status code: 401")).

(** The client of the tests: an "arc" cluster with a call limit of 2000. *)
Definition arc_client : AccessInfo :=
  @newAccessInfo Fixture.unicode
                {| url_Scheme := "http"; url_Host := "127.0.0.1";
                   url_Path := "/arm/"; url_RawQuery := "" |}
    "arc" "resourceId" 2000 ["alpha, tango, charlie"] true true.

(** The world before any call: an empty cache and no call made. *)
Definition empty_world : @World MapStore :=
  @Build_World MapStore (∅ : gmap string bool) [].

(** The request of the tests. *)
Definition beta_request : SubjectAccessReviewSpec :=
  resource_request "beta@bing.com" "dev" "" "pods" "delete" "test"
    {[ "oid" := ["00000000-0000-0000-0000-000000000000"] ]}.

(** The request of the tests with a byte put before and behind its object
    identifier. *)
Definition wrapped_oid_request : SubjectAccessReviewSpec :=
  resource_request "beta@bing.com" "dev" "" "pods" "delete" "test"
    {[ "oid" := ["x00000000-0000-0000-0000-000000000000y"] ]}.

(** The request that [CheckAccess] sends for [beta_request]. *)
Definition beta_http_request : Request :=
  {| req_Method := "POST";
     req_URL :=
       {| url_Scheme := "http"; url_Host := "127.0.0.1";
          url_Path := "/arm/resourceId/namespaces/dev/providers/Microsoft.Authorization/checkaccess";
          url_RawQuery := "api-version=2018-09-01-preview" |};
     req_Body :=
       match Fixture.encode
               {| Subject := {| Attributes :=
                    {| ObjectId := "00000000-0000-0000-0000-000000000000";
                       sia_Groups := []; RetrieveGroupMemberships := true |} |};
                  Actions := [ {| aai_AuthorizationEntity :=
                                    {| Id := "Microsoft.Kubernetes/connectedClusters/pods/delete" |};
                                  IsDataAction := true |} ];
                  Resource := {| Id := "resourceId/namespaces/dev" |} |}
       with inr b => b | inl _ => "" end;
     req_Header := headers arc_client |}.

(** * Properties *)

(** ** The models of the libraries on the libraries' own test tables *)

(** The table of path_test.go for [Clean]. *)
Example Clean_table :
  map GoPath.Clean
    [""; "abc"; "abc/def"; "a/b/c"; "."; ".."; "../.."; "../../abc"; "/abc"; "/";
     "abc/"; "abc/def/"; "a/b/c/"; "./"; "../"; "../../"; "/abc/";
     "abc//def//ghi"; "//abc"; "///abc"; "//abc//"; "abc//";
     "abc/./def"; "/./abc/def"; "abc/.";
     "abc/def/ghi/../jkl"; "abc/def/../ghi/../jkl"; "abc/def/.."; "abc/def/../..";
     "/abc/def/../.."; "abc/def/../../.."; "/abc/def/../../..";
     "abc/def/../../../ghi/jkl/../../../mno";
     "abc/./../def"; "abc//./../def"; "abc/../../././../def"]
  = ["."; "abc"; "abc/def"; "a/b/c"; "."; ".."; "../.."; "../../abc"; "/abc"; "/";
     "abc"; "abc/def"; "a/b/c"; "."; ".."; "../.."; "/abc";
     "abc/def/ghi"; "/abc"; "/abc"; "/abc"; "abc";
     "abc/def"; "/abc/def"; "abc";
     "abc/def/jkl"; "abc/jkl"; "abc"; "."; "/"; ".."; "/"; "../../mno";
     "def"; "def"; "../../def"].
Proof. reflexivity. Qed.

(** The table of path_test.go for [Join]. *)
Example Join_table :
  map GoPath.Join
    [[]; [""]; ["a"]; ["a"; "b"]; ["a"; ""]; [""; "b"]; ["/"; "a"]; ["/"; ""];
     ["a/"; "b"]; ["a/"; ""]; [""; ""]]
  = [""; ""; "a"; "a/b"; "a"; "b"; "/a"; "/"; "a/b"; "a"; ""].
Proof. reflexivity. Qed.

(** The four forms that [uuid.Parse] reads, and strings it refuses.  In
    the form of 38 bytes the first and the last byte are not looked at. *)
Example Parse_ok_forms :
  map UUID.Parse_ok
    ["62103f2e-051d-48cc-af47-b1ff3deec630";
     "urn:uuid:62103f2e-051d-48cc-af47-b1ff3deec630";
     "URN:UUID:62103F2E-051D-48CC-AF47-B1FF3DEEC630";
     "{62103f2e-051d-48cc-af47-b1ff3deec630}";
     "(62103f2e-051d-48cc-af47-b1ff3deec630)";
     "62103f2e051d48ccaf47b1ff3deec630";
     ""; "test"; "system:masters";
     "62103f2e-051d-48cc-af47-b1ff3deec63";
     "62103f2e-051d-48cc-af47-b1ff3deec63g";
     "62103f2e_051d_48cc_af47_b1ff3deec630";
     "urn:uuim:62103f2e-051d-48cc-af47-b1ff3deec630"]
  = [true; true; true; true; true; true;
     false; false; false; false; false; false; false].
Proof. reflexivity. Qed.

Example Atoi_values :
  map GoStrconv.Atoi
    ["11999"; "0"; "-5"; "+7"; ""; "-"; "12a"; "1_000";
     "9223372036854775807"; "9223372036854775808"; "-9223372036854775809"]
  = [11999; 0; -5; 7; 0; 0; 0; 0;
     9223372036854775807; 9223372036854775807; -9223372036854775808].
Proof. reflexivity. Qed.

(** ** The tests of the program, replayed *)

Example Test_getScope :
  getScope "resourceId" None = "resourceId"
  /\ getScope "" None = ""
  /\ getScope "" (Some (namespace_only "")) = ""
  /\ getScope "resourceId" (Some (namespace_only "")) = "resourceId"
  /\ getScope "resourceId" (Some (namespace_only "test")) = "resourceId/namespaces/test".
Proof. repeat split. Qed.

Example Test_getValidSecurityGroups :
  getValidSecurityGroups [] = []
  /\ getValidSecurityGroups ["abc"; "def"; "system:ghi"] = []
  /\ getValidSecurityGroups
       ["abc"; "1cffe3ae-93c0-4a87-9484-2e90e682aae9"; "sys:admin"; "";
        "0ab7f20f-8e9a-43ba-b5ac-1811c91b3d40"]
     = ["1cffe3ae-93c0-4a87-9484-2e90e682aae9";
        "0ab7f20f-8e9a-43ba-b5ac-1811c91b3d40"].
Proof. repeat split. Qed.

Example Test_getDataAction :
  Id (aai_AuthorizationEntity
        (getDataAction (resource_request "" "" "" "pods" "delete" "test" ∅) "arc"))
  = "arc/pods/delete"
  /\ Id (aai_AuthorizationEntity
           (getDataAction
              (resource_request "" "" "policy" "podsecuritypolicies" "use" "test" ∅) "arc"))
     = "arc/policy/podsecuritypolicies/use/action"
  /\ Id (aai_AuthorizationEntity
           (getDataAction
              {| sar_ResourceAttributes := None;
                 sar_NonResourceAttributes := Some {| nra_Path := "/apis"; nra_Verb := "list" |};
                 sar_User := ""; sar_Groups := []; sar_Extra := ∅; sar_UID := "" |} "aks"))
     = "aks/apis/read".
Proof. repeat split. Qed.

Example Test_getNameSpaceScope :
  getNameSpaceScope (resource_request "" "" "" "" "" "" ∅) = (false, "")
  /\ getNameSpaceScope (resource_request "" "dev" "" "" "" "" ∅) = (true, "namespaces/dev").
Proof. repeat split. Qed.

Example Test_getResultCacheKey :
  getResultCacheKey
    {| sar_ResourceAttributes := None;
       sar_NonResourceAttributes := Some {| nra_Path := "/apis/v1"; nra_Verb := "list" |};
       sar_User := "charlie@yahoo.com"; sar_Groups := []; sar_Extra := ∅; sar_UID := "" |}
  = "charlie@yahoo.com/apis/v1/read"
  /\ getResultCacheKey
       (resource_request "beta@msn.com" "azure-arc" "authentication.k8s.io"
          "userextras" "impersonate" "test" ∅)
     = "beta@msn.com/azure-arc/authentication.k8s.io/userextras/impersonate/action"
  /\ getResultCacheKey (resource_request "beta@msn.com" "" "" "nodes" "list" "" ∅)
     = "beta@msn.com/nodes/read".
Proof. repeat split. Qed.

(** TestCheck: the remote side allows the request; the client returns
    allowed and not denied, and the decision is in the cache. *)
Example TestCheck :
  let body :=
    "[{" +:+ Fixture.quoted "accessDecision" +:+ ":" +:+ Fixture.quoted "Allowed" +:+ ",
      " +:+ Fixture.quoted "actionId" +:+ ":"
    +:+ Fixture.quoted "Microsoft.Kubernetes/connectedClusters/pods/delete" +:+ ",
      " +:+ Fixture.quoted "isDataAction" +:+ ":true,"
    +:+ Fixture.quoted "roleAssignment" +:+ ":null,"
    +:+ Fixture.quoted "denyAssignment" +:+ ":null,"
    +:+ Fixture.quoted "timeToLiveInMs" +:+ ":300000}]" in
  let out := @CheckAccess Fixture.json (Fixture.remote (Fixture.reply 200 "11999" body))
               MapStore arc_client beta_request empty_world in
  out.1 = Ok {| Allowed := true; Denied := false;
                Reason := AccessAllowedVerdict; EvaluationError := "" |}
  /\ w_store out.2 !! "beta@bing.com/dev/pods/delete" = Some true
  /\ w_events out.2 = [EvBodyClose; EvDo beta_http_request].
Proof. vm_compute. repeat split. Qed.

(** A body that does not decode: the error is returned and a deny is
    cached. *)
Example CheckAccess_undecodable_body :
  let out := @CheckAccess Fixture.json (Fixture.remote (Fixture.reply 200 "11999" "{}"))
               MapStore arc_client beta_request empty_world in
  (exists err, out.1 = Err (errors_Wrap err "Error in unmarshalling check access response."))
  /\ w_store out.2 !! "beta@bing.com/dev/pods/delete" = Some false.
Proof. vm_compute. split; [eexists|]; reflexivity. Qed.

(** A body that decodes to no decision at all: the call panics once the
    response is read, and nothing is cached. *)
Example CheckAccess_empty_decision_list :
  let out := @CheckAccess Fixture.json (Fixture.remote (Fixture.reply 200 "11999" "[]"))
               MapStore arc_client beta_request empty_world in
  out.1 = Panic
  /\ w_store out.2 !! "beta@bing.com/dev/pods/delete" = None
  /\ w_events out.2 = [EvBodyClose; EvDo beta_http_request].
Proof. vm_compute. repeat split. Qed.

(** Too many requests: the idle connections are closed, the error is
    returned, nothing is cached. *)
Example CheckAccess_too_many_requests :
  let out := @CheckAccess Fixture.json (Fixture.remote (Fixture.reply 429 "" "slow down"))
               MapStore arc_client beta_request empty_world in
  out.1 = Err (StatusError
                 "/arm/resourceId/namespaces/dev/providers/Microsoft.Authorization/checkaccess"
                 429 "slow down")
  /\ w_store out.2 = ∅
  /\ w_events out.2 = [EvBodyClose; EvCloseIdleConnections; EvDo beta_http_request].
Proof. vm_compute. repeat split. Qed.

(** ** Strings and paths *)

Lemma in_all_bytes (c : ascii) : In c all_bytes.
Proof.
  unfold all_bytes. rewrite <- (ascii_nat_embedding c).
  apply in_map, in_seq. pose proof (nat_ascii_bounded c). lia.
Qed.

Lemma same_letter_lower (c d : ascii) :
  GoStrings.same_letter c d
  = Ascii.eqb (GoStrings.lower_byte c) (GoStrings.lower_byte d).
Proof.
  assert (Hall : forallb (fun c => forallb (fun d =>
            Bool.eqb (GoStrings.same_letter c d)
              (Ascii.eqb (GoStrings.lower_byte c) (GoStrings.lower_byte d)))
            all_bytes) all_bytes = true) by (vm_compute; reflexivity).
  rewrite forallb_forall in Hall. specialize (Hall c (in_all_bytes c)).
  rewrite forallb_forall in Hall. specialize (Hall d (in_all_bytes d)).
  apply Bool.eqb_prop in Hall. exact Hall.
Qed.

Lemma equal_fold_ToLower (s t : string) :
  GoStrings.equal_fold s t
  = String.eqb (GoStrings.ToLower s) (GoStrings.ToLower t).
Proof.
  revert t. induction s as [|c s IH]; intros [|d t]; simpl; try reflexivity.
  rewrite same_letter_lower, IH. reflexivity.
Qed.

Lemma elements_nonempty (s : string) : GoPath.elements s <> [].
Proof.
  induction s as [|c s IH]; simpl; [discriminate|].
  destruct (Ascii.eqb c GoPath.slash); [discriminate|].
  destruct (GoPath.elements s); discriminate.
Qed.

Lemma concat_elements (s : string) :
  String.concat "/" (GoPath.elements s) = s.
Proof.
  induction s as [|c s IH]; simpl; [reflexivity|].
  destruct (Ascii.eqb_spec c GoPath.slash) as [->|Hc].
  - pose proof (elements_nonempty s) as Hne.
    destruct (GoPath.elements s) as [|e es]; [congruence|].
    rewrite <- IH. reflexivity.
  - destruct (GoPath.elements s) as [|e es] eqn:E.
    + exfalso. eapply elements_nonempty; eassumption.
    + rewrite <- IH. destruct es; reflexivity.
Qed.

Lemma elements_app_slash (a b : string) :
  GoPath.elements (a +:+ String GoPath.slash b)
  = (GoPath.elements a ++ GoPath.elements b)%list.
Proof.
  induction a as [|c a IH]; simpl.
  - reflexivity.
  - rewrite IH. destruct (Ascii.eqb c GoPath.slash); [reflexivity|].
    pose proof (elements_nonempty a) as Hne.
    destruct (GoPath.elements a); [congruence|reflexivity].
Qed.

Lemma elements_no_slash (e : string) :
  no_slash e = true -> GoPath.elements e = [e].
Proof.
  induction e as [|c e IH]; simpl; [reflexivity|].
  intros [Hc He]%andb_prop.
  destruct (Ascii.eqb c GoPath.slash); [discriminate|].
  rewrite (IH He). reflexivity.
Qed.

Lemma clean_loop_plain (is_rooted : bool) (es out : list string) :
  forallb plain_element es = true ->
  GoPath.clean_loop is_rooted out es = (rev out ++ es)%list.
Proof.
  revert out. induction es as [|e es IH]; intros out Hes; simpl in *.
  - rewrite app_nil_r. reflexivity.
  - apply andb_prop in Hes as [He Hes]. unfold plain_element in He.
    repeat (apply andb_prop in He as [He ?]).
    destruct (String.eqb e ""); [discriminate|].
    destruct (String.eqb e "."); [discriminate|].
    destruct (String.eqb e ".."); [discriminate|]. simpl.
    rewrite (IH _ Hes). simpl. rewrite <- app_assoc. reflexivity.
Qed.

Lemma elements_rooted (p : string) :
  GoPath.rooted p = true ->
  exists e es, GoPath.elements p = EmptyString :: e :: es.
Proof.
  destruct p as [|c p]; simpl; [discriminate|]. intros ->.
  pose proof (elements_nonempty p).
  destruct (GoPath.elements p) as [|e es]; [congruence|eauto].
Qed.

Lemma elements_unrooted (p : string) :
  GoPath.rooted p = false ->
  GoPath.elements p = [EmptyString]
  \/ exists c e es, GoPath.elements p = String c e :: es.
Proof.
  destruct p as [|c p]; simpl; [left; reflexivity|]. intros ->. right.
  destruct (GoPath.elements p) as [|e es]; eauto.
Qed.

(** [path.Clean] keeps a path whose elements are plain. *)
Lemma Clean_plain_elements (p : string) (es : list string) :
  es <> [] -> forallb plain_element es = true ->
  (GoPath.elements p = es \/ GoPath.elements p = EmptyString :: es) ->
  GoPath.Clean p = p.
Proof.
  intros Hne Hes Hp. unfold GoPath.Clean.
  assert (Hhd : forall e es', es = e :: es' -> e <> "").
  { intros e es' ->. simpl in Hes. apply andb_prop in Hes as [He _].
    unfold plain_element in He.
    destruct (String.eqb_spec e ""); [discriminate|assumption]. }
  pose proof (concat_elements p) as Hcat.
  destruct (GoPath.rooted p) eqn:R.
  - destruct (elements_rooted p R) as (e & es' & E). rewrite E in *.
    destruct Hp as [<-|Hp]; [exfalso; eapply Hhd; reflexivity|].
    inversion Hp; subst es.
    change (GoPath.clean_loop true [] ("" :: e :: es'))
      with (GoPath.clean_loop true [] (e :: es')).
    rewrite (clean_loop_plain true (e :: es') []) by assumption.
    rewrite <- Hcat. reflexivity.
  - destruct (elements_unrooted p R) as [E|(c & e & es' & E)]; rewrite E in *.
    + destruct Hp as [<-|Hp]; [exfalso; eapply Hhd; reflexivity|].
      inversion Hp; subst es. congruence.
    + destruct Hp as [<-|Hp]; [|discriminate Hp].
      rewrite clean_loop_plain by assumption. exact Hcat.
Qed.

(** On a plain path and a plain namespace, [path.Join] is concatenation. *)
Lemma Join_plain (r ns : string) :
  plain_path r = true -> plain_element ns = true ->
  GoPath.Join [r; namespaces; ns] = r +:+ "/namespaces/" +:+ ns.
Proof.
  intros Hr Hns.
  assert (Hns' : no_slash ns = true).
  { unfold plain_element in Hns. apply andb_prop in Hns as [_ ?]. assumption. }
  assert (Hne : r <> "") by (intros ->; discriminate Hr).
  assert (Hp : r +:+ "/namespaces/" +:+ ns
               = GoStrings.Join [r; namespaces; ns] "/") by reflexivity.
  change (GoPath.Join [r; namespaces; ns])
    with (if String.eqb r "" then GoPath.Join [namespaces; ns]
          else GoPath.Clean (GoStrings.Join [r; namespaces; ns] "/")).
  destruct (String.eqb_spec r ""); [congruence|].
  rewrite <- Hp.
  assert (Hel : GoPath.elements (r +:+ "/namespaces/" +:+ ns)
                = (GoPath.elements r ++ [namespaces; ns])%list).
  { change (r +:+ "/namespaces/" +:+ ns)
      with (r +:+ String GoPath.slash ("namespaces" +:+ String GoPath.slash ns)).
    rewrite !elements_app_slash, (elements_no_slash ns Hns'). reflexivity. }
  unfold plain_path in Hr.
  assert (Htail : forallb plain_element [namespaces; ns] = true)
    by (simpl; rewrite Hns; reflexivity).
  destruct (GoPath.elements r) as [|e es] eqn:Er.
  { exfalso. eapply elements_nonempty; eassumption. }
  assert (Hcases : (e = "" /\ es <> [] /\ forallb plain_element es = true)
                   \/ forallb plain_element (e :: es) = true).
  { destruct e as [|c e]; [|right; exact Hr].
    destruct es; [discriminate Hr|left; repeat split; [discriminate|exact Hr]]. }
  destruct Hcases as [(-> & Hes & Hpl)|Hpl].
  - apply (Clean_plain_elements _ (es ++ [namespaces; ns])%list).
    + destruct es; discriminate.
    + rewrite forallb_app, Hpl, Htail. reflexivity.
    + right. rewrite Hel. reflexivity.
  - apply (Clean_plain_elements _ ((e :: es) ++ [namespaces; ns])%list).
    + discriminate.
    + rewrite forallb_app, Hpl, Htail. reflexivity.
    + left. exact Hel.
Qed.
(** ** [path.Clean] over bytes and over elements *)

Lemma clean_loop_fold (r : bool) (es out : list string) :
  GoPath.clean_loop r out es = rev (fold_left (step_elements r) es out).
Proof.
  revert out. induction es as [|e es IH]; intros out; simpl; [reflexivity|].
  unfold step_elements at 2.
  destruct (String.eqb e "" || String.eqb e "."); [apply IH|].
  destruct (String.eqb e "..").
  - destruct out as [|top out'].
    + destruct r; apply IH.
    + destruct (String.eqb top ".."); apply IH.
  - apply IH.
Qed.

Lemma bytes_loop_end (r : bool) (buf : list ascii) (dd : nat) (c : bool) :
  GoPath.bytes_loop r c buf dd "" = buf.
Proof. destruct c; reflexivity. Qed.

Lemma bytes_loop_skip_slash (r : bool) (buf : list ascii) (dd : nat) (s : string) :
  GoPath.bytes_loop r false buf dd (String GoPath.slash s) = GoPath.bytes_loop r false buf dd s.
Proof. reflexivity. Qed.

(** In copying mode the bytes up to the next slash go to the buffer. *)
Lemma bytes_loop_copy (r : bool) (e t : string) (buf : list ascii) (dd : nat) :
  no_slash e = true -> GoPath.at_end_or_slash t = true ->
  GoPath.bytes_loop r true buf dd (e +:+ t)
  = GoPath.bytes_loop r false (rev (bytes_of e) ++ buf)%list dd t.
Proof.
  revert buf. induction e as [|c e IH]; intros buf He Ht.
  - simpl. destruct t as [|c t]; [reflexivity|].
    simpl in Ht. simpl. rewrite Ht. reflexivity.
  - simpl in He. apply andb_prop in He as [Hc He].
    apply negb_true_iff in Hc.
    change (String c e +:+ t) with (String c (e +:+ t)).
    simpl GoPath.bytes_loop. rewrite Hc. rewrite (IH _ He Ht).
    simpl. rewrite <- app_assoc. reflexivity.
Qed.

Lemma at_end_or_slash_app (e t : string) :
  no_slash e = true -> GoPath.at_end_or_slash t = true ->
  GoPath.at_end_or_slash (e +:+ t) = match e with EmptyString => true | _ => false end.
Proof.
  intros He Ht. destruct e as [|c e]; simpl; [exact Ht|].
  simpl in He. apply andb_prop in He as [Hc _]. apply negb_true_iff in Hc. exact Hc.
Qed.

Lemma step_bytes_plain (r : bool) (buf : list ascii) (dd : nat) (e : string) :
  e <> "" -> e <> "." -> e <> ".." ->
  step_bytes r (buf, dd) e
  = ((rev (bytes_of e)
      ++ (if (r && negb (length buf =? 1)%nat) || (negb r && negb (length buf =? 0)%nat)
          then GoPath.slash :: buf else buf))%list, dd).
Proof.
  intros H0 H1 H2. unfold step_bytes.
  destruct (String.eqb_spec e ""); [contradiction|].
  destruct (String.eqb_spec e "."); [contradiction|].
  destruct (String.eqb_spec e ".."); [contradiction|]. reflexivity.
Qed.

(** At the start of an element the byte loop does [step_bytes]. *)
Lemma bytes_loop_element (r : bool) (e t : string) (buf : list ascii) (dd : nat) :
  no_slash e = true -> GoPath.at_end_or_slash t = true ->
  GoPath.bytes_loop r false buf dd (e +:+ t)
  = GoPath.bytes_loop r false (step_bytes r (buf, dd) e).1 (step_bytes r (buf, dd) e).2 t.
Proof.
  intros He Ht.
  destruct (String.eqb_spec e "") as [->|H0]; [reflexivity|].
  destruct (String.eqb_spec e ".") as [->|H1].
  { destruct t as [|c t]; simpl in Ht |- *; [reflexivity|].
    rewrite Ht. reflexivity. }
  destruct (String.eqb_spec e "..") as [->|H2].
  { simpl. destruct t as [|c t]; simpl in Ht |- *.
    - destruct (dd <? length buf)%nat; [reflexivity|]. destruct r; reflexivity.
    - rewrite Ht. destruct (dd <? length buf)%nat; [reflexivity|].
      destruct r; reflexivity. }
  rewrite (step_bytes_plain r buf dd e H0 H1 H2). cbn [fst snd].
  destruct e as [|c e]; [congruence|].
  pose proof He as He'. simpl in He'. apply andb_prop in He' as [Hc He'].
  apply negb_true_iff in Hc.
  assert (Helement :
    GoPath.bytes_loop r true
      (c :: (if (r && negb (length buf =? 1)%nat) || (negb r && negb (length buf =? 0)%nat)
             then GoPath.slash :: buf else buf)) dd (e +:+ t)
    = GoPath.bytes_loop r false
        (rev (bytes_of (String c e))
         ++ (if (r && negb (length buf =? 1)%nat) || (negb r && negb (length buf =? 0)%nat)
             then GoPath.slash :: buf else buf))%list dd t).
  { rewrite (bytes_loop_copy r e t _ dd He' Ht).
    simpl. rewrite <- app_assoc. reflexivity. }
  change (String c e +:+ t) with (String c (e +:+ t)).
  simpl GoPath.bytes_loop. rewrite Hc.
  rewrite (at_end_or_slash_app e t He' Ht).
  destruct (Ascii.eqb_spec c GoPath.dot) as [->|Hdot]; cbn [andb]; [|exact Helement].
  destruct e as [|c2 e]; [exfalso; apply H1; reflexivity|].
  pose proof He' as He2. simpl in He2. apply andb_prop in He2 as [Hc2 He2].
  change (String c2 e +:+ t) with (String c2 (e +:+ t)). cbv iota.
  rewrite (at_end_or_slash_app e t He2 Ht).
  destruct (Ascii.eqb_spec c2 GoPath.dot) as [->|Hdot2]; cbn [andb]; [|exact Helement].
  destruct e as [|c3 e]; [exfalso; apply H2; reflexivity|]. exact Helement.
Qed.

Lemma append_cons (c : ascii) (a b : string) :
  String c a +:+ b = String c (a +:+ b).
Proof. reflexivity. Qed.

Lemma append_empty_r (s : string) : s +:+ "" = s.
Proof.
  induction s as [|c s IH]; [reflexivity|]. rewrite append_cons, IH. reflexivity.
Qed.

(** Over the elements of a path the byte loop is a fold of [step_bytes]. *)
Lemma bytes_loop_fold (r : bool) (es : list string) :
  es <> [] -> forallb no_slash es = true ->
  forall buf dd,
    GoPath.bytes_loop r false buf dd (String.concat "/" es)
    = (fold_left (step_bytes r) es (buf, dd)).1.
Proof.
  induction es as [|e es IH]; [congruence|]. intros _ Hes buf dd.
  simpl in Hes. apply andb_prop in Hes as [He Hes].
  destruct es as [|e2 es].
  - cbn [String.concat fold_left]. rewrite <- (append_empty_r e) at 1.
    rewrite (bytes_loop_element r e "" buf dd He eq_refl).
    apply bytes_loop_end.
  - change (String.concat "/" (e :: e2 :: es))
      with (e +:+ String GoPath.slash (String.concat "/" (e2 :: es))).
    rewrite (bytes_loop_element r e (String GoPath.slash (String.concat "/" (e2 :: es)))
               buf dd He eq_refl).
    rewrite bytes_loop_skip_slash. rewrite IH by (assumption || discriminate).
    cbn [fold_left]. destruct (step_bytes r (buf, dd) e). reflexivity.
Qed.

Lemma elements_no_slashes (s : string) : forallb no_slash (GoPath.elements s) = true.
Proof.
  induction s as [|c s IH]; simpl; [reflexivity|].
  destruct (Ascii.eqb c GoPath.slash) eqn:Ec; [exact IH|].
  destruct (GoPath.elements s) as [|e es]; simpl in *; rewrite Ec; [reflexivity|exact IH].
Qed.

Lemma bytes_loop_elements (r : bool) (s : string) (buf : list ascii) (dd : nat) :
  GoPath.bytes_loop r false buf dd s
  = (fold_left (step_bytes r) (GoPath.elements s) (buf, dd)).1.
Proof.
  rewrite <- (concat_elements s) at 1.
  apply bytes_loop_fold; [apply elements_nonempty|apply elements_no_slashes].
Qed.

Lemma bytes_of_app (a b : string) :
  bytes_of (a +:+ b) = (bytes_of a ++ bytes_of b)%list.
Proof.
  induction a as [|c a IH]; [reflexivity|]. rewrite append_cons. simpl.
  rewrite IH. reflexivity.
Qed.

Lemma append_assoc (a b c : string) : (a +:+ b) +:+ c = a +:+ (b +:+ c).
Proof.
  induction a as [|x a IH]; [reflexivity|]. rewrite !append_cons, IH. reflexivity.
Qed.

Lemma concat_snoc (xs : list string) (e : string) :
  String.concat "/" (xs ++ [e])
  = match xs with
    | [] => e
    | _ => String.concat "/" xs +:+ "/" +:+ e
    end.
Proof.
  induction xs as [|x xs IH]; [reflexivity|].
  destruct xs as [|x2 xs]; [reflexivity|].
  change (String.concat "/" ((x :: x2 :: xs) ++ [e]))
    with (x +:+ "/" +:+ String.concat "/" ((x2 :: xs) ++ [e])).
  rewrite IH.
  change (String.concat "/" (x :: x2 :: xs))
    with (x +:+ "/" +:+ String.concat "/" (x2 :: xs)).
  rewrite !append_assoc. reflexivity.
Qed.

Lemma written_cons (r : bool) (out : list string) (e : string) :
  written r (e :: out)
  = match out with
    | [] => (if r then "/" else "") +:+ e
    | _ => written r out +:+ "/" +:+ e
    end.
Proof.
  unfold written. simpl rev. rewrite concat_snoc.
  destruct out as [|x out]; [reflexivity|].
  destruct (rev (x :: out)) eqn:E.
  - apply (f_equal (@length _)) in E. rewrite length_rev in E. discriminate E.
  - rewrite append_assoc. reflexivity.
Qed.

Lemma buffer_cons (r : bool) (out : list string) (e : string) :
  buffer r (e :: out)
  = (rev (bytes_of e)
     ++ match out with [] => buffer r [] | _ => GoPath.slash :: buffer r out end)%list.
Proof.
  unfold buffer. rewrite written_cons. destruct out as [|x out].
  - rewrite bytes_of_app, rev_app_distr. unfold written. simpl rev.
    rewrite append_empty_r. reflexivity.
  - rewrite !bytes_of_app, !rev_app_distr. simpl. rewrite <- app_assoc. reflexivity.
Qed.

Lemma buffer_nil (r : bool) : buffer r [] = if r then [GoPath.slash] else [].
Proof. destruct r; reflexivity. Qed.

Lemma length_bytes_of_pos (e : string) : e <> "" -> (0 < length (bytes_of e))%nat.
Proof. destruct e; [congruence|]. simpl. lia. Qed.

Lemma buffer_length_cons (r : bool) (out : list string) (e : string) :
  e <> "" -> (length (buffer r out) < length (buffer r (e :: out)))%nat.
Proof.
  intros He. pose proof (length_bytes_of_pos e He).
  rewrite buffer_cons, length_app, length_rev.
  destruct out; cbn [length]; lia.
Qed.

Lemma buffer_length_mono (r : bool) (real dds : list string) :
  Forall (fun e => e <> "") real ->
  (length (buffer r dds) <= length (buffer r (real ++ dds)))%nat
  /\ (real <> [] -> (length (buffer r dds) < length (buffer r (real ++ dds)))%nat).
Proof.
  induction real as [|e real IH]; intros Hne.
  - split; [reflexivity|congruence].
  - inversion Hne as [|? ? He Hreal]; subst.
    destruct (IH Hreal) as [IH1 _].
    pose proof (buffer_length_cons r (real ++ dds) e He).
    change ((e :: real) ++ dds)%list with (e :: (real ++ dds))%list.
    split; intros; lia.
Qed.

(** The buffer is the bare root exactly when no element is written. *)
Lemma buffer_length_nil (r : bool) (out : list string) :
  Forall (fun e => e <> "") out ->
  (length (buffer r out) =? length (buffer r []))%nat
  = match out with [] => true | _ => false end.
Proof.
  intros Hne. destruct out as [|e out]; [apply Nat.eqb_refl|].
  apply Nat.eqb_neq.
  destruct (buffer_length_mono r (e :: out) [] Hne) as [_ Hlt].
  rewrite app_nil_r in Hlt. specialize (Hlt ltac:(discriminate)). lia.
Qed.

Lemma backtrack_to_slash (dd : nat) (l X : list ascii) :
  Forall (fun b => b <> GoPath.slash) l -> (dd <= length X)%nat ->
  GoPath.backtrack dd (l ++ GoPath.slash :: X) = X.
Proof.
  intros Hl Hdd. induction Hl as [|b l Hb Hl IH]; simpl.
  - rewrite andb_false_r. reflexivity.
  - destruct (Ascii.eqb_spec b GoPath.slash); [contradiction|].
    replace (dd <? length (l ++ GoPath.slash :: X))%nat with true.
    + exact IH.
    + symmetry. apply Nat.ltb_lt. rewrite length_app. simpl. lia.
Qed.

Lemma backtrack_all (dd : nat) (l X : list ascii) :
  l <> [] -> Forall (fun b => b <> GoPath.slash) l -> dd = length X ->
  GoPath.backtrack dd (l ++ X) = X.
Proof.
  intros Hne Hl ->. induction Hl as [|b l Hb Hl IH]; [congruence|]. simpl.
  destruct l as [|b2 l].
  - simpl. rewrite Nat.ltb_irrefl. reflexivity.
  - destruct (Ascii.eqb_spec b GoPath.slash); [contradiction|].
    replace (length X <? length ((b2 :: l) ++ X))%nat with true.
    + apply IH. discriminate.
    + symmetry. apply Nat.ltb_lt. rewrite length_app. simpl. lia.
Qed.

Lemma no_slash_bytes (e : string) :
  no_slash e = true -> Forall (fun b => b <> GoPath.slash) (rev (bytes_of e)).
Proof.
  intros He. apply Forall_rev. induction e as [|c e IH]; simpl; [constructor|].
  simpl in He. apply andb_prop in He as [Hc He]. constructor; [|exact (IH He)].
  destruct (Ascii.eqb_spec c GoPath.slash); [discriminate Hc|assumption].
Qed.

Lemma rev_bytes_nonempty (e : string) : e <> "" -> rev (bytes_of e) <> [].
Proof.
  destruct e as [|c e]; [congruence|]. intros _ H.
  apply (f_equal (@length _)) in H. rewrite length_rev in H. discriminate H.
Qed.

Lemma plain_element_inv (e : string) :
  plain_element e = true -> e <> "" /\ e <> "." /\ e <> ".." /\ no_slash e = true.
Proof.
  unfold plain_element. intros H.
  repeat (apply andb_prop in H as [H ?]).
  destruct (String.eqb_spec e ""); [discriminate|].
  destruct (String.eqb_spec e "."); [discriminate|].
  destruct (String.eqb_spec e ".."); [discriminate|]. auto.
Qed.

Lemma stack_ok_nonempty (r : bool) (real dds : list string) :
  stack_ok r real dds -> Forall (fun e => e <> "") (real ++ dds).
Proof.
  intros (Hreal & Hdds & _). apply Forall_app. split.
  - rewrite forallb_forall in Hreal. apply List.Forall_forall. intros e He.
    apply plain_element_inv. apply Hreal. exact He.
  - eapply Forall_impl; [exact Hdds|]. intros e ->. discriminate.
Qed.

(** One element of the path: the byte loop and the element loop do the
    same to what is written so far. *)
Lemma step_simulation (r : bool) (real dds : list string) (e : string) :
  stack_ok r real dds -> no_slash e = true ->
  exists real' dds',
    stack_ok r real' dds'
    /\ step_elements r (real ++ dds) e = (real' ++ dds')%list
    /\ step_bytes r (buffer r (real ++ dds), length (buffer r dds)) e
       = (buffer r (real' ++ dds'), length (buffer r dds')).
Proof.
  intros Hok He. pose proof Hok as (Hreal & Hdds & Hroot).
  pose proof (stack_ok_nonempty r real dds Hok) as Hne.
  unfold step_elements.
  destruct (String.eqb_spec e "") as [->|H0].
  { exists real, dds. repeat split; assumption. }
  destruct (String.eqb_spec e ".") as [->|H1].
  { exists real, dds. repeat split; assumption. }
  destruct (String.eqb_spec e "..") as [->|H2]; cbn [orb].
  - (* ".." *)
    unfold step_bytes.
    change (String.eqb ".." "" || String.eqb ".." ".") with false.
    change (String.eqb ".." "..") with true. cbv iota.
    destruct real as [|top real].
    + (* nothing to remove *)
      cbn [app]. rewrite Nat.ltb_irrefl.
      destruct dds as [|d dds].
      * destruct r.
        -- exists [], []. repeat split; assumption.
        -- exists [], [".."]. split; [|split; reflexivity].
           split; [reflexivity|]. split; [repeat constructor|discriminate].
      * inversion Hdds as [|? ? Hd Hdds']; subst d.
        destruct r; [specialize (Hroot eq_refl); discriminate Hroot|].
        change (String.eqb ".." "..") with true. cbv iota. cbn [negb].
        exists [], (".." :: ".." :: dds). split; [|split].
        -- split; [reflexivity|]. split; [constructor; [reflexivity|exact Hdds]|discriminate].
        -- reflexivity.
        -- pose proof (buffer_length_cons false dds ".." ltac:(discriminate)) as Hlen.
           replace (0 <? length (buffer false (".." :: dds)))%nat with true
             by (symmetry; apply Nat.ltb_lt; lia).
           cbn [app]. rewrite (buffer_cons false (".." :: dds) ".."). reflexivity.
    + (* the last element goes *)
      simpl in Hreal. apply andb_prop in Hreal as [Htop Hreal].
      destruct (plain_element_inv top Htop) as (Ht0 & Ht1 & Ht2 & Hts).
      cbn [app]. destruct (String.eqb_spec top ".."); [contradiction|].
      exists real, dds. split; [repeat split; assumption|]. split; [reflexivity|].
      assert (Hne' : Forall (fun e => e <> "") (top :: real)).
      { change (top :: real ++ dds)%list with ((top :: real) ++ dds)%list in Hne.
        apply Forall_app in Hne as [? _]. assumption. }
      destruct (buffer_length_mono r (top :: real) dds Hne') as [_ Hlt].
      specialize (Hlt ltac:(discriminate)). cbn [app] in Hlt.
      replace (length (buffer r dds) <? length (buffer r (top :: real ++ dds)))%nat
        with true by (symmetry; apply Nat.ltb_lt; exact Hlt).
      f_equal. rewrite buffer_cons.
      destruct (real ++ dds)%list as [|x out] eqn:E.
      * destruct real; [|discriminate E]. simpl in E. subst dds.
        apply backtrack_all;
          [apply rev_bytes_nonempty|apply no_slash_bytes|]; auto.
      * rewrite <- E. apply backtrack_to_slash; [apply no_slash_bytes; assumption|].
        apply buffer_length_mono. inversion Hne'; assumption.
  - (* a plain element *)
    rewrite (step_bytes_plain r _ _ e H0 H1 H2).
    exists (e :: real), dds. split; [|split; [reflexivity|]].
    + split; [|split; assumption]. simpl. rewrite Hreal, andb_true_r.
      unfold plain_element. rewrite He.
      destruct (String.eqb_spec e ""); [contradiction|].
      destruct (String.eqb_spec e "."); [contradiction|].
      destruct (String.eqb_spec e ".."); [contradiction|]. reflexivity.
    + f_equal. cbn [app]. rewrite buffer_cons. f_equal.
      pose proof (buffer_length_nil r (real ++ dds) Hne) as Hnil.
      rewrite buffer_nil in Hnil.
      destruct r; cbn [andb orb negb length] in *; rewrite Hnil;
        destruct (real ++ dds)%list; reflexivity.
Qed.

Lemma fold_simulation (r : bool) (es real dds : list string) :
  forallb no_slash es = true -> stack_ok r real dds ->
  exists real' dds',
    stack_ok r real' dds'
    /\ fold_left (step_elements r) es (real ++ dds)%list = (real' ++ dds')%list
    /\ fold_left (step_bytes r) es (buffer r (real ++ dds), length (buffer r dds))
       = (buffer r (real' ++ dds'), length (buffer r dds')).
Proof.
  revert real dds. induction es as [|e es IH]; intros real dds Hes Hok.
  - exists real, dds. repeat split; apply Hok.
  - simpl in Hes. apply andb_prop in Hes as [He Hes].
    destruct (step_simulation r real dds e Hok He) as (real1 & dds1 & Hok1 & Hel & Hby).
    cbn [fold_left]. rewrite Hel, Hby. apply IH; assumption.
Qed.

Lemma string_of_buffer (r : bool) (out : list string) :
  string_of_list_ascii (rev (buffer r out)) = written r out.
Proof.
  unfold buffer, bytes_of. rewrite rev_involutive.
  apply string_of_list_ascii_of_string.
Qed.

(** [path.Clean] read over the bytes and read over the elements is the same
    function. *)
Theorem Clean_bytes_Clean (p : string) : GoPath.Clean_bytes p = GoPath.Clean p.
Proof.
  destruct p as [|c p]; [reflexivity|].
  unfold GoPath.Clean_bytes, GoPath.Clean. cbn [GoPath.rooted].
  destruct (Ascii.eqb c GoPath.slash) eqn:Ec.
  - (* rooted *)
    cbn [GoPath.elements]. rewrite Ec.
    rewrite bytes_loop_elements.
    destruct (fold_simulation true (GoPath.elements p) [] [] (elements_no_slashes p))
      as (real & dds & Hok & Hel & Hby).
    { split; [reflexivity|]. split; [constructor|reflexivity]. }
    change (GoPath.clean_loop true [] ("" :: GoPath.elements p))
      with (GoPath.clean_loop true [] (GoPath.elements p)).
    rewrite clean_loop_fold. cbn [app] in Hel, Hby. rewrite Hel.
    change ([GoPath.slash], 1%nat) with (buffer true [], length (buffer true [])).
    rewrite Hby. cbn [fst].
    pose proof (string_of_buffer true (real ++ dds)) as Hstr.
    destruct (buffer true (real ++ dds)) as [|b buf] eqn:Eb.
    + exfalso. pose proof (buffer_length_mono true (real ++ dds) []
                             (stack_ok_nonempty _ _ _ Hok)) as [Hle _].
      rewrite app_nil_r, Eb in Hle. simpl in Hle. lia.
    + rewrite Hstr. reflexivity.
  - (* not rooted *)
    rewrite bytes_loop_elements.
    destruct (fold_simulation false (GoPath.elements (String c p)) [] []
                (elements_no_slashes _))
      as (real & dds & Hok & Hel & Hby).
    { split; [reflexivity|]. split; [constructor|discriminate]. }
    rewrite clean_loop_fold. cbn [app] in Hel, Hby. rewrite Hel.
    change ([], 0%nat) with (buffer false [], length (buffer false [])).
    rewrite Hby. cbn [fst].
    pose proof (string_of_buffer false (real ++ dds)) as Hstr.
    pose proof (buffer_length_nil false (real ++ dds)
                  (stack_ok_nonempty _ _ _ Hok)) as Hnil.
    destruct (real ++ dds)%list as [|x out] eqn:Eo.
    + reflexivity.
    + destruct (buffer false (x :: out)) as [|b buf] eqn:Eb;
        [discriminate Hnil|].
      rewrite Hstr. unfold written. cbn [rev].
      destruct (rev out ++ [x])%list eqn:Er; [|reflexivity].
      destruct (rev out); discriminate Er.
Qed.

(** ** The action table *)

Lemma getActionName_other (verb : string) :
  ~ In verb table_verbs -> getActionName verb = "".
Proof.
  intros Hnot. unfold getActionName.
  repeat match goal with
  | |- context [String.eqb verb ?v] =>
      destruct (String.eqb_spec verb v) as [->|_];
      [exfalso; apply Hnot; unfold table_verbs; simpl; tauto|]
  end.
  reflexivity.
Qed.

(** C4: the mapping from verbs to actions is a total function that follows
    the table: get, list and watch give "read"; create, patch and update
    give "write"; delete and deletecollection give "delete"; bind, escalate,
    use and impersonate give their own "<verb>/action"; every other verb
    gives the empty string. *)
Theorem getActionName_table :
  getActionName "get" = "read" /\ getActionName "list" = "read"
  /\ getActionName "watch" = "read"
  /\ getActionName "create" = "write" /\ getActionName "patch" = "write"
  /\ getActionName "update" = "write"
  /\ getActionName "delete" = "delete"
  /\ getActionName "deletecollection" = "delete"
  /\ getActionName "bind" = "bind/action"
  /\ getActionName "escalate" = "escalate/action"
  /\ getActionName "use" = "use/action"
  /\ getActionName "impersonate" = "impersonate/action"
  /\ forall verb, ~ In verb table_verbs -> getActionName verb = "".
Proof.
  repeat (split; [reflexivity|]). exact getActionName_other.
Qed.

Lemma getActionName_table_witness :
  ~ In "unknown" table_verbs /\ getActionName "unknown" = "".
Proof.
  assert (H : ~ In "unknown" table_verbs).
  { unfold table_verbs. simpl. intros H.
    repeat (destruct H as [H|H]; [discriminate H|]). exact H. }
  split; [exact H|].
  exact (proj2 (proj2 (proj2 (proj2 (proj2 (proj2 (proj2 (proj2 (proj2
          (proj2 (proj2 (proj2 getActionName_table)))))))))))
          "unknown" H).
Defined.

(** ** The cache key *)

Lemma getResultCacheKey_same_action (r1 r2 : SubjectAccessReviewSpec) :
  same_key_fields same_action r1 r2 ->
  getResultCacheKey r1 = getResultCacheKey r2.
Proof.
  unfold same_key_fields, same_action, getResultCacheKey.
  intros (Hu & Hr & Hn). rewrite Hu.
  destruct (sar_ResourceAttributes r1) as [a1|],
           (sar_ResourceAttributes r2) as [a2|]; simpl in Hr; try contradiction.
  - destruct Hr as (-> & -> & -> & ->). reflexivity.
  - destruct (sar_NonResourceAttributes r1) as [n1|],
             (sar_NonResourceAttributes r2) as [n2|]; simpl in Hn;
      try contradiction; [|reflexivity].
    destruct Hn as (-> & ->). reflexivity.
Qed.

Lemma same_key_fields_eq_action (r1 r2 : SubjectAccessReviewSpec) :
  same_key_fields eq r1 r2 -> same_key_fields same_action r1 r2.
Proof.
  unfold same_key_fields, same_action. intros (Hu & Hr & Hn).
  split; [exact Hu|]. split.
  - destruct (sar_ResourceAttributes r1), (sar_ResourceAttributes r2);
      simpl in *; try tauto.
    destruct Hr as (? & ? & ? & ->). tauto.
  - destruct (sar_NonResourceAttributes r1), (sar_NonResourceAttributes r2);
      simpl in *; try tauto.
    destruct Hn as (? & ->). tauto.
Qed.

(** C3: the cache key is a function of the user, the namespace, the API
    group, the resource, the path and the verb of a request: two requests
    with the same values in these fields have the same key.  The verb
    counts through its action only: two requests that differ in verbs of one
    action ("get" and "list") have the same key.  The key of user
    "alpha@bing.com", namespace "dev", resource "pods" and verb "delete" is
    "alpha@bing.com/dev/pods/delete". *)
Theorem getResultCacheKey_deterministic :
  (forall r1 r2, same_key_fields eq r1 r2 ->
                 getResultCacheKey r1 = getResultCacheKey r2)
  /\ (forall r1 r2, same_key_fields same_action r1 r2 ->
                    getResultCacheKey r1 = getResultCacheKey r2)
  /\ (forall user ns group resource name1 name2 extra1 extra2,
        getResultCacheKey (resource_request user ns group resource "get" name1 extra1)
        = getResultCacheKey (resource_request user ns group resource "list" name2 extra2))
  /\ getResultCacheKey
       (resource_request "alpha@bing.com" "dev" "" "pods" "delete" "test" ∅)
     = "alpha@bing.com/dev/pods/delete".
Proof.
  split; [|split; [|split]].
  - intros r1 r2 Hsame.
    apply getResultCacheKey_same_action, same_key_fields_eq_action, Hsame.
  - exact getResultCacheKey_same_action.
  - intros. apply getResultCacheKey_same_action.
    unfold same_key_fields, same_action. simpl. tauto.
  - reflexivity.
Qed.

Lemma getResultCacheKey_deterministic_witness :
  getResultCacheKey
    (resource_request "beta@msn.com" "" "" "nodes" "list" ""
       {[ "oid" := ["62103f2e-051d-48cc-af47-b1ff3deec630"] ]})
  = getResultCacheKey
      (resource_request "beta@msn.com" "" "" "nodes" "watch" "node-1" ∅).
Proof.
  apply (proj1 (proj2 getResultCacheKey_deterministic)).
  unfold same_key_fields, same_action. simpl.
  repeat split; reflexivity.
Defined.

(** ** The scope of a request *)

(** C6, as the code has it: [getScope] returns the resource id unchanged
    when there are no attributes or the namespace is empty; otherwise it
    returns [path.Join(resourceId, "namespaces", ns)], the cleaned path,
    which is resourceId + "/namespaces/" + ns whenever the resource id is a
    path of plain elements separated by single slashes and the namespace is
    a plain element; scope("resourceId", {namespace:"test"}) is
    "resourceId/namespaces/test". *)
Theorem getScope_spec (resourceId : string) :
  getScope resourceId None = resourceId
  /\ (forall attr, ra_Namespace attr = "" -> getScope resourceId (Some attr) = resourceId)
  /\ (forall attr, ra_Namespace attr <> "" ->
        getScope resourceId (Some attr)
        = GoPath.Join [resourceId; "namespaces"; ra_Namespace attr])
  /\ (forall attr, plain_path resourceId = true ->
        plain_element (ra_Namespace attr) = true ->
        getScope resourceId (Some attr)
        = resourceId +:+ "/namespaces/" +:+ ra_Namespace attr)
  /\ getScope "resourceId" (Some (namespace_only "test")) = "resourceId/namespaces/test".
Proof.
  split; [reflexivity|]. split; [|split; [|split]].
  - intros attr Hns. unfold getScope. rewrite Hns. reflexivity.
  - intros attr Hns. unfold getScope.
    destruct (String.eqb_spec (ra_Namespace attr) ""); [contradiction|reflexivity].
  - intros attr Hr Hns. unfold getScope.
    destruct (String.eqb_spec (ra_Namespace attr) "") as [E|_].
    + rewrite E in Hns. discriminate Hns.
    + apply Join_plain; assumption.
  - reflexivity.
Qed.

Lemma getScope_spec_witness :
  getScope "/subscriptions/s1/resourceGroups/rg/providers/Microsoft.Kubernetes/connectedClusters/c1"
    (Some (namespace_only "kube-system"))
  = "/subscriptions/s1/resourceGroups/rg/providers/Microsoft.Kubernetes/connectedClusters/c1"
    +:+ "/namespaces/" +:+ "kube-system".
Proof.
  apply (proj1 (proj2 (proj2 (proj2 (getScope_spec _)))) (namespace_only "kube-system"));
    vm_compute; reflexivity.
Defined.

(** C6 as stated fails: with a slash at the end of the resource id the
    scope is the cleaned path, where the claim has two slashes in a row;
    with an empty resource id the scope has no slash in front. *)
Lemma getScope_not_concatenation :
  getScope "resourceId/" (Some (namespace_only "test")) = "resourceId/namespaces/test"
  /\ getScope "resourceId/" (Some (namespace_only "test"))
     <> "resourceId/" +:+ "/namespaces/" +:+ "test"
  /\ getScope "" (Some (namespace_only "test")) = "namespaces/test"
  /\ getScope "" (Some (namespace_only "test")) <> "" +:+ "/namespaces/" +:+ "test".
Proof.
  repeat split; try reflexivity; vm_compute; discriminate.
Qed.

(** ** The response of a check-access call *)

(** C2: when the body decodes to a list of decisions that is not empty,
    [ConvertCheckAccessResponse] returns allowed and not denied, with the
    reason [AccessAllowedVerdict], exactly when the disposition of the first
    decision is "allowed" without regard to case; otherwise it returns
    denied and not allowed, with the reason [AccessNotAllowedVerdict]. *)
Theorem ConvertCheckAccessResponse_first_decision `{JSON}
    (body : string) (d : AuthorizationDecision) (ds : list AuthorizationDecision) :
  json_Unmarshal body = inr (d :: ds) ->
  ConvertCheckAccessResponse body
  = Ok (if GoStrings.equal_fold (Decision d) "allowed"
        then {| Allowed := true; Denied := false;
                Reason := AccessAllowedVerdict; EvaluationError := "" |}
        else {| Allowed := false; Denied := true;
                Reason := AccessNotAllowedVerdict; EvaluationError := "" |}).
Proof.
  intros Hbody. unfold ConvertCheckAccessResponse. rewrite Hbody.
  rewrite equal_fold_ToLower.
  change (GoStrings.ToLower "allowed") with AllowedDecision.
  destruct (String.eqb (GoStrings.ToLower (Decision d)) AllowedDecision);
    reflexivity.
Qed.

Lemma ConvertCheckAccessResponse_first_decision_witness :
  @ConvertCheckAccessResponse Fixture.json (decision_body "ALLOWED")
  = Ok {| Allowed := true; Denied := false;
          Reason := "Access allowed"; EvaluationError := "" |}.
Proof.
  apply (@ConvertCheckAccessResponse_first_decision Fixture.json
           (decision_body "ALLOWED")
           {| Decision := "ALLOWED"; ActionId := "";
              ad_IsDataAction := false; TimeToLiveInMs := 0 |} []).
  vm_compute. reflexivity.
Defined.

Example ConvertCheckAccessResponse_denied :
  @ConvertCheckAccessResponse Fixture.json (decision_body "Denied")
  = Ok {| Allowed := false; Denied := true;
          Reason := AccessNotAllowedVerdict; EvaluationError := "" |}.
Proof. reflexivity. Qed.

(** An empty list of decisions is not handled: reading its first element
    panics. *)
Example ConvertCheckAccessResponse_empty :
  @ConvertCheckAccessResponse Fixture.json "[]" = Panic.
Proof. reflexivity. Qed.

(** ** The token *)

Lemma wrap64_small (z : Z) : - 2 ^ 63 <= z < 2 ^ 63 -> wrap64 z = z.
Proof.
  intros Hz. unfold wrap64. rewrite Z.mod_small; lia.
Qed.

Lemma IsTokenExpired_iff (now : Z) (a : AccessInfo) :
  IsTokenExpired now a = true <-> expiresAt a < now.
Proof.
  unfold IsTokenExpired, Time_Before.
  destruct (Z.ltb_spec (expiresAt a) now); split; intros; try lia;
    try reflexivity; discriminate.
Qed.

(** C7, as the code has it: a successful refresh at [t0] stores the
    instant [t0] plus the lifetime of the token less 60 seconds, computed
    in int64 nanoseconds, and [IsTokenExpired] returns true exactly when the
    current time is after the stored instant; at that instant itself it
    returns false.  When the nanoseconds of the lifetime, and they less the
    60 seconds, fit an int64 (a negative lifetime included), the stored
    instant is the expiry of the token less 60 seconds. *)
Theorem IsTokenExpired_after_refresh (P : TokenProvider)
    (a : AccessInfo) (t0 : Z) (resp : AuthResponse) :
  provider_Acquire "" = inr resp ->
  let a' := (RefreshToken t0 a).2 in
  (RefreshToken t0 a).1 = None
  /\ expiresAt a'
     = Time_Add t0 (Duration_sub (Duration_mul (Expires resp) Second) expiryDelta)
  /\ (forall now, IsTokenExpired now a' = true <-> expiresAt a' < now)
  /\ (forall now, now <= expiresAt a' -> IsTokenExpired now a' = false)
  /\ (- 2 ^ 63 <= Expires resp * Second - 60 * Second ->
      Expires resp * Second < 2 ^ 63 ->
      expiresAt a' = t0 + Expires resp * Second - 60 * Second
      /\ forall now,
           IsTokenExpired now a' = true
           <-> t0 + Expires resp * Second - 60 * Second < now).
Proof.
  intros Hacq a'. subst a'. unfold RefreshToken. rewrite Hacq.
  cbn [fst snd expiresAt AccessInfo_with_token].
  split; [reflexivity|]. split; [reflexivity|].
  split; [intros now; rewrite IsTokenExpired_iff; reflexivity|].
  split.
  { intros now Hnow.
    destruct (IsTokenExpired now _) eqn:Hexp; [|reflexivity].
    apply IsTokenExpired_iff in Hexp. cbn [expiresAt AccessInfo_with_token] in Hexp.
    lia. }
  intros Hmin Hmax.
  assert (Hexp : Time_Add t0 (Duration_sub (Duration_mul (Expires resp) Second) expiryDelta)
                 = t0 + Expires resp * Second - 60 * Second).
  { unfold Time_Add, Duration_sub, Duration_mul, expiryDelta.
    unfold Second in *. rewrite (wrap64_small (Expires resp * 1000000000)) by lia.
    rewrite wrap64_small by lia. lia. }
  split; [exact Hexp|].
  intros now. rewrite IsTokenExpired_iff. cbn [expiresAt AccessInfo_with_token].
  rewrite Hexp. reflexivity.
Qed.

Lemma IsTokenExpired_after_refresh_witness :
  let a' := (@RefreshToken token_8459 (1000 * Second) arc_client).2 in
  IsTokenExpired (1000 * Second + 8459 * Second - 60 * Second + 1) a' = true.
Proof.
  intros a'.
  destruct (IsTokenExpired_after_refresh token_8459 arc_client (1000 * Second)
              {| TokenType := "Bearer"; Expires := 8459; Token := "t0k3n" |} eq_refl)
    as (_ & _ & _ & _ & Hfit).
  apply Hfit.
  - vm_compute. discriminate.
  - vm_compute. reflexivity.
  - simpl. lia.
Defined.

(** C7 as stated fails at the instant of the skew-adjusted expiry itself:
    the current time is at that instant and the token is not reported as
    expired. *)
Lemma IsTokenExpired_false_at_expiry :
  let a' := (@RefreshToken token_8459 (1000 * Second) arc_client).2 in
  let now := 1000 * Second + 8459 * Second - 60 * Second in
  expiresAt a' <= now /\ IsTokenExpired now a' = false.
Proof. vm_compute. split; [discriminate|reflexivity]. Qed.

(** C8: when the provider fails to acquire a token, [RefreshToken] returns
    an error and the [AccessInfo] is as it was: the Authorization header and
    the stored expiry are those of before the call. *)
Theorem RefreshToken_failure_keeps_state (P : TokenProvider)
    (now : Z) (a : AccessInfo) (err : error) :
  provider_Acquire "" = inl err ->
  (RefreshToken now a).1 = Some (errors_Wrap err "failed to refresh rbac token")
  /\ (RefreshToken now a).2 = a
  /\ headers (RefreshToken now a).2 !! "Authorization" = headers a !! "Authorization"
  /\ expiresAt (RefreshToken now a).2 = expiresAt a.
Proof.
  intros Hacq. unfold RefreshToken. rewrite Hacq. simpl. repeat split.
Qed.

Lemma RefreshToken_failure_keeps_state_witness :
  let a := (@RefreshToken token_8459 (1000 * Second) arc_client).2 in
  (@RefreshToken token_unavailable (9000 * Second) a).2 = a.
Proof.
  intros a.
  apply (RefreshToken_failure_keeps_state token_unavailable (9000 * Second) a
           (LibError "request failed with status code: 401")).
  reflexivity.
Defined.

Lemma substring_all (x y : string) :
  substring 0 (String.length x) (x +:+ y) = x.
Proof.
  induction x as [|c x IH]; simpl.
  - destruct y; reflexivity.
  - rewrite IH. reflexivity.
Qed.

Lemma length_append (x y : string) :
  String.length (x +:+ y) = (String.length x + String.length y)%nat.
Proof. induction x as [|c x IH]; simpl; [reflexivity|]. rewrite IH. reflexivity. Qed.

(** The brackets that [ExtraValue.String] puts around a value are the ones
    that [prepareCheckAccessRequestBody] cuts off. *)
Lemma ExtraValue_String_inner (v : ExtraValue) :
  let val := ExtraValue_String v in
  substring 1 (String.length val - 1 - 1) val = oid_text v.
Proof.
  unfold ExtraValue_String, oid_text.
  set (x := GoStrings.Join v " ").
  change ("[" +:+ x +:+ "]") with (String "[" (x +:+ "]")).
  cbv zeta. change (String.length (String "[" (x +:+ "]")))
    with (S (String.length (x +:+ "]"))).
  rewrite length_append.
  replace (S (String.length x + String.length "]") - 1 - 1)%nat
    with (String.length x) by (simpl; lia).
  change (substring 1 (String.length x) (String "[" (x +:+ "]")))
    with (substring 0 (String.length x) (x +:+ "]")).
  apply substring_all.
Qed.

Lemma prepareCheckAccessRequestBody_oid (req : SubjectAccessReviewSpec)
    (ct rid : string) (rgm : bool) :
  (sar_Extra req !! "oid" = None
   \/ exists oid, sar_Extra req !! "oid" = Some oid
                  /\ isValidUUID (oid_text oid) = false) ->
  exists e, credential_error e
            /\ prepareCheckAccessRequestBody req ct rid rgm = inl e.
Proof.
  unfold prepareCheckAccessRequestBody, credential_error.
  intros [Hnone|(oid & Hsome & Hbad)].
  - rewrite Hnone. eauto.
  - rewrite Hsome. cbv zeta. rewrite ExtraValue_String_inner, Hbad. eauto.
Qed.

(** What [uuid.Parse] accepts: the well-formed texts, and the texts of 38
    bytes around a hyphenated UUID, whose outer bytes it does not look at. *)
Lemma isValidUUID_forms (u : string) :
  isValidUUID u = well_formed_UUID u || wrapped_UUID u.
Proof.
  unfold isValidUUID, UUID.Parse_ok, well_formed_UUID, hyphenated_UUID, urn_UUID,
    braced_UUID, hex_UUID, wrapped_UUID.
  cbv zeta. change (36 + 9)%nat with 45%nat. change (36 + 2)%nat with 38%nat.
  generalize (String.length u). intros n.
  destruct (Nat.eqb_spec n 36) as [->|H36].
  { cbn [Nat.eqb andb orb]. rewrite !orb_false_r. reflexivity. }
  destruct (Nat.eqb_spec n 45) as [->|H45].
  { cbn [Nat.eqb andb orb]. rewrite !orb_false_r.
    destruct (String.eqb _ "urn:uuid:"); reflexivity. }
  destruct (Nat.eqb_spec n 38) as [->|H38].
  { cbn [Nat.eqb andb orb].
    destruct (UUID.hyphenated_ok (UUID.from 1 u)); cbn [andb orb];
      [rewrite orb_false_r, orb_true_r|]; reflexivity. }
  destruct (Nat.eqb_spec n 32) as [->|H32].
  { cbn [Nat.eqb andb orb]. rewrite orb_false_r. reflexivity. }
  reflexivity.
Qed.

(** C5, as the code has it: when the extra claims of a request have no
    "oid" entry, or the text of the entry is neither a well-formed UUID nor
    a text of 38 bytes around a hyphenated UUID, [CheckAccess] returns the
    error of [prepareCheckAccessRequestBody] and nothing else happens: the
    world is as before the call, so no request was sent. *)
Theorem CheckAccess_rejects_bad_oid `{JSON} `{HTTP} `{Store}
    (a : AccessInfo) (request : SubjectAccessReviewSpec) (w : World) :
  (sar_Extra request !! "oid" = None
   \/ exists oid, sar_Extra request !! "oid" = Some oid
                  /\ well_formed_UUID (oid_text oid) = false
                  /\ wrapped_UUID (oid_text oid) = false) ->
  exists e,
    credential_error e
    /\ prepareCheckAccessRequestBody request (clusterType a) (azureResourceId a)
         (retrieveGroupMemberships a) = inl e
    /\ CheckAccess a request w
       = (Err (errors_Wrap e "error in preparing check access request"), w).
Proof.
  intros Hoid.
  assert (Hbad : sar_Extra request !! "oid" = None
                 \/ exists oid, sar_Extra request !! "oid" = Some oid
                                /\ isValidUUID (oid_text oid) = false).
  { destruct Hoid as [Hnone|(oid & Hsome & Hform & Hwrap)]; [left; exact Hnone|].
    right. exists oid. split; [exact Hsome|].
    rewrite isValidUUID_forms, Hform, Hwrap. reflexivity. }
  destruct (prepareCheckAccessRequestBody_oid request (clusterType a)
              (azureResourceId a) (retrieveGroupMemberships a) Hbad)
    as (e & He & Hprep).
  exists e. split; [exact He|]. split; [exact Hprep|].
  unfold CheckAccess, bind. rewrite Hprep. reflexivity.
Qed.

Lemma CheckAccess_rejects_bad_oid_witness :
  let request := resource_request "beta@bing.com" "dev" "" "pods" "delete" "test"
                   {[ "oid" := ["test"] ]} in
  let w := empty_world in
  exists e, credential_error e
    /\ prepareCheckAccessRequestBody request (clusterType arc_client)
         (azureResourceId arc_client) (retrieveGroupMemberships arc_client) = inl e
    /\ @CheckAccess Fixture.json (Fixture.remote (Fixture.reply 200 "11999" "[]")) MapStore
         arc_client request w
       = (Err (errors_Wrap e "error in preparing check access request"), w).
Proof.
  intros request w.
  apply (@CheckAccess_rejects_bad_oid Fixture.json
           (Fixture.remote (Fixture.reply 200 "11999" "[]")) MapStore
           arc_client request w).
  right. exists ["test"]. split; [|split]; vm_compute; reflexivity.
Defined.

(** C5 as stated fails: an object identifier with a byte before and a byte
    behind a UUID is not a well-formed UUID, and the request that carries it
    is sent, answered and cached. *)
Lemma CheckAccess_accepts_wrapped_oid :
  let remote := Fixture.remote (Fixture.reply 200 "11999" (decision_body "Allowed")) in
  let out := @CheckAccess Fixture.json remote MapStore arc_client wrapped_oid_request
               empty_world in
  sar_Extra wrapped_oid_request !! "oid"
  = Some ["x00000000-0000-0000-0000-000000000000y"]
  /\ well_formed_UUID (oid_text ["x00000000-0000-0000-0000-000000000000y"]) = false
  /\ (exists req, In (EvDo req) (w_events out.2))
  /\ out.1 = Ok {| Allowed := true; Denied := false;
                   Reason := "Access allowed"; EvaluationError := "" |}
  /\ w_store out.2 !! getResultCacheKey wrapped_oid_request = Some true
  /\ ~ malformed_oid_is_rejected.
Proof.
  intros remote out.
  assert (Hok : out.1 = Ok {| Allowed := true; Denied := false;
                              Reason := "Access allowed"; EvaluationError := "" |})
    by (vm_compute; reflexivity).
  split; [vm_compute; reflexivity|].
  split; [vm_compute; reflexivity|].
  split; [eexists; vm_compute; right; left; reflexivity|].
  split; [exact Hok|].
  split; [vm_compute; reflexivity|].
  intros Hall.
  destruct (Hall Fixture.json remote MapStore arc_client wrapped_oid_request
              empty_world ["x00000000-0000-0000-0000-000000000000y"])
    as [e He]; [vm_compute; reflexivity|vm_compute; reflexivity|].
  fold out in He. rewrite He in Hok. discriminate Hok.
Qed.

Section CacheWrites.
Context `{JSON} `{HTTP} `{Store}.

Lemma CheckAccess_sends (a : AccessInfo) (request : SubjectAccessReviewSpec)
    (req : Request) (w : World) :
  reaches_remote_call a request req ->
  CheckAccess a request w
  = (resp <- Do req "error in check access request execution" ;;
     data <- try (resp_Body_ReadAll resp) "error in reading response body" ;;
     defer EvBodyClose (
       (if negb (StatusCode resp =? StatusOK) then
          when (StatusCode resp =? StatusTooManyRequests) CloseIdleConnections ;;;
          fail (StatusError (url_Path (req_URL req)) (StatusCode resp) data)
        else
          when (GoStrconv.Atoi (resp_Header_Get resp remaingSubReadARMHeader)
                <? armCallLimit a) CloseIdleConnections) ;;;
       fun w =>
         match ConvertCheckAccessResponse data with
         | Ok response =>
             (SetResultInCache a request (Allowed response) ;;; ret response) w
         | Err err => (SetResultInCache a request false ;;; fail err) w
         | Panic => panic w
         end)) w.
Proof.
  intros (body & buf & req0 & Hprep & Henc & Hnew & ->).
  unfold CheckAccess, checkAccessURL_of in *.
  destruct (getNameSpaceScope request) as [exist_ nameSpaceString].
  cbn [fst snd] in Hnew.
  unfold bind at 1. rewrite Hprep. unfold try at 1, ret at 1. cbv beta iota.
  unfold bind at 1. rewrite Henc. unfold try at 1, ret at 1. cbv beta iota.
  unfold bind at 1. rewrite Hnew. reflexivity.
Qed.

(** C1, as the code has it.  On an invocation that reaches the remote
    call, the request is sent, and: when the call fails, the body cannot be
    read or the status is not 200, the error is returned and the cache is
    left as it was; when the status is 200 and the body decodes to a list of
    decisions that is not empty, the status is returned and its allowed
    outcome is written to the cache under the key of the request; when the
    body does not decode, the error is returned and a deny is written under
    that key.  Every failure that is returned is a propagated error. *)
Theorem CheckAccess_cache_write (a : AccessInfo) (request : SubjectAccessReviewSpec)
    (req : Request) (w : World) :
  reaches_remote_call a request req ->
  let r := (CheckAccess a request w).1 in
  let w' := (CheckAccess a request w).2 in
  In (EvDo req) (w_events w')
  /\ match client_Do req with
     | inl err =>
         r = Err (errors_Wrap err "error in check access request execution")
         /\ w_store w' = w_store w
     | inr resp =>
         match resp_Body_ReadAll resp with
         | inl err =>
             r = Err (errors_Wrap err "error in reading response body")
             /\ w_store w' = w_store w
         | inr data =>
             if negb (StatusCode resp =? StatusOK) then
               r = Err (StatusError (url_Path (req_URL req)) (StatusCode resp) data)
               /\ w_store w' = w_store w
             else
               match json_Unmarshal data with
               | inl err =>
                   r = Err (errors_Wrap err "Error in unmarshalling check access response.")
                   /\ w_store w' = cache_after_Set request false w
               | inr (d :: _) =>
                   exists status,
                     ConvertCheckAccessResponse data = Ok status
                     /\ r = Ok status
                     /\ w_store w' = cache_after_Set request (Allowed status) w
               | inr [] => True
               end
         end
     end.
Proof.
  intros Hreach r w'. subst r w'.
  rewrite (CheckAccess_sends a request req w Hreach).
  unfold Do, CloseIdleConnections, SetResultInCache, cache_after_Set.
  unfold when, defer. unfold bind, log, try, ret, fail, panic.
  destruct (client_Do req) as [err|resp];
    [simpl; split; [tauto|split; reflexivity]|].
  destruct (resp_Body_ReadAll resp) as [err|data];
    [simpl; split; [tauto|split; reflexivity]|].
  destruct (StatusCode resp =? StatusOK) eqn:Hcode; cbn [negb].
  - unfold ConvertCheckAccessResponse.
    destruct (GoStrconv.Atoi (resp_Header_Get resp remaingSubReadARMHeader)
              <? armCallLimit a); cbv beta iota; cbn [w_store w_events fst snd];
      (destruct (json_Unmarshal data) as [err|[|d ds]];
       [ destruct (store_Set _ false _); split; [simpl; tauto|split; reflexivity]
       | split; [simpl; tauto|exact I]
       | destruct (String.eqb _ _);
         (split;
          [ destruct (store_Set _ _ _); simpl; tauto
          | eexists; split; [reflexivity|]; cbn [Allowed];
            destruct (store_Set _ _ _); split; reflexivity ]) ]).
  - destruct (StatusCode resp =? StatusTooManyRequests); simpl;
      (split; [tauto|split; reflexivity]).
Qed.

End CacheWrites.

Lemma beta_reaches_remote_call (answer : error + Response) :
  @reaches_remote_call Fixture.json (Fixture.remote answer)
    arc_client beta_request beta_http_request.
Proof.
  unfold reaches_remote_call. do 3 eexists.
  split; [vm_compute; reflexivity|].
  split; [vm_compute; reflexivity|].
  split; [vm_compute; reflexivity|].
  vm_compute; reflexivity.
Qed.

Lemma CheckAccess_cache_write_witness :
  let remote := Fixture.remote (Fixture.reply 200 "11999" (decision_body "Allowed")) in
  let out := @CheckAccess Fixture.json remote MapStore arc_client beta_request empty_world in
  out.1 = Ok {| Allowed := true; Denied := false;
                Reason := "Access allowed"; EvaluationError := "" |}
  /\ w_store out.2 = {[ "beta@bing.com/dev/pods/delete" := true ]}.
Proof.
  intros remote out.
  pose proof (@CheckAccess_cache_write Fixture.json remote MapStore
                arc_client beta_request beta_http_request empty_world
                (beta_reaches_remote_call _)) as Hw.
  cbv zeta in Hw. fold out in Hw. destruct Hw as [_ Hw].
  change (exists status,
             @ConvertCheckAccessResponse Fixture.json (decision_body "Allowed") = Ok status
             /\ out.1 = Ok status
             /\ w_store out.2 = cache_after_Set beta_request (Allowed status) empty_world)
    in Hw.
  destruct Hw as (status & Hconv & Hr & Hst).
  injection Hconv as <-. split; [exact Hr|]. rewrite Hst. vm_compute. reflexivity.
Defined.

(** C1 as stated fails: a call answered with status 500 reaches the remote
    side and leaves the key of the request unset. *)
Lemma CheckAccess_status_error_not_cached :
  let remote := Fixture.remote (Fixture.reply 500 "" "Internal Server Error") in
  let out := @CheckAccess Fixture.json remote MapStore arc_client beta_request empty_world in
  @reaches_remote_call Fixture.json remote arc_client beta_request beta_http_request
  /\ In (EvDo beta_http_request) (w_events out.2)
  /\ (exists e, out.1 = Err e)
  /\ w_store out.2 !! getResultCacheKey beta_request = None
  /\ ~ every_remote_call_is_cached.
Proof.
  intros remote out.
  assert (Hnone : w_store out.2 !! getResultCacheKey beta_request = None)
    by (vm_compute; reflexivity).
  split; [apply beta_reaches_remote_call|].
  split; [vm_compute; tauto|].
  split; [eexists; vm_compute; reflexivity|].
  split; [exact Hnone|].
  intros Hall.
  destruct (Hall Fixture.json remote MapStore arc_client beta_request
              beta_http_request empty_world (beta_reaches_remote_call _))
    as [value Hvalue].
  fold out in Hvalue. rewrite Hvalue in Hnone.
  unfold cache_after_Set in Hnone. simpl in Hnone.
  rewrite lookup_insert_eq in Hnone. discriminate Hnone.
Qed.

(** * Further properties of the helpers and the client *)

(** ** The algebra of [path.Clean] and [path.Join] *)

Lemma Clean_render (p : string) :
  GoPath.Clean p
  = render (GoPath.rooted p)
      (rev (fold_left (step_elements (GoPath.rooted p)) (GoPath.elements p) [])).
Proof.
  unfold GoPath.Clean, render. rewrite clean_loop_fold. reflexivity.
Qed.

Lemma step_elements_skip (r : bool) (out : list string) (e : string) :
  e = "" \/ e = "." -> step_elements r out e = out.
Proof. intros [->| ->]; reflexivity. Qed.

Lemma step_elements_push (r : bool) (out : list string) (e : string) :
  e <> "" -> e <> "." -> e <> ".." -> step_elements r out e = e :: out.
Proof.
  intros H0 H1 H2. unfold step_elements.
  destruct (String.eqb_spec e ""); [contradiction|].
  destruct (String.eqb_spec e "."); [contradiction|].
  destruct (String.eqb_spec e ".."); [contradiction|]. reflexivity.
Qed.

Lemma step_elements_kept (r : bool) (out : list string) (e : string) :
  no_slash e = true -> Forall kept out -> Forall kept (step_elements r out e).
Proof.
  intros He Hout. unfold step_elements.
  destruct (String.eqb_spec e ""); [assumption|].
  destruct (String.eqb_spec e "."); [assumption|]. cbn [orb].
  assert (Hk : kept e) by (repeat split; assumption).
  destruct (String.eqb_spec e "..").
  - destruct out as [|top out].
    + destruct r; [constructor|constructor; [exact Hk|constructor]].
    + destruct (String.eqb top "..").
      * constructor; assumption.
      * inversion Hout; assumption.
  - constructor; assumption.
Qed.

Lemma fold_elements_kept (r : bool) (es out : list string) :
  forallb no_slash es = true -> Forall kept out ->
  Forall kept (fold_left (step_elements r) es out).
Proof.
  revert out. induction es as [|e es IH]; intros out Hes Hout; [exact Hout|].
  simpl in Hes. apply andb_prop in Hes as [He Hes]. cbn [fold_left].
  apply IH; [exact Hes|]. apply step_elements_kept; assumption.
Qed.

Lemma elements_concat (l : list string) :
  l <> [] -> forallb no_slash l = true ->
  GoPath.elements (String.concat "/" l) = l.
Proof.
  induction l as [|e l IH]; [congruence|]. intros _ Hl.
  simpl in Hl. apply andb_prop in Hl as [He Hl].
  destruct l as [|e2 l].
  - apply elements_no_slash. exact He.
  - change (String.concat "/" (e :: e2 :: l))
      with (e +:+ String GoPath.slash (String.concat "/" (e2 :: l))).
    rewrite elements_app_slash, (elements_no_slash e He), IH by (discriminate || assumption).
    reflexivity.
Qed.

Lemma kept_no_slash (l : list string) : Forall kept l -> forallb no_slash l = true.
Proof.
  induction 1 as [|e l (_ & _ & He) _ IH]; [reflexivity|]. simpl. rewrite He, IH. reflexivity.
Qed.

(** Reading the elements of a cleaned path again is reading the elements
    that [path.Clean] kept. *)
Lemma fold_elements_render (r rx : bool) (l out : list string) :
  Forall kept l ->
  fold_left (step_elements r) (GoPath.elements (render rx l)) out
  = fold_left (step_elements r) l out.
Proof.
  intros Hl. pose proof (kept_no_slash l Hl) as Hns.
  destruct l as [|e l].
  - destruct rx; reflexivity.
  - unfold render. destruct rx.
    + change (GoPath.elements (String GoPath.slash (String.concat "/" (e :: l))))
        with ("" :: GoPath.elements (String.concat "/" (e :: l))).
      rewrite elements_concat by (discriminate || assumption). reflexivity.
    + rewrite elements_concat by (discriminate || assumption). reflexivity.
Qed.

Lemma fold_elements_pushed (r : bool) (es out : list string) :
  Forall (fun x => x <> "" /\ x <> ".") out ->
  Forall (fun x => x <> "" /\ x <> ".") (fold_left (step_elements r) es out).
Proof.
  revert out. induction es as [|e es IH]; intros out Hout; [exact Hout|].
  cbn [fold_left]. apply IH. unfold step_elements.
  destruct (String.eqb_spec e ""); [assumption|].
  destruct (String.eqb_spec e "."); [assumption|]. cbn [orb].
  destruct (String.eqb e "..").
  - destruct out as [|top out].
    + destruct r; [assumption|constructor; [split; assumption|constructor]].
    + destruct (String.eqb top ".."); [constructor; [split; assumption|assumption]|].
      inversion Hout; assumption.
  - constructor; [split; assumption|assumption].
Qed.

(** On any stack, the elements of a path do what the elements kept by the
    cleaning of the path as a path without root do. *)
Lemma fold_elements_normal (r : bool) (es out : list string) :
  fold_left (step_elements r) es out
  = fold_left (step_elements r) (rev (fold_left (step_elements false) es [])) out.
Proof.
  induction es as [|e es IH] using rev_ind; [reflexivity|].
  rewrite !fold_left_app. cbn [fold_left]. rewrite IH.
  set (n := fold_left (step_elements false) es []).
  set (s := fold_left (step_elements r) (rev n) out).
  assert (Hn : Forall (fun x => x <> "" /\ x <> ".") n)
    by (apply fold_elements_pushed; constructor).
  destruct (String.eqb_spec e "") as [->|H0]; [reflexivity|].
  destruct (String.eqb_spec e ".") as [->|H1]; [reflexivity|].
  destruct (String.eqb_spec e "..") as [->|H2].
  - (* ".." *)
    destruct n as [|top n'] eqn:En.
    + reflexivity.
    + change (step_elements false (top :: n') "..")
        with (if String.eqb top ".." then ".." :: top :: n' else n').
      destruct (String.eqb_spec top "..") as [->|Htop].
      * subst s. cbn [rev]. rewrite !fold_left_app. reflexivity.
      * inversion Hn as [|? ? [Ht0 Ht1] Hn']; subst.
        subst s. cbn [rev]. rewrite fold_left_app. cbn [fold_left].
        rewrite (step_elements_push r _ top Ht0 Ht1 Htop).
        unfold step_elements at 1.
        change (String.eqb ".." "" || String.eqb ".." ".") with false.
        change (String.eqb ".." "..") with true. cbv iota.
        destruct (String.eqb_spec top ".."); [contradiction|reflexivity].
  - rewrite (step_elements_push false n e H0 H1 H2).
    cbn [rev]. rewrite fold_left_app. reflexivity.
Qed.

(** The elements kept for a rooted path: none of them is "..". *)
Lemma fold_elements_rooted (es out : list string) :
  Forall (fun x => x <> "" /\ x <> "." /\ x <> "..") out ->
  Forall (fun x => x <> "" /\ x <> "." /\ x <> "..")
    (fold_left (step_elements true) es out).
Proof.
  revert out. induction es as [|e es IH]; intros out Hout; [exact Hout|].
  cbn [fold_left]. apply IH. unfold step_elements.
  destruct (String.eqb_spec e ""); [assumption|].
  destruct (String.eqb_spec e "."); [assumption|]. cbn [orb].
  destruct (String.eqb_spec e "..").
  - destruct out as [|top out]; [assumption|].
    inversion Hout as [|? ? (_ & _ & Htop) Hout']; subst.
    destruct (String.eqb_spec top ".."); [contradiction|assumption].
  - constructor; [repeat split; assumption|assumption].
Qed.

Lemma fold_elements_push_all (r : bool) (l out : list string) :
  Forall (fun x => x <> "" /\ x <> "." /\ x <> "..") l ->
  fold_left (step_elements r) l out = (rev l ++ out)%list.
Proof.
  revert out. induction l as [|e l IH]; intros out Hl; [reflexivity|].
  inversion Hl as [|? ? (H0 & H1 & H2) Hl']; subst.
  cbn [fold_left]. rewrite (step_elements_push r out e H0 H1 H2), IH by assumption.
  cbn [rev]. rewrite <- app_assoc. reflexivity.
Qed.

(** The elements that [path.Clean] keeps are kept again. *)
Lemma fold_elements_again (r : bool) (es : list string) :
  fold_left (step_elements r) (rev (fold_left (step_elements r) es [])) []
  = fold_left (step_elements r) es [].
Proof.
  destruct r.
  - rewrite fold_elements_push_all.
    + rewrite rev_involutive, app_nil_r. reflexivity.
    + apply Forall_rev, fold_elements_rooted. constructor.
  - symmetry. apply fold_elements_normal.
Qed.

Lemma rooted_render (r : bool) (l : list string) :
  Forall kept l -> GoPath.rooted (render r l) = r.
Proof.
  intros Hl. destruct r; [reflexivity|].
  destruct l as [|e l]; [reflexivity|].
  inversion Hl as [|? ? (H0 & _ & Hs) _]; subst.
  destruct e as [|c e]; [congruence|].
  simpl in Hs. apply andb_prop in Hs as [Hc _]. apply negb_true_iff in Hc.
  unfold render. destruct l; exact Hc.
Qed.

Lemma Clean_kept (p : string) :
  Forall kept (rev (fold_left (step_elements (GoPath.rooted p)) (GoPath.elements p) [])).
Proof.
  apply Forall_rev, fold_elements_kept; [apply elements_no_slashes|constructor].
Qed.

Lemma rooted_Clean (p : string) : GoPath.rooted (GoPath.Clean p) = GoPath.rooted p.
Proof. rewrite Clean_render. apply rooted_render, Clean_kept. Qed.

Lemma Clean_nonempty (p : string) : GoPath.Clean p <> "".
Proof.
  rewrite Clean_render. unfold render. pose proof (Clean_kept p) as Hk.
  destruct (GoPath.rooted p); [discriminate|].
  destruct (rev _) as [|e l]; [discriminate|].
  inversion Hk as [|? ? (H0 & _) _]; subst.
  destruct l; [assumption|]. destruct e; [congruence|discriminate].
Qed.

Lemma rooted_append (a b : string) :
  a <> "" -> GoPath.rooted (a +:+ b) = GoPath.rooted a.
Proof. destruct a; [congruence|reflexivity]. Qed.

(** [path.Clean] of two paths joined by a slash, by their elements. *)
Lemma Clean_app_slash (a b : string) :
  a <> "" ->
  GoPath.Clean (a +:+ String GoPath.slash b)
  = cleaned (GoPath.rooted a) (GoPath.elements a ++ GoPath.elements b).
Proof.
  intros Ha. rewrite Clean_render, rooted_append, elements_app_slash by assumption.
  reflexivity.
Qed.

(** [path.Clean] is idempotent. *)
Lemma Clean_idempotent (p : string) : GoPath.Clean (GoPath.Clean p) = GoPath.Clean p.
Proof.
  rewrite (Clean_render (GoPath.Clean p)), rooted_Clean.
  rewrite (Clean_render p) at 1.
  rewrite fold_elements_render by apply Clean_kept.
  rewrite fold_elements_again. symmetry. apply Clean_render.
Qed.

(** A cleaned path in front of a slash may as well not be cleaned. *)
Lemma Clean_left (x c : string) :
  x <> "" ->
  GoPath.Clean (GoPath.Clean x +:+ String GoPath.slash c)
  = GoPath.Clean (x +:+ String GoPath.slash c).
Proof.
  intros Hx. rewrite !Clean_app_slash by (apply Clean_nonempty || assumption).
  rewrite rooted_Clean. unfold cleaned. rewrite !fold_left_app.
  rewrite (Clean_render x) at 1.
  rewrite fold_elements_render by apply Clean_kept.
  rewrite fold_elements_again. reflexivity.
Qed.

Lemma Join_drop_empty (es : list string) : GoPath.Join es = GoPath.Join (drop_empty es).
Proof.
  induction es as [|e es IH]; [reflexivity|]. simpl.
  destruct (String.eqb e "") eqn:E; [exact IH|]. simpl. rewrite E. reflexivity.
Qed.

Lemma drop_empty_head (es : list string) (e : string) (tl : list string) :
  drop_empty es = e :: tl -> e <> "".
Proof.
  induction es as [|x es IH]; simpl; [discriminate|].
  destruct (String.eqb_spec x ""); [exact IH|]. intros [= -> _]. assumption.
Qed.

Lemma elements_concat_list (es : list string) :
  es <> [] ->
  GoPath.elements (String.concat "/" es) = flat_map GoPath.elements es.
Proof.
  induction es as [|e es IH]; [congruence|]. intros _.
  destruct es as [|e2 es].
  - simpl. rewrite app_nil_r. reflexivity.
  - change (String.concat "/" (e :: e2 :: es))
      with (e +:+ String GoPath.slash (String.concat "/" (e2 :: es))).
    rewrite elements_app_slash, IH by discriminate. reflexivity.
Qed.

Lemma rooted_concat (e : string) (rest : list string) :
  e <> "" -> GoPath.rooted (String.concat "/" (e :: rest)) = GoPath.rooted e.
Proof.
  intros He. destruct rest as [|e2 rest]; [reflexivity|].
  change (String.concat "/" (e :: e2 :: rest))
    with (e +:+ String GoPath.slash (String.concat "/" (e2 :: rest))).
  apply rooted_append. exact He.
Qed.

Lemma all_elements_no_slashes (es : list string) :
  forallb no_slash (flat_map GoPath.elements es) = true.
Proof.
  induction es as [|e es IH]; [reflexivity|].
  simpl. rewrite forallb_app, elements_no_slashes. exact IH.
Qed.

(** [path.Join] by the elements of its arguments. *)
Lemma Join_cleaned (e : string) (rest : list string) :
  e <> "" ->
  GoPath.Join (e :: rest)
  = cleaned (GoPath.rooted e) (flat_map GoPath.elements (e :: rest)).
Proof.
  intros He.
  change (GoPath.Join (e :: rest))
    with (if String.eqb e "" then GoPath.Join rest
          else GoPath.Clean (String.concat "/" (e :: rest))).
  destruct (String.eqb_spec e ""); [contradiction|].
  rewrite Clean_render, rooted_concat by assumption.
  rewrite elements_concat_list by discriminate. reflexivity.
Qed.

Lemma fold_elements_empties (r : bool) (m rest out : list string) :
  fold_left (step_elements r) (flat_map GoPath.elements (m ++ rest)) out
  = fold_left (step_elements r) (flat_map GoPath.elements (drop_empty m ++ rest)) out.
Proof.
  induction m as [|e m IH]; [reflexivity|]. simpl drop_empty.
  destruct (String.eqb_spec e "") as [->|He]; [|reflexivity].
  exact IH.
Qed.

Lemma Join_app_drop_empty (m rest : list string) :
  GoPath.Join (m ++ rest) = GoPath.Join (drop_empty m ++ rest).
Proof.
  induction m as [|e m IH]; [reflexivity|]. simpl.
  destruct (String.eqb e "") eqn:E; [exact IH|]. simpl. rewrite E. reflexivity.
Qed.

(** In front of the other arguments, a joined path may be replaced by the
    arguments it was joined from. *)
Theorem Join_nest_left (m rest : list string) :
  GoPath.Join (GoPath.Join m :: rest) = GoPath.Join (m ++ rest).
Proof.
  rewrite (Join_drop_empty m), (Join_app_drop_empty m rest).
  destruct (drop_empty m) as [|e tl] eqn:Em; [reflexivity|].
  pose proof (drop_empty_head m e tl Em) as He.
  cbn [app]. rewrite (Join_cleaned e (tl ++ rest) He).
  assert (Hj : GoPath.Join (e :: tl) <> "").
  { change (GoPath.Join (e :: tl))
      with (if String.eqb e "" then GoPath.Join tl
            else GoPath.Clean (String.concat "/" (e :: tl))).
    destruct (String.eqb_spec e ""); [contradiction|]. apply Clean_nonempty. }
  rewrite (Join_cleaned _ rest Hj).
  rewrite (Join_cleaned e tl He) at 1 2.
  unfold cleaned at 2. rewrite rooted_render
    by (apply Forall_rev, fold_elements_kept;
        [apply all_elements_no_slashes|constructor]).
  unfold cleaned. f_equal. f_equal.
  change (flat_map GoPath.elements (?x :: rest))
    with (GoPath.elements x ++ flat_map GoPath.elements rest)%list.
  change (e :: tl ++ rest)%list with ((e :: tl) ++ rest)%list.
  rewrite flat_map_app, !fold_left_app. f_equal.
  rewrite fold_elements_render.
  - apply fold_elements_again.
  - apply Forall_rev, fold_elements_kept;
      [apply all_elements_no_slashes|constructor].
Qed.

Lemma all_elements_kept (r : bool) (es : list string) :
  Forall kept (rev (fold_left (step_elements r) (flat_map GoPath.elements es) [])).
Proof.
  apply Forall_rev, fold_elements_kept; [apply all_elements_no_slashes|constructor].
Qed.

(** Behind other elements, the elements of a joined path without root do
    what the elements of its arguments do. *)
Lemma fold_elements_Join (r : bool) (m out : list string) :
  GoPath.rooted (GoPath.Join m) = false ->
  fold_left (step_elements r) (GoPath.elements (GoPath.Join m)) out
  = fold_left (step_elements r) (flat_map GoPath.elements m) out.
Proof.
  rewrite (Join_drop_empty m).
  pose proof (fold_elements_empties r m [] out) as Hdrop.
  rewrite !app_nil_r in Hdrop. rewrite Hdrop. clear Hdrop.
  destruct (drop_empty m) as [|e tl] eqn:Em; [reflexivity|].
  pose proof (drop_empty_head m e tl Em) as He.
  rewrite (Join_cleaned e tl He). unfold cleaned. intros Hr.
  rewrite rooted_render in Hr by apply all_elements_kept. rewrite Hr.
  rewrite fold_elements_render by apply all_elements_kept.
  symmetry. apply fold_elements_normal.
Qed.

(** Among the arguments of [path.Join], a joined path without root may be
    replaced by the arguments it was joined from. *)
Theorem Join_nest (l m rest : list string) :
  GoPath.rooted (GoPath.Join m) = false ->
  GoPath.Join (l ++ GoPath.Join m :: rest) = GoPath.Join (l ++ m ++ rest).
Proof.
  intros Hm. induction l as [|e l IH]; [exact (Join_nest_left m rest)|].
  cbn [app]. destruct (String.eqb_spec e "") as [->|He]; [exact IH|].
  rewrite !Join_cleaned by assumption. unfold cleaned. f_equal. f_equal.
  change (e :: l ++ GoPath.Join m :: rest)%list
    with ((e :: l) ++ [GoPath.Join m] ++ rest)%list.
  change (e :: l ++ m ++ rest)%list with ((e :: l) ++ m ++ rest)%list.
  rewrite !flat_map_app, !fold_left_app. f_equal.
  cbn [flat_map]. rewrite app_nil_r. apply fold_elements_Join. exact Hm.
Qed.

Lemma plain_elements_push (r : bool) (l out : list string) :
  forallb plain_element l = true ->
  fold_left (step_elements r) l out = (rev l ++ out)%list.
Proof.
  intros Hl. apply fold_elements_push_all.
  apply List.Forall_forall. intros e He.
  rewrite forallb_forall in Hl. destruct (plain_element_inv e (Hl e He)) as (? & ? & ? & _).
  auto.
Qed.

Lemma concat_app (l1 l2 : list string) :
  l1 <> [] -> l2 <> [] ->
  String.concat "/" (l1 ++ l2)
  = String.concat "/" l1 +:+ "/" +:+ String.concat "/" l2.
Proof.
  intros H1 H2. induction l1 as [|x l1 IH]; [congruence|].
  destruct l1 as [|y l1].
  - destruct l2; [congruence|reflexivity].
  - change (String.concat "/" ((x :: y :: l1) ++ l2))
      with (x +:+ "/" +:+ String.concat "/" ((y :: l1) ++ l2)).
    rewrite IH by discriminate.
    change (String.concat "/" (x :: y :: l1))
      with (x +:+ "/" +:+ String.concat "/" (y :: l1)).
    rewrite !append_assoc. reflexivity.
Qed.

Lemma concat_all_elements (es : list string) :
  es <> [] ->
  String.concat "/" (flat_map GoPath.elements es) = String.concat "/" es.
Proof.
  induction es as [|e es IH]; [congruence|]. intros _.
  destruct es as [|e2 es].
  - simpl. rewrite app_nil_r. apply concat_elements.
  - cbn [flat_map]. rewrite concat_app.
    + rewrite concat_elements. cbn [flat_map] in IH. rewrite IH by discriminate.
      reflexivity.
    + apply elements_nonempty.
    + pose proof (elements_nonempty e2). destruct (GoPath.elements e2); [congruence|discriminate].
Qed.

(** [path.Join] of a plain path and plain paths without root is the
    arguments with slashes between them. *)
Lemma Join_plain_list (e : string) (rest : list string) :
  plain_path e = true -> forallb plain_relative rest = true ->
  GoPath.Join (e :: rest) = String.concat "/" (e :: rest).
Proof.
  intros He Hrest.
  assert (Hne : e <> "") by (intros ->; discriminate He).
  assert (Hall : forallb plain_element (flat_map GoPath.elements rest) = true).
  { clear -Hrest. induction rest as [|x rest IH]; [reflexivity|].
    simpl in Hrest. apply andb_prop in Hrest as [Hx Hrest].
    simpl. rewrite forallb_app. unfold plain_relative in Hx. rewrite Hx. exact (IH Hrest). }
  rewrite (Join_cleaned e rest Hne). unfold cleaned.
  rewrite <- (concat_all_elements (e :: rest)) by discriminate.
  cbn [flat_map]. unfold plain_path in He.
  destruct (GoPath.rooted e) eqn:R.
  - destruct (elements_rooted e R) as (x & xs & E). rewrite E in *.
    change (fold_left (step_elements true) (("" :: x :: xs) ++ ?l) [])
      with (fold_left (step_elements true) ((x :: xs) ++ l) []).
    rewrite plain_elements_push by (rewrite forallb_app, He, Hall; reflexivity).
    rewrite app_nil_r, rev_involutive. reflexivity.
  - destruct (elements_unrooted e R) as [E|(c & x & xs & E)]; rewrite E in *.
    + discriminate He.
    + rewrite plain_elements_push by (rewrite forallb_app, He, Hall; reflexivity).
      rewrite app_nil_r, rev_involutive. reflexivity.
Qed.

(** ** More on the helpers of a check-access request *)

Lemma getValidSecurityGroups_acc (groups acc : list string) :
  fold_left (fun finalGroups element =>
               if isValidUUID element then (finalGroups ++ [element])%list
               else finalGroups) groups acc
  = (acc ++ List.filter isValidUUID groups)%list.
Proof.
  revert acc. induction groups as [|g groups IH]; intros acc; simpl.
  - rewrite app_nil_r. reflexivity.
  - rewrite IH. destruct (isValidUUID g); [|reflexivity].
    rewrite <- app_assoc. reflexivity.
Qed.

(** X1: [getValidSecurityGroups] keeps exactly the groups that
    [isValidUUID] accepts, in their order and as often as they occur. *)
Theorem getValidSecurityGroups_filter (groups : list string) :
  getValidSecurityGroups groups = List.filter isValidUUID groups.
Proof. unfold getValidSecurityGroups. apply getValidSecurityGroups_acc. Qed.

Lemma Join_skip_empty (l rest : list string) :
  GoPath.Join (l ++ "" :: rest) = GoPath.Join (l ++ rest).
Proof. exact (Join_nest l [] rest eq_refl). Qed.

Lemma Join_optional (l rest : list string) (s : string) :
  GoPath.Join (l ++ optional s ++ rest) = GoPath.Join (l ++ s :: rest).
Proof.
  unfold optional. destruct (String.eqb_spec s "") as [->|_]; [|reflexivity].
  symmetry. apply Join_skip_empty.
Qed.

Lemma getResultCacheKey_Join (r : SubjectAccessReviewSpec) (ra : ResourceAttributes) :
  sar_ResourceAttributes r = Some ra ->
  getResultCacheKey r
  = GoPath.Join [sar_User r; ra_Namespace ra; ra_Group ra; ra_Resource ra;
                 getActionName (ra_Verb ra)].
Proof.
  intros Hra. unfold getResultCacheKey. rewrite Hra.
  set (u := sar_User r). set (res := ra_Resource ra).
  set (act := getActionName (ra_Verb ra)).
  transitivity (GoPath.Join ([u] ++ optional (ra_Namespace ra)
                             ++ optional (ra_Group ra) ++ [res; act])).
  - unfold optional.
    destruct (String.eqb (ra_Namespace ra) ""), (String.eqb (ra_Group ra) "");
      cbn [negb app].
    + reflexivity.
    + apply (Join_nest_left [u; ra_Group ra] [res; act]).
    + apply (Join_nest_left [u; ra_Namespace ra] [res; act]).
    + rewrite (Join_nest_left [GoPath.Join [u; ra_Namespace ra]; ra_Group ra] [res; act]).
      apply (Join_nest_left [u; ra_Namespace ra] [ra_Group ra; res; act]).
  - rewrite (Join_optional [u] (optional (ra_Group ra) ++ [res; act]) (ra_Namespace ra)).
    apply (Join_optional [u; ra_Namespace ra] [res; act] (ra_Group ra)).
Qed.

Lemma getResultCacheKey_resource_request (u ns group resource verb name : string)
    (extra : gmap string ExtraValue) :
  getResultCacheKey (resource_request u ns group resource verb name extra)
  = GoPath.Join [u; ns; group; resource; getActionName verb].
Proof.
  apply (getResultCacheKey_Join (resource_request u ns group resource verb name extra)
           {| ra_Namespace := ns; ra_Verb := verb; ra_Group := group;
              ra_Version := "v1"; ra_Resource := resource;
              ra_Subresource := "status"; ra_Name := name |}).
  reflexivity.
Qed.

Lemma Join_split (e a b : string) (l rest : list string) :
  e <> "" ->
  GoPath.Join (e :: l ++ (a +:+ String GoPath.slash b) :: rest)
  = GoPath.Join (e :: l ++ a :: b :: rest).
Proof.
  intros He. rewrite !Join_cleaned by assumption. f_equal.
  change (e :: l ++ (a +:+ String GoPath.slash b) :: rest)%list
    with ((e :: l) ++ [a +:+ String GoPath.slash b] ++ rest)%list.
  change (e :: l ++ a :: b :: rest)%list with ((e :: l) ++ [a; b] ++ rest)%list.
  rewrite !flat_map_app. cbn [flat_map]. rewrite elements_app_slash, !app_nil_r.
  reflexivity.
Qed.

Lemma Join_split_head (a b : string) (rest : list string) :
  a <> "" ->
  GoPath.Join ((a +:+ String GoPath.slash b) :: rest) = GoPath.Join (a :: b :: rest).
Proof.
  intros Ha.
  assert (Hab : a +:+ String GoPath.slash b <> "") by (destruct a; [congruence|discriminate]).
  rewrite !Join_cleaned by assumption. rewrite rooted_append by assumption. f_equal.
  cbn [flat_map]. rewrite elements_app_slash, <- app_assoc. reflexivity.
Qed.

(** X2: cache keys do not keep the user apart from the namespace: the
    request of user [u] in namespace [ns] and the request of the user named
    [u/ns] outside any namespace have the same key, whatever group, resource
    and verb they share. *)
Theorem getResultCacheKey_user_namespace (u ns group resource verb name1 name2 : string)
    (extra1 extra2 : gmap string ExtraValue) :
  u <> "" ->
  getResultCacheKey
    (resource_request (u +:+ "/" +:+ ns) "" group resource verb name1 extra1)
  = getResultCacheKey (resource_request u ns group resource verb name2 extra2).
Proof.
  intros Hu. rewrite !getResultCacheKey_resource_request.
  change (u +:+ "/" +:+ ns) with (u +:+ String GoPath.slash ns).
  rewrite (Join_split_head u ns _ Hu).
  exact (Join_skip_empty [u; ns] [group; resource; getActionName verb]).
Qed.

Lemma getResultCacheKey_user_namespace_witness :
  getResultCacheKey (resource_request "beta@bing.com/dev" "" "" "pods" "get" "web" ∅)
  = getResultCacheKey (resource_request "beta@bing.com" "dev" "" "pods" "get" "db" ∅).
Proof.
  apply (getResultCacheKey_user_namespace "beta@bing.com" "dev" "" "pods" "get"
           "web" "db" ∅ ∅).
  discriminate.
Defined.

(** X3: cache keys do not keep resources apart from paths: the request
    for the path [/ns/resource] and the request for [resource] in namespace
    [ns], outside any group, have the same key when user and verb are the
    same. *)
Theorem getResultCacheKey_path_resource (u ns resource verb name : string)
    (extra1 extra2 : gmap string ExtraValue) :
  u <> "" ->
  getResultCacheKey
    (non_resource_request u ("/" +:+ ns +:+ "/" +:+ resource) verb extra1)
  = getResultCacheKey (resource_request u ns "" resource verb name extra2).
Proof.
  intros Hu. rewrite getResultCacheKey_resource_request.
  unfold getResultCacheKey, non_resource_request.
  cbn [sar_ResourceAttributes sar_NonResourceAttributes sar_User nra_Path nra_Verb].
  change ("/" +:+ ns +:+ "/" +:+ resource)
    with ("" +:+ String GoPath.slash (ns +:+ String GoPath.slash resource)).
  pose proof (Join_split u "" (ns +:+ String GoPath.slash resource) []
                [getActionName verb] Hu) as H1.
  pose proof (Join_split u ns resource [""] [getActionName verb] Hu) as H2.
  pose proof (Join_skip_empty [u] [ns; resource; getActionName verb]) as H3.
  pose proof (Join_skip_empty [u; ns] [resource; getActionName verb]) as H4.
  cbn [app] in H1, H2, H3, H4. rewrite H1, H2, H3, H4. reflexivity.
Qed.

Lemma getResultCacheKey_path_resource_witness :
  getResultCacheKey (non_resource_request "beta@bing.com" "/dev/pods" "get" ∅)
  = getResultCacheKey (resource_request "beta@bing.com" "dev" "" "pods" "get" "db" ∅).
Proof.
  apply (getResultCacheKey_path_resource "beta@bing.com" "dev" "pods" "get" "db" ∅ ∅).
  discriminate.
Defined.

Lemma Join_drop_fields (l fields : list string) :
  GoPath.Join (l ++ fields) = GoPath.Join (l ++ flat_map optional fields).
Proof.
  revert l. induction fields as [|s fields IH]; intros l; [reflexivity|].
  cbn [flat_map]. unfold optional at 1.
  destruct (String.eqb_spec s "") as [->|_]; cbn [app].
  - rewrite Join_skip_empty. apply IH.
  - change (l ++ s :: fields)%list with (l ++ [s] ++ fields)%list.
    change (l ++ s :: flat_map optional fields)%list
      with (l ++ [s] ++ flat_map optional fields)%list.
    rewrite !app_assoc. apply IH.
Qed.

Lemma Join_plain_fields (e : string) (fields : list string) :
  plain_path e = true ->
  Forall (fun s => s = "" \/ plain_relative s = true) fields ->
  GoPath.Join (e :: fields) = String.concat "/" (e :: flat_map optional fields).
Proof.
  intros He Hfields.
  pose proof (Join_drop_fields [e] fields) as Hdrop. cbn [app] in Hdrop.
  rewrite Hdrop. clear Hdrop. apply Join_plain_list; [exact He|].
  induction Hfields as [|s fields Hs _ IH]; [reflexivity|].
  cbn [flat_map]. unfold optional at 1.
  destruct (String.eqb_spec s "") as [->|Hne]; cbn [app]; [exact IH|].
  destruct Hs as [Hs|Hs]; [contradiction|].
  cbn [forallb]. rewrite Hs. exact IH.
Qed.

Lemma getActionName_plain (verb : string) :
  In verb table_verbs -> plain_relative (getActionName verb) = true.
Proof.
  unfold table_verbs. simpl.
  intros H. repeat (destruct H as [<-|H]; [reflexivity|]). contradiction.
Qed.

(** X4: the cache key of a request for a resource is one [path.Join] of
    its user, namespace, group, resource and action: the emptiness tests and
    the nested calls of the code add nothing to it.  For a verb of the table
    and fields that are plain paths it reads
    user/namespace/group/resource/action, without the namespace and the
    group that are empty. *)
Theorem getResultCacheKey_shape (r : SubjectAccessReviewSpec) (ra : ResourceAttributes) :
  sar_ResourceAttributes r = Some ra ->
  getResultCacheKey r
  = GoPath.Join [sar_User r; ra_Namespace ra; ra_Group ra; ra_Resource ra;
                 getActionName (ra_Verb ra)]
  /\ (plain_path (sar_User r) = true ->
      (ra_Namespace ra = "" \/ plain_relative (ra_Namespace ra) = true) ->
      (ra_Group ra = "" \/ plain_relative (ra_Group ra) = true) ->
      plain_relative (ra_Resource ra) = true ->
      In (ra_Verb ra) table_verbs ->
      getResultCacheKey r
      = String.concat "/"
          (sar_User r :: optional (ra_Namespace ra) ++ optional (ra_Group ra)
             ++ [ra_Resource ra; getActionName (ra_Verb ra)])).
Proof.
  intros Hra. pose proof (getResultCacheKey_Join r ra Hra) as Hkey.
  split; [exact Hkey|].
  intros Hu Hns Hg Hres Hverb. rewrite Hkey.
  rewrite Join_plain_fields; [|exact Hu|].
  - cbn [flat_map]. unfold optional at 3 4.
    destruct (String.eqb_spec (ra_Resource ra) "") as [E|_];
      [rewrite E in Hres; discriminate Hres|].
    pose proof (getActionName_plain _ Hverb) as Hact.
    destruct (String.eqb_spec (getActionName (ra_Verb ra)) "") as [E|_];
      [rewrite E in Hact; discriminate Hact|].
    rewrite app_nil_r. reflexivity.
  - pose proof (getActionName_plain _ Hverb) as Hact.
    constructor; [exact Hns|]. constructor; [exact Hg|].
    constructor; [right; exact Hres|]. constructor; [right; exact Hact|].
    constructor.
Qed.

Lemma getResultCacheKey_shape_witness :
  getResultCacheKey beta_request = "beta@bing.com/dev/pods/delete".
Proof.
  apply (proj2 (getResultCacheKey_shape beta_request
                  {| ra_Namespace := "dev"; ra_Verb := "delete"; ra_Group := "";
                     ra_Version := "v1"; ra_Resource := "pods";
                     ra_Subresource := "status"; ra_Name := "test" |} eq_refl)).
  - reflexivity.
  - right. reflexivity.
  - left. reflexivity.
  - reflexivity.
  - simpl. tauto.
Defined.

Lemma getDataAction_flat (r : SubjectAccessReviewSpec) (ra : ResourceAttributes)
    (ct : string) :
  sar_ResourceAttributes r = Some ra ->
  Id (aai_AuthorizationEntity (getDataAction r ct))
  = GoPath.Join [ct; ra_Group ra; ra_Resource ra; getActionName (ra_Verb ra)].
Proof.
  intros Hra. unfold getDataAction. rewrite Hra. cbn [Id aai_AuthorizationEntity].
  pose proof (Join_optional [ct] [ra_Resource ra; getActionName (ra_Verb ra)]
                (ra_Group ra)) as Hopt.
  cbn [app] in Hopt. rewrite <- Hopt. unfold optional.
  destruct (String.eqb (ra_Group ra) ""); cbn [negb app]; [reflexivity|].
  exact (Join_nest_left [ct; ra_Group ra] [ra_Resource ra; getActionName (ra_Verb ra)]).
Qed.

Lemma Join_plain_optional (e s : string) (rest : list string) :
  plain_path e = true -> (s = "" \/ plain_relative s = true) ->
  forallb plain_relative rest = true ->
  GoPath.Join (e :: s :: rest) = String.concat "/" (e :: optional s ++ rest).
Proof.
  intros He [->|Hs] Hrest.
  - pose proof (Join_skip_empty [e] rest) as Hskip. cbn [app] in Hskip.
    rewrite Hskip. apply Join_plain_list; assumption.
  - unfold optional. destruct (String.eqb_spec s "") as [->|_]; [discriminate Hs|].
    apply Join_plain_list; [assumption|]. simpl. rewrite Hs. exact Hrest.
Qed.

(** X5: for a verb of the table, and a cluster type, group and resource
    that are plain paths, the action sent to the remote side reads
    clusterType/group/resource/action, without the group when it is empty. *)
Theorem getDataAction_shape (r : SubjectAccessReviewSpec) (ra : ResourceAttributes)
    (ct : string) :
  sar_ResourceAttributes r = Some ra ->
  plain_path ct = true ->
  (ra_Group ra = "" \/ plain_relative (ra_Group ra) = true) ->
  plain_relative (ra_Resource ra) = true ->
  In (ra_Verb ra) table_verbs ->
  getDataAction r ct
  = {| aai_AuthorizationEntity :=
         {| Id := String.concat "/"
                    (ct :: optional (ra_Group ra)
                        ++ [ra_Resource ra; getActionName (ra_Verb ra)]) |};
       IsDataAction := true |}.
Proof.
  intros Hra Hct Hg Hres Hverb.
  pose proof (getDataAction_flat r ra ct Hra) as Hflat.
  rewrite Join_plain_optional in Hflat;
    [ | assumption | assumption
      | simpl; rewrite Hres, (getActionName_plain _ Hverb); reflexivity ].
  rewrite <- Hflat. unfold getDataAction. reflexivity.
Qed.

Lemma getDataAction_shape_witness :
  getDataAction (resource_request "beta@bing.com" "dev" "apps" "deployments" "patch" "web" ∅)
    managedClusters
  = {| aai_AuthorizationEntity :=
         {| Id := "Microsoft.ContainerService/managedClusters/apps/deployments/write" |};
       IsDataAction := true |}.
Proof.
  apply (getDataAction_shape
           (resource_request "beta@bing.com" "dev" "apps" "deployments" "patch" "web" ∅)
           {| ra_Namespace := "dev"; ra_Verb := "patch"; ra_Group := "apps";
              ra_Version := "v1"; ra_Resource := "deployments";
              ra_Subresource := "status"; ra_Name := "web" |}
           managedClusters eq_refl).
  - reflexivity.
  - right. reflexivity.
  - reflexivity.
  - simpl. tauto.
Defined.

(** X6: for a verb outside the table the action has no last part: it is
    the [path.Join] of cluster type, group and resource, which for plain
    paths reads clusterType/group/resource. *)
Theorem getDataAction_unknown_verb (r : SubjectAccessReviewSpec)
    (ra : ResourceAttributes) (ct : string) :
  sar_ResourceAttributes r = Some ra ->
  ~ In (ra_Verb ra) table_verbs ->
  Id (aai_AuthorizationEntity (getDataAction r ct))
  = GoPath.Join [ct; ra_Group ra; ra_Resource ra]
  /\ (plain_path ct = true ->
      (ra_Group ra = "" \/ plain_relative (ra_Group ra) = true) ->
      plain_relative (ra_Resource ra) = true ->
      Id (aai_AuthorizationEntity (getDataAction r ct))
      = String.concat "/" (ct :: optional (ra_Group ra) ++ [ra_Resource ra])).
Proof.
  intros Hra Hverb.
  assert (Hid : Id (aai_AuthorizationEntity (getDataAction r ct))
                = GoPath.Join [ct; ra_Group ra; ra_Resource ra]).
  { rewrite (getDataAction_flat r ra ct Hra), (getActionName_other _ Hverb).
    exact (Join_skip_empty [ct; ra_Group ra; ra_Resource ra] []). }
  split; [exact Hid|]. intros Hct Hg Hres. rewrite Hid.
  apply Join_plain_optional; [assumption|assumption|].
  simpl. rewrite Hres. reflexivity.
Qed.

Lemma getDataAction_unknown_verb_witness :
  Id (aai_AuthorizationEntity
        (getDataAction (resource_request "beta@bing.com" "dev" "" "pods" "proxy" "web" ∅)
           connectedClusters))
  = "Microsoft.Kubernetes/connectedClusters/pods".
Proof.
  refine (proj2 (getDataAction_unknown_verb
                   (resource_request "beta@bing.com" "dev" "" "pods" "proxy" "web" ∅)
                   {| ra_Namespace := "dev"; ra_Verb := "proxy"; ra_Group := "";
                      ra_Version := "v1"; ra_Resource := "pods";
                      ra_Subresource := "status"; ra_Name := "web" |}
                   connectedClusters eq_refl _) _ _ _).
  - simpl. intros H. repeat (destruct H as [H|H]; [discriminate H|]). exact H.
  - reflexivity.
  - left. reflexivity.
  - reflexivity.
Defined.

(** X7: the namespace part of the URL and the scope of the request body
    are made alike: when [getNameSpaceScope] finds a namespace, the scope is
    the resource id joined with the string it returns, and when it finds
    none, the scope is the resource id and the string is empty. *)
Theorem getScope_getNameSpaceScope (resourceId : string) (req : SubjectAccessReviewSpec) :
  getScope resourceId (sar_ResourceAttributes req)
  = (if (getNameSpaceScope req).1
     then GoPath.Join [resourceId; (getNameSpaceScope req).2]
     else resourceId)
  /\ ((getNameSpaceScope req).1 = false -> (getNameSpaceScope req).2 = "").
Proof.
  unfold getScope, getNameSpaceScope.
  destruct (sar_ResourceAttributes req) as [ra|]; [|split; reflexivity].
  destruct (String.eqb (ra_Namespace ra) ""); cbn [negb fst snd];
    [split; reflexivity|].
  split; [|discriminate]. symmetry.
  apply (Join_nest [resourceId] [namespaces; ra_Namespace ra] []).
  change (GoPath.Join [namespaces; ra_Namespace ra])
    with (GoPath.Clean (String.concat "/" [namespaces; ra_Namespace ra])).
  rewrite rooted_Clean. reflexivity.
Qed.

(** X8: [prepareCheckAccessRequestBody] returns a request body exactly
    when the extra claims have an "oid" entry whose values, joined by
    spaces, pass the test of [isValidUUID]: a well-formed UUID, or a text
    of 38 bytes around a hyphenated UUID, whatever its first and last byte.
    The body then names that text as the object id, the groups of the
    request that pass the same test (none when group memberships are to be
    retrieved), the one action of [getDataAction] and the scope of
    [getScope]. *)
Theorem prepareCheckAccessRequestBody_ok (req : SubjectAccessReviewSpec)
    (ct rid : string) (rgm : bool) (body : CheckAccessRequest) :
  prepareCheckAccessRequestBody req ct rid rgm = inr body
  <-> exists oid,
        sar_Extra req !! "oid" = Some oid
        /\ well_formed_UUID (oid_text oid) || wrapped_UUID (oid_text oid) = true
        /\ body = {| Subject := {| Attributes :=
                       {| ObjectId := oid_text oid;
                          sia_Groups :=
                            if rgm then []
                            else List.filter
                                   (fun g => well_formed_UUID g || wrapped_UUID g)
                                   (sar_Groups req);
                          RetrieveGroupMemberships := rgm |} |};
                     Actions := [getDataAction req ct];
                     Resource := {| Id := getScope rid (sar_ResourceAttributes req) |} |}.
Proof.
  rewrite <- (List.filter_ext isValidUUID _ isValidUUID_forms (sar_Groups req)).
  unfold prepareCheckAccessRequestBody.
  destruct (sar_Extra req !! "oid") as [oid|].
  - cbv zeta. rewrite ExtraValue_String_inner.
    unfold getValidSecurityGroups. rewrite getValidSecurityGroups_acc. cbn [app].
    destruct (isValidUUID (oid_text oid)) eqn:Hvalid.
    + split.
      * intros [= <-]. exists oid. rewrite <- isValidUUID_forms.
        destruct rgm; auto.
      * intros (oid' & [= <-] & _ & ->). destruct rgm; reflexivity.
    + split; [discriminate|].
      intros (oid' & [= <-] & Hvalid' & _).
      rewrite <- isValidUUID_forms, Hvalid in Hvalid'. discriminate.
  - split; [discriminate|]. intros (oid & Hoid & _). discriminate Hoid.
Qed.

(** A text of 38 bytes that is no well-formed UUID and passes the test:
    the body is made, with the text as it is for the object id. *)
Lemma prepareCheckAccessRequestBody_wrapped_oid :
  well_formed_UUID "x00000000-0000-0000-0000-000000000000y" = false
  /\ exists body,
       prepareCheckAccessRequestBody wrapped_oid_request connectedClusters
         "resourceId" true = inr body
       /\ ObjectId (Attributes (Subject body))
          = "x00000000-0000-0000-0000-000000000000y".
Proof.
  split; [vm_compute; reflexivity|].
  eexists. split; vm_compute; reflexivity.
Qed.

(** ** More on the client *)

Section AfterSend.
Context `{JSON} `{HTTP} `{Store}.

(** What an invocation that sent [req] leaves: the calls it made, and the
    cache as it was, or with the decision written. *)
Lemma CheckAccess_after_send (a : AccessInfo) (request : SubjectAccessReviewSpec)
    (req : Request) (w : World) :
  reaches_remote_call a request req ->
  w_events (CheckAccess a request w).2 = (calls_made a req ++ w_events w)%list
  /\ match client_Do req with
     | inl err =>
         (CheckAccess a request w).1
         = Err (errors_Wrap err "error in check access request execution")
         /\ w_store (CheckAccess a request w).2 = w_store w
     | inr resp =>
         match resp_Body_ReadAll resp with
         | inl err =>
             (CheckAccess a request w).1
             = Err (errors_Wrap err "error in reading response body")
             /\ w_store (CheckAccess a request w).2 = w_store w
         | inr data =>
             if negb (StatusCode resp =? StatusOK) then
               (CheckAccess a request w).1
               = Err (StatusError (url_Path (req_URL req)) (StatusCode resp) data)
               /\ w_store (CheckAccess a request w).2 = w_store w
             else
               (CheckAccess a request w).1 = ConvertCheckAccessResponse data
               /\ w_store (CheckAccess a request w).2
                  = match ConvertCheckAccessResponse data with
                    | Ok response => cache_after_Set request (Allowed response) w
                    | Err _ => cache_after_Set request false w
                    | Panic => w_store w
                    end
         end
     end.
Proof.
  intros Hreach. rewrite (CheckAccess_sends a request req w Hreach).
  unfold calls_made, closes_idle.
  unfold Do, CloseIdleConnections, SetResultInCache, cache_after_Set.
  unfold when, defer. unfold bind, log, try, ret, fail, panic.
  destruct (client_Do req) as [err|resp]; [repeat split|].
  destruct (resp_Body_ReadAll resp) as [err|data]; [repeat split|].
  destruct (StatusCode resp =? StatusOK) eqn:Hcode; cbn [negb].
  - destruct (GoStrconv.Atoi (resp_Header_Get resp remaingSubReadARMHeader)
              <? armCallLimit a); cbv beta iota; cbn [w_store w_events fst snd];
      (destruct (ConvertCheckAccessResponse data) as [response|err|];
       [ destruct (store_Set _ (Allowed response) _)
       | destruct (store_Set _ false _)
       | ]; repeat split).
  - destruct (StatusCode resp =? StatusTooManyRequests); repeat split.
Qed.

Lemma calls_made_shape (a : AccessInfo) (req : Request) :
  exists later,
    calls_made a req = (later ++ [EvDo req])%list
    /\ (forall r, ~ In (EvDo r) later)
    /\ (In EvBodyClose later
        <-> exists resp data,
              client_Do req = inr resp /\ resp_Body_ReadAll resp = inr data)
    /\ (In EvCloseIdleConnections later
        <-> exists resp data,
              client_Do req = inr resp /\ resp_Body_ReadAll resp = inr data
              /\ closes_idle a resp = true).
Proof.
  unfold calls_made.
  destruct (client_Do req) as [err|resp].
  { exists []. split; [reflexivity|]. split; [intros r []|].
    split; (split; [intros []|intros (resp & data & Hdo & _); discriminate Hdo]). }
  destruct (resp_Body_ReadAll resp) as [err|data] eqn:Hread.
  { exists []. split; [reflexivity|]. split; [intros r []|].
    split; (split; [intros []|]).
    - intros (resp' & data & Hdo & Hread'). injection Hdo as <-.
      rewrite Hread in Hread'. discriminate Hread'.
    - intros (resp' & data & Hdo & Hread' & _). injection Hdo as <-.
      rewrite Hread in Hread'. discriminate Hread'. }
  exists (EvBodyClose :: if closes_idle a resp then [EvCloseIdleConnections] else []).
  split; [reflexivity|].
  destruct (closes_idle a resp) eqn:Hclose.
  - split; [intros r [Hr|[Hr|[]]]; discriminate Hr|].
    split; (split; [intros _; exists resp, data; auto|intros _; simpl; auto]).
  - split; [intros r [Hr|[]]; discriminate Hr|].
    split; [split; [intros _; exists resp, data; auto|intros _; simpl; auto]|].
    split; [intros [Hr|[]]; discriminate Hr|].
    intros (resp' & data' & Hdo & _ & Hclose'). injection Hdo as <-.
    rewrite Hclose in Hclose'. discriminate Hclose'.
Qed.

(** X9: an invocation that gets as far as the remote call sends its one
    request and no other.  It closes the body of the response exactly when
    it could read the body (a body that cannot be read is left open), and it
    closes the idle connections of the client exactly when it could read the
    body and the status is 429, or the status is 200 and the count of the
    rate-limit header is below the call limit. *)
Theorem CheckAccess_calls (a : AccessInfo) (request : SubjectAccessReviewSpec)
    (req : Request) (w : World) :
  reaches_remote_call a request req ->
  exists later,
    w_events (CheckAccess a request w).2 = (later ++ EvDo req :: w_events w)%list
    /\ (forall r, ~ In (EvDo r) later)
    /\ (In EvBodyClose later
        <-> exists resp data,
              client_Do req = inr resp /\ resp_Body_ReadAll resp = inr data)
    /\ (In EvCloseIdleConnections later
        <-> exists resp data,
              client_Do req = inr resp /\ resp_Body_ReadAll resp = inr data
              /\ (if negb (StatusCode resp =? StatusOK)
                  then StatusCode resp =? StatusTooManyRequests
                  else GoStrconv.Atoi (resp_Header_Get resp remaingSubReadARMHeader)
                       <? armCallLimit a) = true).
Proof.
  intros Hreach.
  destruct (CheckAccess_after_send a request req w Hreach) as [Hev _].
  destruct (calls_made_shape a req) as (later & Hmade & Hshape).
  exists later. split; [|exact Hshape].
  rewrite Hev, Hmade, <- app_assoc. reflexivity.
Qed.

(** X10: a response with status 200 that has no rate-limit header counts as
    no call left: the header reads as the empty string, [strconv.Atoi] fails
    on it and its 0 is compared with the limit, so the idle connections are
    closed whenever the limit is positive. *)
Theorem CheckAccess_without_rate_header (a : AccessInfo)
    (request : SubjectAccessReviewSpec) (req : Request) (w : World)
    (resp : Response) (data : string) :
  reaches_remote_call a request req ->
  client_Do req = inr resp ->
  resp_Body_ReadAll resp = inr data ->
  StatusCode resp = StatusOK ->
  resp_Header_Get resp remaingSubReadARMHeader = "" ->
  w_events (CheckAccess a request w).2
  = (EvBodyClose
     :: (if 0 <? armCallLimit a then [EvCloseIdleConnections] else [])
     ++ EvDo req :: w_events w)%list.
Proof.
  intros Hreach Hdo Hread Hcode Hheader.
  destruct (CheckAccess_after_send a request req w Hreach) as [Hev _].
  rewrite Hev. unfold calls_made, closes_idle.
  rewrite Hdo, Hread, Hcode, Hheader. cbn [negb Z.eqb StatusOK Pos.eqb].
  change (GoStrconv.Atoi "") with 0.
  destruct (0 <? armCallLimit a); reflexivity.
Qed.

(** X11: an invocation either gets as far as the remote call and sends its
    request, or returns an error and leaves the world as it was: nothing is
    written to the cache and no call is made on the client before the
    request is sent, and no invocation panics before that. *)
Theorem CheckAccess_stops_or_sends (a : AccessInfo) (request : SubjectAccessReviewSpec)
    (w : World) :
  (exists req, reaches_remote_call a request req
               /\ In (EvDo req) (w_events (CheckAccess a request w).2))
  \/ (exists e, CheckAccess a request w = (Err e, w)).
Proof.
  destruct (prepareCheckAccessRequestBody request (clusterType a) (azureResourceId a)
              (retrieveGroupMemberships a)) as [e|body] eqn:Hprep.
  { right. eexists. unfold CheckAccess, bind. rewrite Hprep. reflexivity. }
  destruct (json_Encode body) as [e|buf] eqn:Henc.
  { right. eexists. unfold CheckAccess.
    destruct (getNameSpaceScope request) as [exist_ nameSpaceString].
    unfold bind at 1. rewrite Hprep. unfold try at 1, ret at 1. cbv beta iota.
    unfold bind at 1. rewrite Henc. reflexivity. }
  destruct (http_NewRequest MethodPost (checkAccessURL_of a request) buf)
    as [e|req0] eqn:Hnew.
  { right. eexists. unfold CheckAccess, checkAccessURL_of in *.
    destruct (getNameSpaceScope request) as [exist_ nameSpaceString].
    cbn [fst snd] in Hnew.
    unfold bind at 1. rewrite Hprep. unfold try at 1, ret at 1. cbv beta iota.
    unfold bind at 1. rewrite Henc. unfold try at 1, ret at 1. cbv beta iota.
    unfold bind at 1. rewrite Hnew. reflexivity. }
  left. exists (Request_with_Header req0 (headers a)).
  assert (Hreach : reaches_remote_call a request (Request_with_Header req0 (headers a)))
    by (exists body, buf, req0; auto).
  split; [exact Hreach|].
  destruct (CheckAccess_after_send a request _ w Hreach) as [Hev _].
  rewrite Hev. apply in_or_app. left.
  destruct (calls_made_shape a (Request_with_Header req0 (headers a)))
    as (later & -> & _).
  apply in_or_app. right. left. reflexivity.
Qed.

End AfterSend.

Lemma CheckAccess_calls_witness :
  exists later,
    w_events
      (@CheckAccess Fixture.json
         (Fixture.remote (Fixture.reply 429 "" "Too many requests"))
         MapStore arc_client beta_request empty_world).2
    = (later ++ [EvDo beta_http_request])%list
    /\ In EvCloseIdleConnections later.
Proof.
  destruct (@CheckAccess_calls Fixture.json
              (Fixture.remote (Fixture.reply 429 "" "Too many requests"))
              MapStore arc_client beta_request beta_http_request empty_world
              (beta_reaches_remote_call _))
    as (later & Hev & _ & _ & Hclose).
  exists later. split; [exact Hev|].
  apply Hclose. do 2 eexists.
  split; [reflexivity|]. split; reflexivity.
Defined.

Lemma CheckAccess_without_rate_header_witness :
  w_events
    (@CheckAccess Fixture.json
       (Fixture.remote (Fixture.reply 200 "" (decision_body "Allowed")))
       MapStore arc_client beta_request empty_world).2
  = [EvBodyClose; EvCloseIdleConnections; EvDo beta_http_request].
Proof.
  eapply (@CheckAccess_without_rate_header Fixture.json
            (Fixture.remote (Fixture.reply 200 "" (decision_body "Allowed")))
            MapStore arc_client beta_request beta_http_request empty_world).
  - apply beta_reaches_remote_call.
  - reflexivity.
  - reflexivity.
  - reflexivity.
  - reflexivity.
Defined.

Section Outcomes.
Context `{JSON} `{HTTP} `{Store}.

Lemma ConvertCheckAccessResponse_verdicts (body : string)
    (status : SubjectAccessReviewStatus) :
  ConvertCheckAccessResponse body = Ok status ->
  status = {| Allowed := true; Denied := false;
              Reason := AccessAllowedVerdict; EvaluationError := "" |}
  \/ status = {| Allowed := false; Denied := true;
                 Reason := AccessNotAllowedVerdict; EvaluationError := "" |}.
Proof.
  unfold ConvertCheckAccessResponse.
  destruct (json_Unmarshal body) as [err|[|d ds]]; try discriminate.
  destruct (String.eqb _ _); intros [= <-]; auto.
Qed.

(** X12: a status is returned only for a request that was sent and
    answered with status 200 and a body that could be read and decoded, and
    it is one of two: allowed and not denied with the verdict of an allow,
    or denied and not allowed with the verdict of a deny.  No status leaves
    both open, and none carries an evaluation error. *)
Theorem CheckAccess_status (a : AccessInfo) (request : SubjectAccessReviewSpec)
    (w : World) (status : SubjectAccessReviewStatus) :
  (CheckAccess a request w).1 = Ok status ->
  (status = {| Allowed := true; Denied := false;
               Reason := AccessAllowedVerdict; EvaluationError := "" |}
   \/ status = {| Allowed := false; Denied := true;
                  Reason := AccessNotAllowedVerdict; EvaluationError := "" |})
  /\ exists req resp data,
       reaches_remote_call a request req
       /\ client_Do req = inr resp
       /\ StatusCode resp = 200
       /\ resp_Body_ReadAll resp = inr data
       /\ ConvertCheckAccessResponse data = Ok status.
Proof.
  intros Hok.
  assert (Hsent : exists req, reaches_remote_call a request req).
  { destruct (prepareCheckAccessRequestBody request (clusterType a) (azureResourceId a)
                (retrieveGroupMemberships a)) as [e|body] eqn:Hprep.
    { unfold CheckAccess, bind in Hok. rewrite Hprep in Hok. discriminate Hok. }
    destruct (json_Encode body) as [e|buf] eqn:Henc.
    { unfold CheckAccess in Hok.
      destruct (getNameSpaceScope request) as [exist_ nameSpaceString].
      unfold bind at 1 in Hok. rewrite Hprep in Hok.
      unfold try at 1, ret at 1 in Hok. cbv beta iota in Hok.
      unfold bind at 1 in Hok. rewrite Henc in Hok. discriminate Hok. }
    destruct (http_NewRequest MethodPost (checkAccessURL_of a request) buf)
      as [e|req0] eqn:Hnew.
    { unfold CheckAccess, checkAccessURL_of in *.
      destruct (getNameSpaceScope request) as [exist_ nameSpaceString].
      cbn [fst snd] in Hnew.
      unfold bind at 1 in Hok. rewrite Hprep in Hok.
      unfold try at 1, ret at 1 in Hok. cbv beta iota in Hok.
      unfold bind at 1 in Hok. rewrite Henc in Hok.
      unfold try at 1, ret at 1 in Hok. cbv beta iota in Hok.
      unfold bind at 1 in Hok. rewrite Hnew in Hok. discriminate Hok. }
    exists (Request_with_Header req0 (headers a)), body, buf, req0. auto. }
  destruct Hsent as [req Hreach].
  destruct (CheckAccess_after_send a request req w Hreach) as [_ Hout].
  destruct (client_Do req) as [err|resp] eqn:Hdo;
    [destruct Hout as [Hr _]; rewrite Hr in Hok; discriminate Hok|].
  destruct (resp_Body_ReadAll resp) as [err|data] eqn:Hread;
    [destruct Hout as [Hr _]; rewrite Hr in Hok; discriminate Hok|].
  destruct (StatusCode resp =? StatusOK) eqn:Hcode; cbn [negb] in Hout;
    [|destruct Hout as [Hr _]; rewrite Hr in Hok; discriminate Hok].
  destruct Hout as [Hr _]. rewrite Hr in Hok.
  split; [exact (ConvertCheckAccessResponse_verdicts data status Hok)|].
  exists req, resp, data. apply Z.eqb_eq in Hcode. auto.
Qed.

(** X13: when the remote side answers with status 200 and a body that
    decodes to the empty list, the invocation panics at the index of the
    first decision: nothing is returned, the cache is left as it was, and
    the deferred close of the body is still made. *)
Theorem CheckAccess_no_decision (a : AccessInfo) (request : SubjectAccessReviewSpec)
    (req : Request) (w : World) (resp : Response) (data : string) :
  reaches_remote_call a request req ->
  client_Do req = inr resp ->
  resp_Body_ReadAll resp = inr data ->
  StatusCode resp = StatusOK ->
  json_Unmarshal data = inr [] ->
  (CheckAccess a request w).1 = Panic
  /\ w_store (CheckAccess a request w).2 = w_store w
  /\ exists rest, w_events (CheckAccess a request w).2 = EvBodyClose :: rest.
Proof.
  intros Hreach Hdo Hread Hcode Hnil.
  destruct (CheckAccess_after_send a request req w Hreach) as [Hev Hout].
  unfold calls_made in Hev. rewrite Hdo, Hread in Hev, Hout.
  rewrite Hcode in Hout. cbn [negb Z.eqb StatusOK Pos.eqb] in Hout.
  assert (Hconv : ConvertCheckAccessResponse data = Panic)
    by (unfold ConvertCheckAccessResponse; rewrite Hnil; reflexivity).
  rewrite Hconv in Hout. destruct Hout as [Hr Hst].
  split; [exact Hr|]. split; [exact Hst|].
  rewrite Hev. eexists. reflexivity.
Qed.

(** X14: with a store that finds what was set, the decision of an answered
    call is found by the next look-up under the same key: after an answer
    of status 200 whose body decodes to decisions, [GetResultFromCache]
    finds the allowed outcome that [CheckAccess] returned, and after one
    whose body does not decode it finds a deny.  The look-up may be for
    another request, as long as its key is the same. *)
Theorem GetResultFromCache_after_CheckAccess (a a' : AccessInfo)
    (request request' : SubjectAccessReviewSpec) (req : Request) (w : World)
    (resp : Response) (data : string) :
  Get_after_Set ->
  reaches_remote_call a request req ->
  client_Do req = inr resp ->
  resp_Body_ReadAll resp = inr data ->
  StatusCode resp = StatusOK ->
  ConvertCheckAccessResponse data <> Panic ->
  getResultCacheKey request' = getResultCacheKey request ->
  let decision := match (CheckAccess a request w).1 with
                  | Ok status => Allowed status
                  | _ => false
                  end in
  (store_Set (getResultCacheKey request) decision (w_store w)).1 = None ->
  (GetResultFromCache a' request' (CheckAccess a request w).2).1
  = Ok (true, decision).
Proof.
  intros Hlaw Hreach Hdo Hread Hcode Hconv Hkey decision Hset. subst decision.
  destruct (CheckAccess_after_send a request req w Hreach) as [_ Hout].
  rewrite Hdo, Hread, Hcode in Hout. cbn [negb Z.eqb StatusOK Pos.eqb] in Hout.
  destruct Hout as [Hr Hst]. rewrite Hr in Hset |- *.
  unfold GetResultFromCache. rewrite Hkey, Hst.
  destruct (ConvertCheckAccessResponse data) as [status|err|];
    [| |contradiction]; unfold cache_after_Set;
    pose proof (Hlaw _ _ _ Hset) as Hget;
    destruct (store_Get _ _) as [[[found written] e] st];
    cbn [fst] in Hget; injection Hget as -> -> ->; reflexivity.
Qed.

End Outcomes.

Lemma CheckAccess_status_witness :
  let status := {| Allowed := false; Denied := true;
                   Reason := AccessNotAllowedVerdict; EvaluationError := "" |} in
  exists req resp data,
    @reaches_remote_call Fixture.json
      (Fixture.remote (Fixture.reply 200 "11999" (decision_body "Denied")))
      arc_client beta_request req
    /\ @client_Do (Fixture.remote (Fixture.reply 200 "11999" (decision_body "Denied")))
         req = inr resp
    /\ StatusCode resp = 200
    /\ resp_Body_ReadAll resp = inr data
    /\ @ConvertCheckAccessResponse Fixture.json data = Ok status.
Proof.
  intros status.
  apply (@CheckAccess_status Fixture.json
           (Fixture.remote (Fixture.reply 200 "11999" (decision_body "Denied")))
           MapStore arc_client beta_request empty_world status).
  vm_compute. reflexivity.
Defined.

Lemma CheckAccess_no_decision_witness :
  (@CheckAccess Fixture.json (Fixture.remote (Fixture.reply 200 "11999" "[]"))
     MapStore arc_client beta_request empty_world).1 = Panic.
Proof.
  eapply (@CheckAccess_no_decision Fixture.json
            (Fixture.remote (Fixture.reply 200 "11999" "[]"))
            MapStore arc_client beta_request beta_http_request empty_world).
  - apply beta_reaches_remote_call.
  - reflexivity.
  - reflexivity.
  - reflexivity.
  - vm_compute. reflexivity.
Defined.

Lemma MapStore_Get_after_Set : @Get_after_Set MapStore.
Proof.
  intros key value st _. simpl. rewrite lookup_insert_eq.
  rewrite bool_decide_eq_true_2 by eauto. reflexivity.
Qed.

Lemma GetResultFromCache_after_CheckAccess_witness :
  (@GetResultFromCache MapStore arc_client
     (resource_request "beta@bing.com" "dev" "" "pods" "deletecollection" "" ∅)
     (@CheckAccess Fixture.json
        (Fixture.remote (Fixture.reply 200 "11999" (decision_body "Allowed")))
        MapStore arc_client beta_request empty_world).2).1
  = Ok (true, true).
Proof.
  eapply (@GetResultFromCache_after_CheckAccess Fixture.json
            (Fixture.remote (Fixture.reply 200 "11999" (decision_body "Allowed")))
            MapStore arc_client arc_client beta_request
            (resource_request "beta@bing.com" "dev" "" "pods" "deletecollection" "" ∅)
            beta_http_request empty_world).
  - exact MapStore_Get_after_Set.
  - apply beta_reaches_remote_call.
  - reflexivity.
  - reflexivity.
  - reflexivity.
  - vm_compute. discriminate.
  - reflexivity.
  - reflexivity.
Defined.

(** ** The URL of a check-access call *)

Lemma checkAccessURL_of_path (a : AccessInfo) (request : SubjectAccessReviewSpec) :
  url_Path (checkAccessURL_of a request)
  = GoPath.Join (checkAccessURL_parts a request).
Proof.
  unfold checkAccessURL_of, checkAccessURL_parts, getNameSpaceScope.
  set (p := url_Path (apiURL a)). set (rid := azureResourceId a).
  destruct (sar_ResourceAttributes request) as [ra|]; cbn [fst snd].
  - destruct (String.eqb (ra_Namespace ra) ""); cbn [negb fst snd];
      cbn [url_Path url_Scheme url_Host url_RawQuery URL_with_Path URL_with_RawQuery app].
    + exact (Join_nest_left [p; rid] [checkAccessPath]).
    + assert (Hns : GoPath.rooted (GoPath.Join [namespaces; ra_Namespace ra]) = false).
      { change (GoPath.Join [namespaces; ra_Namespace ra])
          with (GoPath.Clean (String.concat "/" [namespaces; ra_Namespace ra])).
        rewrite rooted_Clean. reflexivity. }
      rewrite_lists (Join_nest_left [GoPath.Join [p; rid];
                                     GoPath.Join [namespaces; ra_Namespace ra]]
                       [checkAccessPath]).
      rewrite_lists (Join_nest_left [p; rid]
                       [GoPath.Join [namespaces; ra_Namespace ra]; checkAccessPath]).
      exact (Join_nest [p; rid] [namespaces; ra_Namespace ra] [checkAccessPath] Hns).
  - cbn [url_Path url_Scheme url_Host url_RawQuery URL_with_Path URL_with_RawQuery app].
    exact (Join_nest_left [p; rid] [checkAccessPath]).
Qed.

Lemma checkAccessURL_of_flat (a : AccessInfo) (request : SubjectAccessReviewSpec) :
  checkAccessURL_of a request = checkAccessURL_flat a request.
Proof.
  pose proof (checkAccessURL_of_path a request) as Hpath.
  unfold checkAccessURL_flat. rewrite <- Hpath.
  unfold checkAccessURL_of.
  destruct ((getNameSpaceScope request).1); reflexivity.
Qed.

(** X15: the URL that [CheckAccess] builds and renders for
    [http.NewRequest] is the URL of the API with one [path.Join] in its
    Path field: of the path of the API, the resource id, "namespaces" and
    the namespace when the request has one, and the check-access path; its
    query is the API version.  Whatever request [http.NewRequest] makes of
    that URL is the request sent, with the headers of the client.  The path
    of the request itself is what [http.NewRequest] parses from the
    rendered text, which need not be the Path field: behind a host, a path
    without root comes back with a slash in front. *)
Theorem CheckAccess_URL `{JSON} `{HTTP} `{Store}
    (a : AccessInfo) (request : SubjectAccessReviewSpec) (w : World)
    (body : CheckAccessRequest) (buf : string) (req0 : Request) :
  prepareCheckAccessRequestBody request (clusterType a) (azureResourceId a)
    (retrieveGroupMemberships a) = inr body ->
  json_Encode body = inr buf ->
  http_NewRequest MethodPost
    {| url_Scheme := url_Scheme (apiURL a);
       url_Host := url_Host (apiURL a);
       url_Path :=
         GoPath.Join
           ([url_Path (apiURL a); azureResourceId a]
            ++ match sar_ResourceAttributes request with
               | Some ra => if String.eqb (ra_Namespace ra) "" then []
                            else [namespaces; ra_Namespace ra]
               | None => []
               end
            ++ [checkAccessPath]);
       url_RawQuery := "api-version=2018-09-01-preview" |} buf = inr req0 ->
  In (EvDo (Request_with_Header req0 (headers a)))
     (w_events (CheckAccess a request w).2).
Proof.
  intros Hprep Henc Hnew.
  assert (Hreach : reaches_remote_call a request (Request_with_Header req0 (headers a))).
  { exists body, buf, req0. rewrite checkAccessURL_of_flat. auto. }
  destruct (CheckAccess_after_send a request _ w Hreach) as [Hev _].
  rewrite Hev. apply in_or_app. left.
  destruct (calls_made_shape a (Request_with_Header req0 (headers a)))
    as (later & -> & _).
  apply in_or_app. right. left. reflexivity.
Qed.

Lemma CheckAccess_URL_witness :
  In (EvDo beta_http_request)
     (w_events
        (@CheckAccess Fixture.json
           (Fixture.remote (Fixture.reply 200 "11999" (decision_body "Allowed")))
           MapStore arc_client beta_request empty_world).2).
Proof.
  change beta_http_request
    with (Request_with_Header
            {| req_Method := req_Method beta_http_request;
               req_URL := req_URL beta_http_request;
               req_Body := req_Body beta_http_request;
               req_Header := ∅ |} (headers arc_client)).
  eapply (@CheckAccess_URL Fixture.json
            (Fixture.remote (Fixture.reply 200 "11999" (decision_body "Allowed")))
            MapStore arc_client beta_request empty_world).
  - vm_compute. reflexivity.
  - vm_compute. reflexivity.
  - vm_compute. reflexivity.
Defined.

(** With no path in the URL of the API and a resource id without root, the
    Path field has no slash in front and the request of the examples has
    one. *)
Lemma CheckAccess_URL_relative_path :
  let a := @newAccessInfo Fixture.unicode
             {| url_Scheme := "http"; url_Host := "127.0.0.1";
                url_Path := ""; url_RawQuery := "" |}
             "arc" "resourceId" 2000 [] true true in
  let remote := Fixture.remote (Fixture.reply 200 "11999" (decision_body "Allowed")) in
  url_Path (checkAccessURL_of a beta_request)
  = "resourceId/namespaces/dev/providers/Microsoft.Authorization/checkaccess"
  /\ map (fun e => match e with
                   | EvDo req => url_Path (req_URL req)
                   | _ => ""
                   end)
         (w_events (@CheckAccess Fixture.json remote MapStore a beta_request
                      empty_world).2)
     = [""; "/resourceId/namespaces/dev/providers/Microsoft.Authorization/checkaccess"].
Proof. vm_compute. split; reflexivity. Qed.

Lemma concat_snoc_elements (pre : list string) (x : string) (l : list string) :
  exists prefix,
    String.concat "/" (pre ++ x :: l) = prefix +:+ String.concat "/" (x :: l).
Proof.
  destruct pre as [|p pre].
  - exists "". reflexivity.
  - exists (String.concat "/" (p :: pre) +:+ "/").
    rewrite concat_app by discriminate. rewrite append_assoc. reflexivity.
Qed.

(** X16: whatever the path of the API, the resource id and the namespace
    are, the path of the URL ends in the check-access path: no dot-dot
    element of a resource id or a namespace takes anything away from it. *)
Theorem checkAccessURL_ends_in_checkAccessPath (a : AccessInfo)
    (request : SubjectAccessReviewSpec) :
  exists prefix,
    url_Path (checkAccessURL_of a request)
    = prefix +:+ "providers/Microsoft.Authorization/checkaccess".
Proof.
  rewrite checkAccessURL_of_path. unfold checkAccessURL_parts.
  set (l := ([url_Path (apiURL a); azureResourceId a]
             ++ match sar_ResourceAttributes request with
                | Some ra => if String.eqb (ra_Namespace ra) "" then []
                             else [namespaces; ra_Namespace ra]
                | None => []
                end)%list).
  rewrite app_assoc. fold l. clearbody l.
  rewrite Join_app_drop_empty.
  destruct (drop_empty l) as [|e tl] eqn:Hdrop.
  { exists "/". reflexivity. }
  pose proof (drop_empty_head l e tl Hdrop) as He.
  change ((e :: tl) ++ [checkAccessPath])%list with (e :: (tl ++ [checkAccessPath]))%list.
  rewrite Join_cleaned by exact He.
  unfold cleaned.
  change (e :: (tl ++ [checkAccessPath]))%list with ((e :: tl) ++ [checkAccessPath])%list.
  rewrite flat_map_app, fold_left_app.
  set (out := fold_left (step_elements (GoPath.rooted e))
                (flat_map GoPath.elements (e :: tl)) []).
  change (flat_map GoPath.elements [checkAccessPath])
    with [""; "providers"; "Microsoft.Authorization"; "checkaccess"].
  cbn [fold_left].
  rewrite (step_elements_skip _ out "") by (left; reflexivity).
  rewrite !step_elements_push by discriminate.
  change (rev ("checkaccess" :: "Microsoft.Authorization" :: "providers" :: out))
    with (rev ("Microsoft.Authorization" :: "providers" :: out) ++ ["checkaccess"])%list.
  cbn [rev]. rewrite <- !app_assoc. cbn [app].
  destruct (concat_snoc_elements (rev out) "providers"
              ["Microsoft.Authorization"; "checkaccess"]) as [prefix Hprefix].
  unfold render. destruct (GoPath.rooted e).
  - exists (String GoPath.slash prefix). rewrite Hprefix. reflexivity.
  - exists prefix. destruct (rev out); exact Hprefix.
Qed.

(** ** The client from its making to its calls *)

(** X17: a client made by [newAccessInfo] skips the check of a request
    exactly when it was made for an "arc" cluster and the user of the
    request, lowered by [strings.ToLower], is the lowered form of an entry
    of the skip list; a client for "aks" or for any other cluster type
    skips none.  When the user and the entries are ASCII strings, this is
    when the user is an entry up to the case of the letters A to Z. *)
Theorem SkipAuthzCheck_newAccessInfo `{GoStrings.Unicode}
    (rbacURL : URL) (clsuterType resourceId : string)
    (limit : Z) (skipList : list string) (rgm skip : bool)
    (request : SubjectAccessReviewSpec) :
  (SkipAuthzCheck
     (newAccessInfo rbacURL clsuterType resourceId limit skipList rgm skip) request
   = true
   <-> clsuterType = "arc"
       /\ exists s, In s skipList
                    /\ GoStrings.ToLower_full s
                       = GoStrings.ToLower_full (sar_User request))
  /\ (GoStrings.isASCII (sar_User request) = true ->
      forallb GoStrings.isASCII skipList = true ->
      (SkipAuthzCheck
         (newAccessInfo rbacURL clsuterType resourceId limit skipList rgm skip) request
       = true
       <-> clsuterType = "arc"
           /\ exists s, In s skipList
                        /\ GoStrings.equal_fold s (sar_User request) = true)).
Proof.
  assert (Hskip : SkipAuthzCheck
                    (newAccessInfo rbacURL clsuterType resourceId limit skipList rgm skip)
                    request = true
                  <-> clsuterType = "arc"
                      /\ exists s, In s skipList
                                   /\ GoStrings.ToLower_full s
                                      = GoStrings.ToLower_full (sar_User request)).
  { unfold SkipAuthzCheck, newAccessInfo. cbn [clusterType skipCheck].
    assert (Hin : GoStrings.ToLower_full (sar_User request)
                    ∈ (list_to_set (map GoStrings.ToLower_full skipList) : gset string)
                  <-> exists s, In s skipList
                                /\ GoStrings.ToLower_full s
                                   = GoStrings.ToLower_full (sar_User request)).
    { rewrite elem_of_list_to_set, list_elem_of_In, in_map_iff.
      split; intros (s & Hs1 & Hs2); exists s; auto. }
    destruct (String.eqb_spec clsuterType "aks") as [->|Haks].
    { cbn [String.eqb]. split; [discriminate|intros [Harc _]; discriminate Harc]. }
    destruct (String.eqb_spec clsuterType "arc") as [->|Harc].
    - change (String.eqb connectedClusters connectedClusters) with true. cbv iota.
      rewrite bool_decide_eq_true, Hin. tauto.
    - change (String.eqb "" connectedClusters) with false. cbv iota.
      split; [discriminate|intros [Habs _]; contradiction]. }
  split; [exact Hskip|].
  intros Huser Hlist. rewrite Hskip.
  assert (Hfold : forall s, In s skipList ->
                    (GoStrings.ToLower_full s = GoStrings.ToLower_full (sar_User request)
                     <-> GoStrings.equal_fold s (sar_User request) = true)).
  { intros s Hs. unfold GoStrings.ToLower_full. rewrite Huser.
    rewrite forallb_forall in Hlist. rewrite (Hlist s Hs).
    rewrite equal_fold_ToLower. symmetry. apply String.eqb_eq. }
  split; intros [Harc (s & Hs & Heq)]; (split; [exact Harc|]); exists s;
    (split; [exact Hs|]); apply (Hfold s Hs); exact Heq.
Qed.

(** The skip entry ÉCOLE and the user école: the client skips the check. *)
Lemma SkipAuthzCheck_lowers_runes :
  @SkipAuthzCheck Fixture.unicode
    (@newAccessInfo Fixture.unicode
       {| url_Scheme := "http"; url_Host := "127.0.0.1";
          url_Path := "/arm/"; url_RawQuery := "" |}
       "arc" "resourceId" 2000 ["ÉCOLE"] true true)
    (resource_request "école" "dev" "" "pods" "get" "web" ∅)
  = true.
Proof. vm_compute. reflexivity. Qed.

(** X18: the headers that a client puts on its requests.  As made by
    [newAccessInfo] they are the content type of JSON alone; a refresh of
    the token adds the bearer token as the one value of Authorization; a
    later refresh replaces that value, so that the headers hold the later
    token only. *)
Theorem headers_after_RefreshToken `{GoStrings.Unicode} (P P' : TokenProvider)
    (rbacURL : URL) (clsuterType resourceId : string)
    (limit : Z) (skipList : list string) (rgm skip : bool)
    (now now' : Z) (resp resp' : AuthResponse) :
  @provider_Acquire P "" = inr resp ->
  @provider_Acquire P' "" = inr resp' ->
  let a0 := newAccessInfo rbacURL clsuterType resourceId limit skipList rgm skip in
  let a1 := (@RefreshToken P now a0).2 in
  let a2 := (@RefreshToken P' now' a1).2 in
  headers a0 = {[ "Content-Type" := ["application/json"] ]}
  /\ headers a1 = {[ "Authorization" := ["Bearer " +:+ Token resp];
                     "Content-Type" := ["application/json"] ]}
  /\ headers a2 = {[ "Authorization" := ["Bearer " +:+ Token resp'];
                     "Content-Type" := ["application/json"] ]}.
Proof.
  intros Hacq Hacq' a0 a1 a2. subst a0 a1 a2.
  unfold RefreshToken. rewrite Hacq. cbn [snd headers AccessInfo_with_token].
  rewrite Hacq'. cbn [snd headers AccessInfo_with_token newAccessInfo].
  unfold Header_Set.
  split; [reflexivity|]. split; [reflexivity|].
  apply insert_insert_eq.
Qed.

Lemma headers_after_RefreshToken_witness :
  headers (@RefreshToken
             (Fixture.provider
                (inr {| TokenType := "Bearer"; Expires := 3600; Token := "n3xt" |}))
             (2000 * Second)
             (@RefreshToken token_8459 (1000 * Second) arc_client).2).2
  = {[ "Authorization" := ["Bearer n3xt"];
       "Content-Type" := ["application/json"] ]}.
Proof.
  apply (@headers_after_RefreshToken Fixture.unicode token_8459
           (Fixture.provider
              (inr {| TokenType := "Bearer"; Expires := 3600; Token := "n3xt" |}))
           {| url_Scheme := "http"; url_Host := "127.0.0.1";
              url_Path := "/arm/"; url_RawQuery := "" |}
           "arc" "resourceId" 2000 ["alpha, tango, charlie"] true true
           (1000 * Second) (2000 * Second)
           {| TokenType := "Bearer"; Expires := 8459; Token := "t0k3n" |}
           {| TokenType := "Bearer"; Expires := 3600; Token := "n3xt" |}
           eq_refl eq_refl).
Defined.

(** X19: a token that the provider gives for 60 seconds or less is of no
    use: at every instant after the refresh the client reports it as
    expired. *)
Theorem RefreshToken_short_lived (P : TokenProvider) (a : AccessInfo)
    (t0 now : Z) (resp : AuthResponse) :
  provider_Acquire "" = inr resp ->
  0 <= Expires resp <= 60 ->
  t0 < now ->
  IsTokenExpired now (RefreshToken t0 a).2 = true.
Proof.
  intros Hacq Hexp Hnow. apply IsTokenExpired_iff.
  unfold RefreshToken. rewrite Hacq. cbn [snd expiresAt AccessInfo_with_token].
  unfold Time_Add, Duration_sub, Duration_mul, expiryDelta, Second.
  rewrite (wrap64_small (Expires resp * 1000000000)) by lia.
  rewrite wrap64_small by lia. lia.
Qed.

Lemma RefreshToken_short_lived_witness :
  IsTokenExpired (1000 * Second + 1)
    (@RefreshToken
       (Fixture.provider (inr {| TokenType := "Bearer"; Expires := 45; Token := "t0k3n" |}))
       (1000 * Second) arc_client).2
  = true.
Proof.
  apply (RefreshToken_short_lived
           (Fixture.provider (inr {| TokenType := "Bearer"; Expires := 45; Token := "t0k3n" |}))
           arc_client (1000 * Second) (1000 * Second + 1)
           {| TokenType := "Bearer"; Expires := 45; Token := "t0k3n" |}).
  - reflexivity.
  - simpl. lia.
  - lia.
Defined.

(** ** The options of the Google authenticator *)

(** X20: [Apply] changes the deployment only when it succeeds.  On a
    deployment without containers it panics at the index of the first
    container, and when the service account file cannot be read it returns
    the error of the read as it is; in both cases the deployment is left as
    it was.  It succeeds in every other case. *)
Theorem Apply_fails_without_change `{Google.Files}
    (o : Google.Options) (d : Google.Deployment) :
  match (Google.Apply o d).1 with
  | Panic => Google.Containers d = [] /\ (Google.Apply o d).2 = d
  | Err e =>
      Google.Containers d <> []
      /\ Google.ReadFile (Google.ServiceAccountJsonFile o) = inl e
      /\ (Google.Apply o d).2 = d
  | Ok objs =>
      Google.Containers d <> []
      /\ exists sa, Google.ReadFile (Google.ServiceAccountJsonFile o) = inr sa
  end.
Proof.
  unfold Google.Apply.
  destruct (Google.Containers d) as [|container others]; [split; reflexivity|].
  destruct (Google.ReadFile (Google.ServiceAccountJsonFile o)) as [err|sa];
    cbn [fst snd].
  - split; [discriminate|]. split; reflexivity.
  - split; [discriminate|]. exists sa. reflexivity.
Qed.

(** X21: [Apply] of options that [Validate] accepts, on a deployment with
    a container and with a service account file that can be read.  It
    returns one secret, named guard-google-auth, in the namespace and with
    the labels of the deployment, that holds the file under sa.json.  Of the
    deployment it touches the first container and the volumes only: the
    first container gets one more volume mount and, behind the arguments it
    had, the flag of the service account file and the flag of the
    administrator, in this order; the deployment gets one more volume; the
    volume and the mount have the name of the secret. *)
Theorem Apply_of_valid_options `{Google.Files}
    (o : Google.Options) (d : Google.Deployment)
    (container : Google.Container) (others : list Google.Container) (sa : string) :
  Google.Validate o = [] ->
  Google.Containers d = container :: others ->
  Google.ReadFile (Google.ServiceAccountJsonFile o) = inr sa ->
  Google.Apply o d
  = (Ok [ {| Google.s_Name := "guard-google-auth";
             Google.s_Namespace := Google.d_Namespace d;
             Google.s_Labels := Google.d_Labels d;
             Google.Data := {[ "sa.json" := sa ]} |} ],
     {| Google.d_Namespace := Google.d_Namespace d;
        Google.d_Labels := Google.d_Labels d;
        Google.Containers :=
          {| Google.c_Name := Google.c_Name container;
             Google.Args :=
               (Google.Args container
                ++ ["--google.sa-json-file=/etc/guard/auth/google/sa.json";
                    "--google.admin-email=" +:+ Google.AdminEmail o])%list;
             Google.VolumeMounts :=
               (Google.VolumeMounts container
                ++ [ {| Google.vm_Name := "guard-google-auth";
                        Google.MountPath := "/etc/guard/auth/google" |} ])%list |}
          :: others;
        Google.Volumes :=
          (Google.Volumes d
           ++ [ {| Google.v_Name := "guard-google-auth";
                   Google.v_Secret :=
                     Some {| Google.SecretName := "guard-google-auth";
                             Google.DefaultMode := Some 365 |} |} ])%list |}).
Proof.
  intros Hvalid Hcs Hread. unfold Google.Validate, Google.Apply in *.
  destruct (String.eqb (Google.ServiceAccountJsonFile o) "") eqn:Hfile;
    [destruct (String.eqb (Google.AdminEmail o) ""); discriminate Hvalid|].
  destruct (String.eqb (Google.AdminEmail o) "") eqn:Hemail; [discriminate Hvalid|].
  rewrite Hcs, Hread. cbn [negb].
  unfold Google.with_Containers, Google.with_Volumes, Google.with_Args,
    Google.with_VolumeMounts.
  cbn [Google.Containers Google.Volumes Google.Args Google.VolumeMounts
       Google.c_Name Google.d_Namespace Google.d_Labels Google.s_Name].
  rewrite Hcs, <- app_assoc. reflexivity.
Qed.

Lemma Apply_of_valid_options_witness :
  let files := {| Google.ReadFile path :=
                    if String.eqb path "sa.json" then inr "{}"
                    else inl (LibError "open: no such file or directory") |} in
  let o := {| Google.ServiceAccountJsonFile := "sa.json";
              Google.AdminEmail := "admin@example.com" |} in
  let guard := {| Google.c_Name := "guard"; Google.Args := ["run"];
                  Google.VolumeMounts := [] |} in
  let d := {| Google.d_Namespace := "kube-system"; Google.d_Labels := ∅;
              Google.Containers := [guard]; Google.Volumes := [] |} in
  map Google.Args (Google.Containers (@Google.Apply files o d).2)
  = [ ["run"; "--google.sa-json-file=/etc/guard/auth/google/sa.json";
       "--google.admin-email=admin@example.com"] ].
Proof.
  intros files o guard d.
  rewrite (@Apply_of_valid_options files o d guard [] "{}" eq_refl eq_refl eq_refl).
  reflexivity.
Defined.
